(** * TLE [Handles] cog: rank roles and the achievement ledger

    A shallow embedding of the parts of [tle/cogs/handles.py] that keep a
    guild's rank roles and the per-member achievement ledger in step with
    Codeforces ratings:

    - [_check_and_update_achievements] (the ledger update rule),
    - [maybe_add_trusted_role], [update_member_rank_role] (one member),
    - [_update_ranks], [_update_ranks_all] (one guild),
    - [_make_achievement_embeds], [update_for_guild] (the per-guild
      pipeline run on a rating change event),
    - [_set] once the link is stored and the loop of [sync_achievements]
      (the two other writers of the ledger),
    - [rating_to_color], [_make_pages] and the end of [pretty] (the
      listings), and [strtobool] of [tle/__main__.py].

    Integers are [Z], Python's [None] is [option], dictionaries of the
    data base are [gmap], and the calls to Discord and to the data base are
    threaded through a small state/exception/trace monad. *)

From Stdlib Require Import ZArith List String Bool Lia.
From stdpp Require Import base list strings gmap.

#[local] Set Warnings "-clear-no-such-hyp".

Local Open Scope string_scope.
Local Open Scope list_scope.

(** * Part I: the embedding *)

(** ** Python idioms used by the source *)
Module Py.

(** Truthiness of an [int]: [0] is falsy. *)
Definition truthy (z : Z) : bool := negb (z =? 0)%Z.

(** Truthiness of an [Optional[int]]: [None] and [0] are falsy. *)
Definition truthy_opt (o : option Z) : bool :=
  match o with
  | Some z => truthy z
  | None => false
  end.

(** [a or b] where [a] is an [Optional[int]] and [b] an [int]. *)
Definition or_int (a : option Z) (b : Z) : Z :=
  match a with
  | Some z => if truthy z then z else b
  | None => b
  end.

(** [a or b] on strings: the empty string is falsy. *)
Definition or_str (a b : string) : string :=
  if String.eqb a "" then b else a.

(** [l.index(x)]: the first position of [x]; [None] stands for the
    [ValueError] raised when [x] does not occur. *)
Fixpoint index (l : list string) (x : string) : option nat :=
  match l with
  | [] => None
  | y :: l' => if String.eqb y x then Some 0%nat else S <$> index l' x
  end.

End Py.

(** ** The rank table of [tle.util.codeforces_api] *)
Module cf.

(** A rated rank: its inclusive lower rating bound and its title.  The
    position of a rank in [RATED_RANKS] is its ordinal. *)
Record Rank := { low : Z; title : string }.

(** What [rating2rank] returns: the sentinel [UNRATED_RANK] or one of the
    rated ranks.  A rated rank never compares equal to the sentinel. *)
Inductive Tier :=
| UNRATED_RANK
| Rated (k : Rank).

Definition tier_title (t : Tier) : string :=
  match t with
  | UNRATED_RANK => "Unrated"
  | Rated k => title k
  end.

(** One pass over the table, keeping the last rank whose bound is met. *)
Fixpoint scan (rs : list Rank) (best : Tier) (rating : Z) : Tier :=
  match rs with
  | [] => best
  | k :: rs' => scan rs' (if (low k <=? rating)%Z then Rated k else best) rating
  end.

(** Modelled from the spec: [cf.rating2rank] is not under [src/]; the
    resolver "scans the ordered tier table and returns the highest tier
    whose lower bound is <= rating; returns the Unrated sentinel when
    rating is null or below the lowest bound".  The table [cf.RATED_RANKS]
    is not under [src/] either and is a parameter. *)
Definition rating2rank (RATED_RANKS : list Rank) (rating : option Z) : Tier :=
  match rating with
  | None => UNRATED_RANK
  | Some r => scan RATED_RANKS UNRATED_RANK r
  end.

(** [[rank.title for rank in cf.RATED_RANKS]] *)
Definition rank_titles (RATED_RANKS : list Rank) : list string :=
  title <$> RATED_RANKS.

(** A table is well formed when its titles are pairwise distinct and none
    of them is the sentinel's. *)
Definition table_wf (RATED_RANKS : list Rank) : Prop :=
  NoDup (rank_titles RATED_RANKS) ∧ "Unrated" ∉ rank_titles RATED_RANKS.

(** A user as returned by [cf.user.info]. *)
Record User := { handle : string; rating : option Z; maxRating : option Z }.

(** One entry of a rating history or of a contest's rating changes. *)
Record RatingChange := {
  change_handle : string;
  newRating : Z;
  ratingUpdateTimeSeconds : Z }.

(** What [cf.user.rating] does: return the history or raise. *)
Inductive RatingResult :=
| RatingChanges (changes : list RatingChange)
| NotFoundError
| CodeforcesApiError.

(** A table used for the concrete evaluations below. *)
Definition sample_ranks : list Rank :=
  [ {| low := -1000000000; title := "Newbie" |};
    {| low := 1200; title := "Pupil" |};
    {| low := 1400; title := "Specialist" |};
    {| low := 1600; title := "Expert" |};
    {| low := 1900; title := "Candidate Master" |};
    {| low := 2100; title := "Master" |};
    {| low := 2300; title := "International Master" |};
    {| low := 2400; title := "Grandmaster" |};
    {| low := 2600; title := "International Grandmaster" |};
    {| low := 3000; title := "Legendary Grandmaster" |} ].

End cf.

(** ** The achievement ledger rule of [_check_and_update_achievements] *)
Module Ledger.

(** What one pass of the loop body decides for one member: the two flags,
    the values shown in the announcement, and the pair handed to
    [update_user_achievement] ([None] when nothing is written). *)
Record Verdict := {
  is_new_max : bool;
  is_new_rank : bool;
  old_max_shown : option Z;
  old_rank : string;
  written : option (Z * string) }.

(** Lines 1157-1197 of the loop body, for the pair [(old_max,
    old_highest_rank)] read from the data base and the observation
    [(new_rating, new_rank)]. *)
Definition check_achievement (rank_order : list string)
    (old_max : option Z) (old_highest_rank : option string)
    (new_rating : Z) (new_rank : string) : Verdict :=
  let new_max :=
    match old_max with
    | None => true
    | Some m => (m <? new_rating)%Z
    end in
  let old_max1 := if new_max then Some (Py.or_int old_max new_rating) else old_max in
  let '(new_rank_flag, shown_rank) :=
    match old_highest_rank with
    | None => (true, "Unrated")
    | Some old =>
        match Py.index rank_order old with
        | None => (false, Py.or_str old "Unrated")
        | Some old_rank_idx =>
            match Py.index rank_order new_rank with
            | None => (false, Py.or_str old "Unrated")
            | Some new_rank_idx =>
                (bool_decide (old_rank_idx < new_rank_idx)%nat, old)
            end
        end
    end in
  let current_max :=
    match old_max1 with
    | Some m => if Py.truthy m then Z.max new_rating m else new_rating
    | None => new_rating
    end in
  let current_highest_rank :=
    match old_highest_rank with
    | None => new_rank
    | Some old => if new_rank_flag then new_rank else old
    end in
  {| is_new_max := new_max;
     is_new_rank := new_rank_flag;
     old_max_shown := old_max1;
     old_rank := shown_rank;
     written :=
       if new_max || new_rank_flag
       then Some (current_max, current_highest_rank)
       else None |}.

(** A ledger record as the code sees it: the pair returned by
    [get_user_achievement], [(None, None)] when there is no record. *)
Definition Entry : Type := option Z * option string.

(** The record after the observation: what was written, or the old
    record when nothing was. *)
Definition apply (rank_order : list string) (R : Entry)
    (new_rating : Z) (new_rank : string) : Entry :=
  match written (check_achievement rank_order R.1 R.2 new_rating new_rank) with
  | Some (m, r) => (Some m, Some r)
  | None => R
  end.

(** An observation made from a rating alone: its tier is the resolver's. *)
Definition observe (RATED_RANKS : list cf.Rank) (R : Entry) (r : Z) : Entry :=
  apply (cf.rank_titles RATED_RANKS) R r
    (cf.tier_title (cf.rating2rank RATED_RANKS (Some r))).

(** A sequence of observations, applied from left to right. *)
Definition observe_all (RATED_RANKS : list cf.Rank) (R : Entry) (rs : list Z)
    : Entry :=
  foldl (observe RATED_RANKS) R rs.

(** The ordinal of a stored title: its position in the rank order, when it
    has one. *)
Definition ordinal (RATED_RANKS : list cf.Rank) (t : option string) : option nat :=
  t ≫= Py.index (cf.rank_titles RATED_RANKS).

(** "Never decreases" on nullable values: an absent value is below every
    value, and a present value is never followed by an absent one. *)
Definition opt_le {A} (le : A → A → Prop) (a b : option A) : Prop :=
  match a, b with
  | None, _ => True
  | Some x, Some y => le x y
  | Some _, None => False
  end.

(** The stored rank is not below the tier of the stored rating. *)
Definition rank_covers (RATED_RANKS : list cf.Rank) (t : string) (m : Z) : Prop :=
  ∀ i j,
    Py.index (cf.rank_titles RATED_RANKS) t = Some i →
    Py.index (cf.rank_titles RATED_RANKS)
      (cf.tier_title (cf.rating2rank RATED_RANKS (Some m))) = Some j →
    (j ≤ i)%nat.

(** The invariant of the records in the ledger: the stored rating is not
    zero, or it comes with a rank that covers it. *)
Definition ledger_inv (RATED_RANKS : list cf.Rank) (R : Entry) : Prop :=
  match R with
  | (None, _) => True
  | (Some m, None) => m ≠ 0%Z
  | (Some m, Some t) => m ≠ 0%Z ∨ rank_covers RATED_RANKS t m
  end.

End Ledger.

(** ** Discord objects, collaborator calls and the effect monad *)
Module discord.

(** A guild role.  Two roles are the same role when they agree on both
    fields; within a guild the id determines the name. *)
Record Role := { role_id : nat; role_name : string }.

#[global] Instance Role_eq_dec : EqDecision Role.
Proof. solve_decision. Defined.

(** The static part of a guild: its id and its role directory. *)
Record Guild := { guild_id : nat; guild_roles : list Role }.

(** One line of an achievement message. *)
Inductive Line :=
| NewMaxRating (old_max : option Z) (new_rating : Z)
| NewRankAchieved (old_rank new_rank : string).

(** The congratulation written for one member. *)
Record Message := {
  msg_member : nat;
  msg_handle : string;
  msg_lines : list Line }.

(** An embed: the heading carrying the contest name, or a page of
    messages. *)
Inductive Embed :=
| Heading (contest_name : string)
| Page (messages : list Message).

(** The calls made to the collaborators, in the order they are issued.
    [TrustedCheck] records that [maybe_add_trusted_role] was entered. *)
Inductive Event :=
| TrustedCheck (uid : nat)
| FetchRating (handle : string)
| RemoveRoles (uid : nat) (roles : list Role) (reason : string)
| AddRoles (uid : nat) (roles : list Role) (reason : string)
| UpdateAchievement (uid gid : nat) (handle : string) (max_rating : Z) (rank : string)
| Send (channel : nat) (embed : Embed).

Inductive CogError :=
| HandlesNotSet
| RolesNotPresent (missing : list string).

(** The exceptions the modelled code raises or lets through. *)
Inductive Exn :=
| HandleCogError (why : CogError)
| HTTPException
| DataBaseError
| KeyError (key : string).

Inductive Res (A : Type) :=
| Ok (a : A)
| Raise (x : Exn).
Arguments Ok {A} a.
Arguments Raise {A} x.

(** The mutable state of a guild: the roles each member holds
    ([member.roles], absent for a user who is not in the guild) and the
    achievement table of the data base, keyed by [(user_id, guild_id)]. *)
Record World := {
  member_roles : gmap nat (list Role);
  ledger : gmap (nat * nat) (option Z * option string) }.

(** Everything the cog reads from outside: the constants and the rank
    table, which are not under [src/], the answers of the Codeforces API
    and of the data base, the paginator's [chunkify], and whether a call to
    a collaborator raises. *)
Record Env := {
  RATED_RANKS : list cf.Rank;
  TLE_PURGATORY : string;
  TLE_TRUSTED : string;
  user_info : string → cf.User;
  user_rating : string → cf.RatingResult;
  get_handle : nat → nat → option string;
  get_handles_for_guild : nat → list (nat * string);
  has_auto_role_update_enabled : nat → bool;
  rankup_channel : nat → option nat;
  chunkify : list Message → nat → list (list Message);
  fails : Event → bool }.

(** Computations over a state [S]: state passing, an exception or a
    value, and the calls issued.  A method of a member runs over the roles
    the member holds ([S := list Role]), a method of the cog over the
    [World]. *)
Definition M (S A : Type) : Type := S → Res A * S * list Event.

#[global] Instance M_ret {S} : MRet (M S) := λ A a s, (Ok a, s, []).

#[global] Instance M_bind {S} : MBind (M S) := λ A B f m s,
  match m s with
  | (Ok a, s1, t1) => let '(r, s2, t2) := f a s1 in (r, s2, t1 ++ t2)
  | (Raise x, s1, t1) => (Raise x, s1, t1)
  end.

Definition get_state {S} : M S S := λ s, (Ok s, s, []).

Definition raise {S A} (x : Exn) : M S A := λ s, (Raise x, s, []).

Definition emit {S} (ev : Event) : M S unit := λ s, (Ok tt, s, [ev]).

(** A call to a collaborator: it is issued, and either raises [x] and
    changes nothing or takes effect. *)
Definition call {S} (e : Env) (ev : Event) (x : Exn) (effect : S → S) : M S unit :=
  λ s, if fails e ev then (Raise x, s, [ev]) else (Ok tt, effect s, [ev]).

(** [try: m except <caught>: handler] *)
Definition try_except {S A} (m : M S A) (caught : Exn → bool) (handler : M S A)
    : M S A :=
  λ s,
    match m s with
    | (Raise x, s1, t1) =>
        if caught x
        then let '(r, s2, t2) := handler s1 in (r, s2, t1 ++ t2)
        else (Raise x, s1, t1)
    | done => done
    end.

Definition is_HandleCogError (x : Exn) : bool :=
  match x with
  | HandleCogError _ => true
  | _ => false
  end.

Definition is_HTTPException (x : Exn) : bool :=
  match x with
  | HTTPException => true
  | _ => false
  end.

(** [with contextlib.suppress(HandleCogError): m] *)
Definition suppress {S} (m : M S unit) : M S unit :=
  try_except m is_HandleCogError (mret tt).

(** [for x in l: body x] *)
Fixpoint for_each {S A} (l : list A) (body : A → M S unit) : M S unit :=
  match l with
  | [] => mret tt
  | x :: l' => body x ;; for_each l' body
  end.

(** [await member.remove_roles( *roles, reason=reason)] *)
Definition remove_roles (e : Env) (uid : nat) (roles : list Role) (reason : string)
    : M (list Role) unit :=
  call e (RemoveRoles uid roles reason) HTTPException
    (filter (λ r, r ∉ roles)).

(** [await member.add_roles( *roles, reason=reason)] *)
Definition add_roles (e : Env) (uid : nat) (roles : list Role) (reason : string)
    : M (list Role) unit :=
  call e (AddRoles uid roles reason) HTTPException
    (λ held, held ++ filter (λ r, r ∉ held) roles).

(** [discord.utils.get(roles, name=name)]: the first role of that name. *)
Definition get_by_name (roles : list Role) (name : string) : option Role :=
  List.find (λ r, String.eqb (role_name r) name) roles.

(** [member.roles] of the member [uid] of the guild. *)
Definition roles_of (w : World) (uid : nat) : list Role :=
  default [] (member_roles w !! uid).

Definition set_roles (uid : nat) (held : list Role) (w : World) : World :=
  {| member_roles := alter (λ _, held) uid (member_roles w); ledger := ledger w |}.

(** A method of the member [uid], run from the cog: it reads and updates
    that member's roles. *)
Definition on_member {A} (uid : nat) (m : M (list Role) A) : M World A :=
  λ w, let '(r, held, t) := m (roles_of w uid) in (r, set_roles uid held w, t).

(** Modelled from the spec: [cf_common.user_db.get_user_achievement] is
    not under [src/]; the store's "get(member, scope) ->
    AchievementRecord|null", read by the caller as the pair
    [(old_max, old_highest_rank)], both [None] without a record. *)
Definition get_user_achievement (w : World) (uid gid : nat) : option Z * option string :=
  default (None, None) (ledger w !! (uid, gid)).

(** Modelled from the spec: [cf_common.user_db.update_user_achievement]
    is not under [src/]; the store's "upsert(member, scope, record)". *)
Definition update_user_achievement (e : Env) (uid gid : nat) (handle : string)
    (max_rating : Z) (rank : string) : M World unit :=
  call e (UpdateAchievement uid gid handle max_rating rank) DataBaseError
    (λ w, {| member_roles := member_roles w;
             ledger := <[(uid, gid) := (Some max_rating, Some rank)]> (ledger w) |}).

(** [await channel.send(embed=embed)] *)
Definition send (e : Env) (channel : nat) (embed : Embed) : M World unit :=
  call e (Send channel embed) HTTPException (λ w, w).

(** The role mutations among the calls issued. *)
Definition is_role_mutation (ev : Event) : bool :=
  match ev with
  | RemoveRoles _ _ _ | AddRoles _ _ _ => true
  | _ => false
  end.

Definition is_trusted_check (ev : Event) : bool :=
  match ev with
  | TrustedCheck _ => true
  | _ => false
  end.

Definition is_send (ev : Event) : bool :=
  match ev with
  | Send _ _ => true
  | _ => false
  end.

End discord.

(** ** The [Handles] cog *)
Module Handles.
Import discord.

Definition _MAX_RATING_CHANGES_PER_EMBED : nat := 15.

(** [dt.datetime(2024, 9, 11, tzinfo=dt.timezone.utc).timestamp()] *)
Definition cutoff_timestamp : Z := 1726012800.

(** The rank names for which [update_member_rank_role] neither lifts the
    Purgatory role nor runs the trusted check. *)
Definition low_rank_names : list string :=
  ["Newbie"; "Pupil"; "Specialist"; "Expert"].

(** The condition on a rating history under which the Trusted role is
    granted. *)
Definition rated_1900_before_cutoff (rating_changes : list cf.RatingChange) : bool :=
  existsb
    (λ change,
       (1900 <=? cf.newRating change)%Z
       && (cf.ratingUpdateTimeSeconds change <? cutoff_timestamp)%Z)
    rating_changes.

(** The reason given when the Trusted role is added. *)
Definition trusted_reason : string := "Historical rating >= 1900 before Aug 2024".

(** [maybe_add_trusted_role(self, member)], a method over the roles of
    [member].  [if not handle] returns for a member without a handle and
    for one whose stored handle is the empty string. *)
Definition maybe_add_trusted_role (e : Env) (g : Guild) (uid : nat)
    : M (list Role) unit :=
  emit (TrustedCheck uid) ;;
  match get_handle e uid (guild_id g) with
  | None => mret tt
  | Some handle =>
      if bool_decide (handle = EmptyString) then mret tt
      else
      match get_by_name (guild_roles g) (TLE_TRUSTED e) with
      | None => mret tt
      | Some trusted_role =>
          held ← get_state;
          if bool_decide (trusted_role ∈ held) then mret tt
          else
            emit (FetchRating handle) ;;
            match user_rating e handle with
            | cf.NotFoundError => mret tt
            | cf.CodeforcesApiError => mret tt
            | cf.RatingChanges rating_changes =>
                if rated_1900_before_cutoff rating_changes
                then
                  try_except
                    (add_roles e uid [trusted_role] trusted_reason)
                    is_HTTPException (mret tt)
                else mret tt
            end
      end
  end.

(** Whether [update_member_rank_role] takes the branch that lifts
    Purgatory and runs the trusted check. *)
Definition above_expert (role_to_assign : option Role) : bool :=
  match role_to_assign with
  | Some role => negb (bool_decide (role_name role ∈ low_rank_names))
  | None => false
  end.

(** The set [role_names_to_remove] built by [update_member_rank_role]. *)
Definition role_names_to_remove (e : Env) (role_to_assign : option Role) : gset string :=
  let names : gset string := list_to_set (cf.rank_titles (RATED_RANKS e)) in
  match role_to_assign with
  | None => names
  | Some role =>
      let names := names ∖ {[role_name role]} in
      if above_expert role_to_assign then names ∪ {[TLE_PURGATORY e]} else names
  end.

(** The list [to_remove] computed from the roles the member holds. *)
Definition to_remove (e : Env) (role_to_assign : option Role) (held : list Role)
    : list Role :=
  filter (λ role, role_name role ∈ role_names_to_remove e role_to_assign) held.

(** The role [update_member_rank_role] adds, if any. *)
Definition to_add (role_to_assign : option Role) (held : list Role) : list Role :=
  match role_to_assign with
  | Some role => if bool_decide (role ∉ held) then [role] else []
  | None => []
  end.

(** [update_member_rank_role(self, member, role_to_assign, *, reason)]:
    the set of names is computed as in the source, the trusted check runs
    in the branch that adds Purgatory to it, then the roles held are
    filtered, removed, and the new role is added when it is not held. *)
Definition update_member_rank_role (e : Env) (g : Guild) (uid : nat)
    (role_to_assign : option Role) (reason : string) : M (list Role) unit :=
  (if above_expert role_to_assign then maybe_add_trusted_role e g uid else mret tt) ;;
  held ← get_state;
  let rs := to_remove e role_to_assign held in
  (if bool_decide (rs ≠ []) then remove_roles e uid rs reason else mret tt) ;;
  held ← get_state;
  match role_to_assign with
  | Some role =>
      if bool_decide (role ∉ held)
      then add_roles e uid [role] reason
      else mret tt
  | None => mret tt
  end.

(** The Trusted role the check would grant to a member who does not hold
    it: the handle is known and not empty, the guild has the role, the
    history is fetched and shows a rating of 1900 before the cutoff. *)
Definition grantable (e : Env) (g : Guild) (uid : nat) : option (string * Role) :=
  match get_handle e uid (guild_id g), get_by_name (guild_roles g) (TLE_TRUSTED e) with
  | Some handle, Some trusted_role =>
      if bool_decide (handle = EmptyString) then None
      else
      match user_rating e handle with
      | cf.RatingChanges rating_changes =>
          if rated_1900_before_cutoff rating_changes
          then Some (handle, trusted_role)
          else None
      | _ => None
      end
  | _, _ => None
  end.

(** The roles held and the calls issued once the first step of
    [update_member_rank_role] is done: the trusted check above Expert,
    nothing otherwise. *)
Definition checked (e : Env) (g : Guild) (uid : nat) (role_to_assign : option Role)
    (held : list Role) : list Role * list Event :=
  if above_expert role_to_assign
  then let out := maybe_add_trusted_role e g uid held in (out.1.2, out.2)
  else (held, []).

(** The roles left when [to_remove] is taken away. *)
Definition kept (e : Env) (role_to_assign : option Role) (held : list Role)
    : list Role :=
  filter (λ r, r ∉ to_remove e role_to_assign held) held.

(** [user.maxRating if user.maxRating else user.rating] *)
Definition resolved_rating (user : cf.User) : option Z :=
  if Py.truthy_opt (cf.maxRating user) then cf.maxRating user else cf.rating user.

(** The tier a user's role is derived from. *)
Definition resolved_tier (e : Env) (user : cf.User) : cf.Tier :=
  cf.rating2rank (RATED_RANKS e) (resolved_rating user).

(** The title a user contributes to [required_roles], if any. *)
Definition required_title (e : Env) (user : cf.User) : option string :=
  match resolved_rating user with
  | None => None
  | Some max_rating =>
      match cf.rating2rank (RATED_RANKS e) (Some max_rating) with
      | cf.UNRATED_RANK => None
      | cf.Rated rank => Some (cf.title rank)
      end
  end.

Definition required_roles (e : Env) (users : list cf.User) : gset string :=
  list_to_set (omap (required_title e) users).

(** [{role.name: role for role in guild.roles if role.name in
    required_roles}]: a later role of the same name replaces an earlier
    one. *)
Definition rank2role (g : Guild) (required : gset string) : gmap string Role :=
  list_to_map
    (reverse
       ((λ role, (role_name role, role))
          <$> filter (λ role, role_name role ∈ required) (guild_roles g))).

(** The role to assign in the loop of [_update_ranks];
    [rank2role[rank.title]] raises [KeyError] on a missing key. *)
Definition role_for (e : Env) (r2r : gmap string Role) (user : cf.User)
    : M World (option Role) :=
  match resolved_rating user with
  | None => mret None
  | Some max_rating =>
      match cf.rating2rank (RATED_RANKS e) (Some max_rating) with
      | cf.UNRATED_RANK => mret None
      | cf.Rated rank =>
          match r2r !! cf.title rank with
          | Some role => mret (Some role)
          | None => raise (KeyError (cf.title rank))
          end
      end
  end.

(** The members of the guild among [res], with their handles. *)
Definition member_handles_of (w : World) (res : list (nat * string))
    : list (nat * string) :=
  filter (λ p, is_Some (member_roles w !! p.1)) res.

(** [_update_ranks(self, guild, res)], for the runs in which
    [cf.user.info] answers, one user per handle and in order.  The call
    can also fail with a [CodeforcesApiError], which nothing here catches:
    that ending is not part of the model and is no [Exn].  The caching of
    the users ([cache_cf_user]) writes the user cache of the data base; it
    touches neither roles nor achievements and is left out, so a [World]
    and a trace say nothing about it. *)
Definition _update_ranks (e : Env) (g : Guild) (res : list (nat * string))
    : M World unit :=
  w ← get_state;
  let member_handles := member_handles_of w res in
  if bool_decide (member_handles = [])
  then raise (HandleCogError HandlesNotSet)
  else
    let members := member_handles.*1 in
    let handles := member_handles.*2 in
    let users := user_info e <$> handles in
    let required := required_roles e users in
    let r2r := rank2role g required in
    let missing_roles := required ∖ dom r2r in
    if bool_decide (missing_roles ≠ ∅)
    then raise (HandleCogError (RolesNotPresent (elements missing_roles)))
    else
      for_each (zip members users)
        (λ mu,
           role_to_assign ← role_for e r2r mu.2;
           on_member mu.1
             (update_member_rank_role e g mu.1 role_to_assign
                "Codeforces rank update")).

(** [_update_ranks_all(self, guild)] *)
Definition _update_ranks_all (e : Env) (g : Guild) : M World unit :=
  _update_ranks e g (get_handles_for_guild e (guild_id g)).

(** The role [_update_ranks] assigns to a user, read off the dictionary. *)
Definition assigned (e : Env) (r2r : gmap string Role) (user : cf.User) : option Role :=
  match resolved_tier e user with
  | cf.UNRATED_RANK => None
  | cf.Rated rank => r2r !! cf.title rank
  end.

(** One pass of the loop of [_update_ranks] on a member and the user
    linked to it. *)
Definition assign_body (e : Env) (g : Guild) (r2r : gmap string Role)
    (mu : nat * cf.User) : M World unit :=
  on_member mu.1
    (update_member_rank_role e g mu.1 (assigned e r2r mu.2) "Codeforces rank update").

(** The dictionary and the pairs [_update_ranks] works with in [w]. *)
Definition run_r2r (e : Env) (g : Guild) (w : World) (res : list (nat * string))
    : gmap string Role :=
  rank2role g (required_roles e (user_info e <$> (member_handles_of w res).*2)).

Definition run_pairs (e : Env) (w : World) (res : list (nat * string))
    : list (nat * cf.User) :=
  (λ p, (p.1, user_info e p.2)) <$> member_handles_of w res.



(** The dictionary appended to [achievements_by_member]. *)
Record AchievementInfo := {
  info_handle : string;
  info_new_rating : Z;
  info_old_max : option Z;
  info_new_rank : string;
  info_old_rank : string;
  info_is_new_max : bool;
  info_is_new_rank : bool }.

(** The pair [(member, {...})] appended for a member. *)
Definition achievement_entry (user_id : nat) (handle : string) (new_rating : Z)
    (new_rank : string) (v : Ledger.Verdict) : nat * AchievementInfo :=
  (user_id,
   {| info_handle := handle;
      info_new_rating := new_rating;
      info_old_max := Ledger.old_max_shown v;
      info_new_rank := new_rank;
      info_old_rank := Ledger.old_rank v;
      info_is_new_max := Ledger.is_new_max v;
      info_is_new_rank := Ledger.is_new_rank v |}).

(** The loop of [_check_and_update_achievements] over the pairs
    [(user_id, handle)], with the list built so far. *)
Fixpoint achievements_loop (e : Env) (g : Guild)
    (change_by_handle : gmap string cf.RatingChange)
    (pairs : list (nat * string))
    (achievements_by_member : list (nat * AchievementInfo))
    : M World (list (nat * AchievementInfo)) :=
  match pairs with
  | [] => mret achievements_by_member
  | (user_id, handle) :: rest =>
      w ← get_state;
      match member_roles w !! user_id, change_by_handle !! handle with
      | Some _, Some change =>
          let new_rating := cf.newRating change in
          let new_rank :=
            cf.tier_title (cf.rating2rank (RATED_RANKS e) (Some new_rating)) in
          let old := get_user_achievement w user_id (guild_id g) in
          let v :=
            Ledger.check_achievement (cf.rank_titles (RATED_RANKS e))
              old.1 old.2 new_rating new_rank in
          match Ledger.written v with
          | Some (current_max, current_highest_rank) =>
              update_user_achievement e user_id (guild_id g) handle
                current_max current_highest_rank ;;
              achievements_loop e g change_by_handle rest
                (if (1200 <=? new_rating)%Z
                 then achievements_by_member
                      ++ [achievement_entry user_id handle new_rating new_rank v]
                 else achievements_by_member)
          | None =>
              achievements_loop e g change_by_handle rest achievements_by_member
          end
      | _, _ => achievements_loop e g change_by_handle rest achievements_by_member
      end
  end.

(** [_check_and_update_achievements(guild, change_by_handle)] *)
Definition _check_and_update_achievements (e : Env) (g : Guild)
    (change_by_handle : gmap string cf.RatingChange)
    : M World (list (nat * AchievementInfo)) :=
  achievements_loop e g change_by_handle
    (get_handles_for_guild e (guild_id g)) [].

(** The message of one member, when it has a line. *)
Definition achievement_message (entry : nat * AchievementInfo) : option Message :=
  let info := entry.2 in
  let messages :=
    (if info_is_new_max info
     then [NewMaxRating (info_old_max info) (info_new_rating info)] else [])
    ++ (if info_is_new_rank info
        then [NewRankAchieved (info_old_rank info) (info_new_rank info)] else []) in
  if bool_decide (messages ≠ [])
  then Some {| msg_member := entry.1;
               msg_handle := info_handle info;
               msg_lines := messages |}
  else None.

(** [_make_achievement_embeds(guild, contest, achievements_by_member)] *)
Definition _make_achievement_embeds (e : Env) (contest_name : string)
    (achievements_by_member : list (nat * AchievementInfo)) : list Embed :=
  if bool_decide (achievements_by_member = [])
  then []
  else
    Heading contest_name
    :: (Page <$> chunkify e (omap achievement_message achievements_by_member)
                   _MAX_RATING_CHANGES_PER_EMBED).

(** [update_for_guild(guild)], the pipeline [_on_rating_changes] runs for
    each guild. *)
Definition update_for_guild (e : Env) (g : Guild) (contest_name : string)
    (change_by_handle : gmap string cf.RatingChange) : M World unit :=
  achievements ← _check_and_update_achievements e g change_by_handle;
  (if has_auto_role_update_enabled e (guild_id g)
   then suppress (_update_ranks_all e g)
   else mret tt) ;;
  match rankup_channel e (guild_id g) with
  | Some channel =>
      if bool_decide (achievements ≠ [])
      then
        suppress
          (for_each (_make_achievement_embeds e contest_name achievements)
             (send e channel))
      else mret tt
  | None => mret tt
  end.

(** The members a page congratulates. *)
Definition mentions (embed : Embed) : list nat :=
  match embed with
  | Heading _ => []
  | Page messages => msg_member <$> messages
  end.

(** The pages cut by [chunkify] hold messages of the list it is given. *)
Definition chunkify_sound (e : Env) : Prop :=
  ∀ l size page x, page ∈ chunkify e l size → x ∈ page → x ∈ l.

(** A write of the ledger that went through, for the member [uid]. *)
Definition persisted (e : Env) (g : Guild) (uid : nat) (ev : Event) : Prop :=
  ∃ h m ρ, ev = UpdateAchievement uid (guild_id g) h m ρ ∧ fails e ev = false.

End Handles.

(** ** A guild used for the concrete evaluations *)
Module Sample.
Import discord.

Definition newbie : Role := {| role_id := 1; role_name := "Newbie" |}.
Definition pupil : Role := {| role_id := 2; role_name := "Pupil" |}.
Definition specialist : Role := {| role_id := 3; role_name := "Specialist" |}.
Definition expert : Role := {| role_id := 4; role_name := "Expert" |}.
Definition candidate_master : Role := {| role_id := 5; role_name := "Candidate Master" |}.
Definition master : Role := {| role_id := 6; role_name := "Master" |}.
Definition purgatory : Role := {| role_id := 20; role_name := "Purgatory" |}.
Definition trusted : Role := {| role_id := 21; role_name := "Trusted" |}.

Definition guild : Guild :=
  {| guild_id := 7;
     guild_roles :=
       [newbie; pupil; specialist; expert; candidate_master; master;
        purgatory; trusted] |}.

(** The same guild without a role named Specialist. *)
Definition guild_without_specialist : Guild :=
  {| guild_id := 7;
     guild_roles :=
       [newbie; pupil; expert; candidate_master; master; purgatory; trusted] |}.

(** Three linked members: alice (best rating 1500), bob (1300) and carol
    (2150, rated 1950 in 2020). *)
Definition handles : list (nat * string) :=
  [(1%nat, "alice"); (2%nat, "bob"); (3%nat, "carol")].

Definition info (h : string) : cf.User :=
  if String.eqb h "alice"
  then {| cf.handle := h; cf.rating := Some 1450%Z; cf.maxRating := Some 1500%Z |}
  else if String.eqb h "bob"
  then {| cf.handle := h; cf.rating := Some 1300%Z; cf.maxRating := Some 1300%Z |}
  else if String.eqb h "carol"
  then {| cf.handle := h; cf.rating := Some 2100%Z; cf.maxRating := Some 2150%Z |}
  else {| cf.handle := h; cf.rating := None; cf.maxRating := None |}.

Definition history (h : string) : cf.RatingResult :=
  if String.eqb h "carol"
  then cf.RatingChanges
         [ {| cf.change_handle := h; cf.newRating := 1950;
              cf.ratingUpdateTimeSeconds := 1600000000 |} ]
  else cf.RatingChanges [].

(** [paginator.chunkify] as consecutive slices of the given size. *)
Fixpoint slices_upto {A} (fuel : nat) (l : list A) (size : nat) : list (list A) :=
  match fuel with
  | O => []
  | S fuel' =>
      match l with
      | [] => []
      | _ => take size l :: slices_upto fuel' (drop size l) size
      end
  end.

Definition slices {A} (l : list A) (size : nat) : list (list A) :=
  slices_upto (length l) l size.

Definition env : Env :=
  {| RATED_RANKS := cf.sample_ranks;
     TLE_PURGATORY := "Purgatory";
     TLE_TRUSTED := "Trusted";
     user_info := info;
     user_rating := history;
     get_handle := λ uid _, snd <$> List.find (λ p, Nat.eqb p.1 uid) handles;
     get_handles_for_guild := λ _, handles;
     has_auto_role_update_enabled := λ _, true;
     rankup_channel := λ _, Some 99%nat;
     chunkify := slices;
     fails := λ _, false |}.


(** alice and bob hold Newbie, carol holds Purgatory and Expert; the
    ledger is empty. *)
Definition world : World :=
  {| member_roles :=
       <[1%nat := [newbie]]> (<[2%nat := [newbie]]> (<[3%nat := [purgatory; expert]]> ∅));
     ledger := ∅ |}.

(** The rating changes of a contest: alice 1650, carol 2200. *)
Definition changes : gmap string cf.RatingChange :=
  <["alice" := {| cf.change_handle := "alice"; cf.newRating := 1650;
                  cf.ratingUpdateTimeSeconds := 1700000000 |}]>
    (<["carol" := {| cf.change_handle := "carol"; cf.newRating := 2200;
                     cf.ratingUpdateTimeSeconds := 1700000000 |}]> ∅).

End Sample.

(** ** More of Python's built-ins *)
Module Builtins.

(** [max(first, *rest)] on integers. *)
Definition max_of (first : Z) (rest : list Z) : Z :=
  foldl Z.max first rest.

(** [max([first, *rest], key=key)]: the first element whose key is the
    greatest; a later element replaces the best one only when its key is
    strictly greater. *)
Definition max_by_key {A} (key : A → Z) (first : A) (rest : list A) : A :=
  foldl (λ best x, if (key best <? key x)%Z then x else best) first rest.

(** [l.index(x)] on values compared with [==]; [None] stands for the
    [ValueError], and for [x not in l]. *)
Fixpoint index_of {A} `{EqDecision A} (l : list A) (x : A) : option nat :=
  match l with
  | [] => None
  | y :: l' => if decide (y = x) then Some 0%nat else S <$> index_of l' x
  end.

(** [c.lower()] on one character.  The letters A-Z are lowered; the
    bytes of a character outside ASCII stay as they are. *)
Definition lower_char (c : Ascii.ascii) : Ascii.ascii :=
  let n := Ascii.nat_of_ascii c in
  if (65 <=? n)%nat && (n <=? 90)%nat then Ascii.ascii_of_nat (n + 32) else c.

(** [s.lower()] *)
Fixpoint lower (s : string) : string :=
  match s with
  | EmptyString => EmptyString
  | String c s' => String (lower_char c) (lower s')
  end.

(** The same character, capitalised when it is one of the letters a-z. *)
Definition upper_char (c : Ascii.ascii) : Ascii.ascii :=
  let n := Ascii.nat_of_ascii c in
  if (97 <=? n)%nat && (n <=? 122)%nat then Ascii.ascii_of_nat (n - 32) else c.

(** The same string with its letters a-z capitalised. *)
Fixpoint upper (s : string) : string :=
  match s with
  | EmptyString => EmptyString
  | String c s' => String (upper_char c) (upper s')
  end.

(** Truthiness of an [Optional[str]]: [None] and the empty string are
    falsy. *)
Definition truthy_str (o : option string) : bool :=
  match o with
  | Some s => negb (String.eqb s "")
  | None => false
  end.

End Builtins.

(** ** [tle/__main__.py] *)
Module Main.

(** [strtobool(value)]; [None] stands for the [ValueError]. *)
Definition strtobool (value : string) : option bool :=
  let value := Builtins.lower value in
  if bool_decide (value ∈ ["y"; "yes"; "t"; "true"; "on"; "1"]) then Some true
  else if bool_decide (value ∈ ["n"; "no"; "f"; "false"; "off"; "0"]) then Some false
  else None.

End Main.

(** ** The listings of [handles.py]: colours, pages and the pretty window *)
Module Display.
Import discord.

(** What [rating_to_color] is called with: [None], the string ['N/A'] or
    a rating. *)
Inductive RatingArg :=
| NoRating
| NotAvailable
| Rating (r : Z).

Definition Color : Type := Z * Z * Z.

Definition BLACK : Color := (10, 10, 10)%Z.
Definition RED : Color := (255, 20, 20)%Z.
Definition BLUE : Color := (0, 0, 200)%Z.
Definition GREEN : Color := (0, 140, 0)%Z.
Definition ORANGE : Color := (250, 140, 30)%Z.
Definition PURPLE : Color := (160, 0, 120)%Z.
Definition CYAN : Color := (0, 165, 170)%Z.
Definition GREY : Color := (70, 70, 70)%Z.

(** [rating_to_color(rating)] *)
Definition rating_to_color (rating : RatingArg) : Color :=
  match rating with
  | NoRating | NotAvailable => BLACK
  | Rating r =>
      if (r <? 1200)%Z then GREY
      else if (r <? 1400)%Z then GREEN
      else if (r <? 1600)%Z then CYAN
      else if (r <? 1900)%Z then BLUE
      else if (r <? 2100)%Z then PURPLE
      else if (r <? 2400)%Z then ORANGE
      else RED
  end.

Definition _HANDLES_PER_PAGE : nat := 15.
Definition _NAME_MAX_LEN : nat := 20.
Definition _PRETTY_HANDLES_PER_PAGE : nat := 10.

(** A display name is the list of its code points; this one is the
    horizontal ellipsis. *)
Definition ELLIPSIS : Z := 8230.

(** The name written in a row of [_make_pages]. *)
Definition shown_name (name : list Z) : list Z :=
  if bool_decide (_NAME_MAX_LEN < length name)%nat
  then take (_NAME_MAX_LEN - 1) name ++ [ELLIPSIS]
  else name.

(** A [table.Data] row of [_make_pages]: the number, the name, the handle
    and the two parts of the last column, the rating ([None] is written
    N/A) and the rank whose abbreviation follows it. *)
Record Data := {
  data_index : nat;
  data_name : list Z;
  data_handle : string;
  data_rating : option Z;
  data_rank : cf.Tier }.

(** The rows of one chunk, [done] rows having been written before. *)
Definition page_rows (RATED_RANKS : list cf.Rank) (done : nat)
    (chunk : list (list Z * string * option Z)) : list Data :=
  imap
    (λ i user,
       {| data_index := i + done;
          data_name := shown_name user.1.1;
          data_handle := user.1.2;
          data_rating := user.2;
          data_rank := cf.rating2rank RATED_RANKS user.2 |})
    chunk.

(** The loop of [_make_pages] over the chunks. *)
Fixpoint pages_loop (RATED_RANKS : list cf.Rank)
    (chunks : list (list (list Z * string * option Z))) (done : nat)
    : list (list Data) :=
  match chunks with
  | [] => []
  | chunk :: chunks' =>
      page_rows RATED_RANKS done chunk
      :: pages_loop RATED_RANKS chunks' (done + length chunk)
  end.

(** [_make_pages(users, title)]: a user is the triple of the member's
    display name, the handle and the rating; [paginator.chunkify] is not
    under [src/] and is a parameter.  A page is the title and the rows of
    its table. *)
Definition _make_pages (RATED_RANKS : list cf.Rank)
    (chunkify : list (list Z * string * option Z) → nat
                → list (list (list Z * string * option Z)))
    (users : list (list Z * string * option Z)) (title : string)
    : list (string * list Data) :=
  (λ rows, (title, rows))
    <$> pages_loop RATED_RANKS (chunkify users _HANDLES_PER_PAGE) 0.

(** A row of [pretty]: [(idx, member.display_name, cf_user.handle,
    cf_user.rating)]. *)
Record PrettyRow := {
  pretty_idx : nat;
  pretty_name : list Z;
  pretty_handle : string;
  pretty_rating : option Z }.

(** The loop of [pretty] that builds [rows] and finds [author_idx], over
    the sorted pairs [(user_id, cf_user)]: a user who is not in the guild is
    skipped. *)
Definition pretty_rows (w : World) (display_name : nat → list Z) (author : nat)
    (user_id_cf_user_pairs : list (nat * cf.User))
    : list PrettyRow * option nat :=
  foldl
    (λ acc p,
       match member_roles w !! p.1 with
       | None => acc
       | Some _ =>
           let idx := length acc.1 in
           (acc.1 ++ [ {| pretty_idx := idx;
                          pretty_name := display_name p.1;
                          pretty_handle := cf.handle p.2;
                          pretty_rating := cf.rating p.2 |} ],
            if Nat.eqb p.1 author then Some idx else acc.2)
       end)
    ([], None) user_id_cf_user_pairs.

(** The message sent with the picture. *)
Inductive PrettyMsg :=
| PageOutOfRange (max_page shown : Z)
| Neighbourhood.

(** The two errors of the end of [pretty]. *)
Inductive PrettyError :=
| NoMembers
| NeedPageNumber (max_page : Z).

(** [math.ceil(n / _PRETTY_HANDLES_PER_PAGE) - 1], computed on integers. *)
Definition max_page_of (n : nat) : Z :=
  ((Z.of_nat n + Z.of_nat _PRETTY_HANDLES_PER_PAGE - 1)
     / Z.of_nat _PRETTY_HANDLES_PER_PAGE - 1)%Z.

(** [rows[start_idx : start_idx + _PRETTY_HANDLES_PER_PAGE]] for a
    [start_idx] that is not negative. *)
Definition window {A} (rows : list A) (start_idx : Z) : list A :=
  take _PRETTY_HANDLES_PER_PAGE (drop (Z.to_nat start_idx) rows).

(** The end of [pretty], from [if not rows] on: the message and the rows
    handed to [get_prettyhandles_image], or the [HandleCogError]. *)
Definition pretty_window {A} (rows : list A) (author_idx : option nat)
    (page_no : option Z) : PrettyError + (option PrettyMsg * list A) :=
  match rows with
  | [] => inl NoMembers
  | _ =>
      let max_page := max_page_of (length rows) in
      match author_idx, page_no with
      | None, None => inl (NeedPageNumber max_page)
      | _, Some page_no =>
          let '(msg, page_no) :=
            if (page_no <? 0)%Z || (max_page <? page_no)%Z
            then
              if (page_no <? 0)%Z
              then (Some (PageOutOfRange max_page 0), 0%Z)
              else (Some (PageOutOfRange max_page max_page), max_page)
            else (None, page_no) in
          inr (msg, window rows (page_no * Z.of_nat _PRETTY_HANDLES_PER_PAGE))
      | Some author_idx, None =>
          let num_before := ((Z.of_nat _PRETTY_HANDLES_PER_PAGE - 1) / 2)%Z in
          inr (Some Neighbourhood,
               window rows (Z.max 0 (Z.of_nat author_idx - num_before)))
      end
  end.

End Display.

(** ** Linking a handle and syncing the achievements *)
Module Linking.
Import discord Handles.

#[global] Instance Rank_eq_dec : EqDecision cf.Rank.
Proof. solve_decision. Defined.

(** The key of [max(ranks_achieved, key=...)]:
    [rank_order.index(r) if r in rank_order else -1]. *)
Definition rank_key (rank_order : list cf.Rank) (r : cf.Tier) : Z :=
  match r with
  | cf.UNRATED_RANK => -1
  | cf.Rated k =>
      match Builtins.index_of rank_order k with
      | Some i => Z.of_nat i
      | None => -1
      end
  end.

(** The greatest rating and the highest rank of a rating history that is
    not empty, as [_set] and [sync_achievements] compute them. *)
Definition history_record (RATED_RANKS : list cf.Rank)
    (first : cf.RatingChange) (rest : list cf.RatingChange) : Z * cf.Tier :=
  let max_rating := Builtins.max_of (cf.newRating first) (cf.newRating <$> rest) in
  let rank_of change := cf.rating2rank RATED_RANKS (Some (cf.newRating change)) in
  let rank_order := RATED_RANKS in
  let highest_rank :=
    Builtins.max_by_key (rank_key rank_order) (rank_of first) (rank_of <$> rest) in
  (max_rating, highest_rank).

(** What [_set] falls back to without a history: the user's own figures.
    [user.rank] is not under [src/] and is a parameter. *)
Definition current_record (user_rank : cf.User → cf.Tier) (user : cf.User)
    : Z * option string :=
  (Py.or_int (cf.maxRating user) (Py.or_int (cf.rating user) 0),
   match user_rank user with
   | cf.UNRATED_RANK => None
   | cf.Rated k => Some (cf.title k)
   end).

(** The pair [(max_rating_from_history, highest_rank_title)] of [_set]. *)
Definition set_record (e : Env) (user_rank : cf.User → cf.Tier) (user : cf.User)
    : Z * option string :=
  match user_rating e (cf.handle user) with
  | cf.RatingChanges (first :: rest) =>
      let record := history_record (RATED_RANKS e) first rest in
      (record.1, Some (cf.tier_title record.2))
  | cf.RatingChanges [] => current_record user_rank user
  | cf.NotFoundError | cf.CodeforcesApiError => current_record user_rank user
  end.

(** [[role for role in guild.roles if role.name == name]] *)
Definition roles_named (g : Guild) (name : string) : list Role :=
  filter (λ role, role_name role = name) (guild_roles g).

(** The role [_set] assigns; a rank without a role in the guild raises. *)
Definition set_role (e : Env) (g : Guild) (user : cf.User) : M World (option Role) :=
  match resolved_rating user with
  | None => mret None
  | Some max_rating =>
      match cf.rating2rank (RATED_RANKS e) (Some max_rating) with
      | cf.UNRATED_RANK => mret None
      | cf.Rated rank_based_on_max =>
          match roles_named g (cf.title rank_based_on_max) with
          | [] => raise (HandleCogError (RolesNotPresent [cf.title rank_based_on_max]))
          | role :: _ => mret (Some role)
          end
      end
  end.

(** [_set(self, ctx, member, user)] from line 540 on, that is once
    [set_handle] has stored the link.  [cache_cf_user] touches neither
    roles nor achievements and is left out. *)
Definition _set (e : Env) (g : Guild) (user_rank : cf.User → cf.Tier)
    (uid : nat) (user : cf.User) : M World unit :=
  let handle := cf.handle user in
  emit (FetchRating handle) ;;
  let record := set_record e user_rank user in
  (if Py.truthy record.1 && Builtins.truthy_str record.2
   then update_user_achievement e uid (guild_id g) handle
          record.1 (default "" record.2)
   else mret tt) ;;
  role_to_assign ← set_role e g user;
  on_member uid
    (update_member_rank_role e g uid role_to_assign "New handle set for user").

(** The counters of [sync_achievements]. *)
Record SyncCounts := {
  synced : nat;
  failed : nat;
  skipped : nat;
  roles_updated : nat }.

Definition count_synced (c : SyncCounts) : SyncCounts :=
  {| synced := S (synced c); failed := failed c; skipped := skipped c;
     roles_updated := roles_updated c |}.

Definition count_failed (c : SyncCounts) : SyncCounts :=
  {| synced := synced c; failed := S (failed c); skipped := skipped c;
     roles_updated := roles_updated c |}.

Definition count_skipped (c : SyncCounts) : SyncCounts :=
  {| synced := synced c; failed := failed c; skipped := S (skipped c);
     roles_updated := roles_updated c |}.

Definition count_roles_updated (c : SyncCounts) : SyncCounts :=
  {| synced := synced c; failed := failed c; skipped := skipped c;
     roles_updated := S (roles_updated c) |}.

(** The first half of the [try] block of [sync_achievements], once the
    history is fetched: the write to the ledger. *)
Definition sync_record (e : Env) (g : Guild) (c : SyncCounts) (user_id : nat)
    (handle : string) (user : cf.User) (rating_changes : list cf.RatingChange)
    : M World SyncCounts :=
  match rating_changes with
  | first :: rest =>
      let record := history_record (RATED_RANKS e) first rest in
      update_user_achievement e user_id (guild_id g) handle
        record.1 (cf.tier_title record.2) ;;
      mret (count_synced c)
  | [] =>
      match cf.maxRating user with
      | Some max_rating =>
          if Py.truthy max_rating && (0 <? max_rating)%Z
          then
            match cf.rating2rank (RATED_RANKS e) (Some max_rating) with
            | cf.Rated rank =>
                update_user_achievement e user_id (guild_id g) handle
                  max_rating (cf.title rank) ;;
                mret (count_synced c)
            | cf.UNRATED_RANK => mret (count_skipped c)
            end
          else mret (count_skipped c)
      | None => mret (count_skipped c)
      end
  end.

(** The role [sync_achievements] assigns: the first role named after the
    rank of the user's best rating, [None] when there is no such rank or no
    such role. *)
Definition sync_role (e : Env) (g : Guild) (user : cf.User) : option Role :=
  match resolved_rating user with
  | None => None
  | Some max_rating =>
      match cf.rating2rank (RATED_RANKS e) (Some max_rating) with
      | cf.UNRATED_RANK => None
      | cf.Rated rank => head (roles_named g (cf.title rank))
      end
  end.

(** [any(role.name in [r.title for r in cf.RATED_RANKS] for role in
    guild_member.roles)] *)
Definition holds_rank_role (e : Env) (held : list Role) : bool :=
  existsb (λ role, bool_decide (role_name role ∈ cf.rank_titles (RATED_RANKS e))) held.

(** One pass of the loop of [sync_achievements], the [try] block and its
    handler, for the pair [(user_id, handle)].  [cf.user.info] is taken to
    answer the user of the handle; a history that cannot be fetched is the
    failure the handler counts. *)
Definition sync_one (e : Env) (g : Guild) (c : SyncCounts) (p : nat * string)
    : M World SyncCounts :=
  let user_id := p.1 in
  let handle := p.2 in
  let user := user_info e handle in
  emit (FetchRating handle) ;;
  match user_rating e handle with
  | cf.NotFoundError | cf.CodeforcesApiError => mret (count_failed c)
  | cf.RatingChanges rating_changes =>
      c ← sync_record e g c user_id handle user rating_changes;
      w ← get_state;
      match member_roles w !! user_id with
      | None => mret c
      | Some held =>
          let role_to_assign := sync_role e g user in
          if bool_decide (role_to_assign ≠ None) || holds_rank_role e held
          then
            on_member user_id
              (update_member_rank_role e g user_id role_to_assign "Achievement sync") ;;
            mret (count_roles_updated c)
          else mret c
      end
  end.

(** The loop of [sync_achievements] over the pairs.  The edits of the
    status message, which touch neither roles nor achievements, are left
    out. *)
Fixpoint sync_loop (e : Env) (g : Guild) (pairs : list (nat * string))
    (c : SyncCounts) : M World SyncCounts :=
  match pairs with
  | [] => mret c
  | p :: rest => c ← sync_one e g c p; sync_loop e g rest c
  end.

End Linking.

(** ** Reading the calls of a run *)
Module Calls.
Import discord.

(** The member a call is about: the member whose roles are changed or
    checked, or whose record is written. *)
Definition member_of (ev : Event) : option nat :=
  match ev with
  | TrustedCheck uid | RemoveRoles uid _ _ | AddRoles uid _ _
  | UpdateAchievement uid _ _ _ _ => Some uid
  | FetchRating _ | Send _ _ => None
  end.

Definition is_ledger_write (ev : Event) : bool :=
  match ev with
  | UpdateAchievement _ _ _ _ _ => true
  | _ => false
  end.

(** The value a run returned, [d] when it raised. *)
Definition returned {A} (d : A) (r : Res A) : A :=
  match r with
  | Ok a => a
  | Raise _ => d
  end.

End Calls.

(** * Part II: properties *)

(** ** Facts about [index] and the resolver *)

Lemma index_Some_lookup l x i : Py.index l x = Some i → l !! i = Some x.
Proof.
  revert i; induction l as [|y l IH]; intros i; simpl; [done|].
  destruct (String.eqb_spec y x) as [->|Hne].
  - by intros [= <-].
  - destruct (Py.index l x) as [j|]; simpl; [|done].
    intros [= <-]. by apply IH.
Qed.

Lemma index_Some_elem l x i : Py.index l x = Some i → x ∈ l.
Proof. intros H. eapply list_elem_of_lookup_2, index_Some_lookup, H. Qed.

Lemma index_NoDup_lookup l x i :
  NoDup l → l !! i = Some x → Py.index l x = Some i.
Proof.
  intros Hnd; revert i; induction Hnd as [|y l Hy Hnd IH]; intros i; [done|].
  destruct i as [|i]; simpl.
  - intros [= ->]. by rewrite String.eqb_refl.
  - intros Hl. destruct (String.eqb_spec y x) as [->|Hne].
    + exfalso; apply Hy. by eapply list_elem_of_lookup_2.
    + by rewrite (IH _ Hl).
Qed.

(** [scan] keeps [best] when no bound is met, and otherwise returns the
    last rank of the table whose bound is met. *)
Lemma scan_spec rs best r :
  (cf.scan rs best r = best ∧ ∀ k, k ∈ rs → ¬ (cf.low k ≤ r)%Z)
  ∨ ∃ i k, rs !! i = Some k ∧ (cf.low k ≤ r)%Z ∧ cf.scan rs best r = cf.Rated k
           ∧ ∀ i' k', (i < i')%nat → rs !! i' = Some k' → ¬ (cf.low k' ≤ r)%Z.
Proof.
  revert best; induction rs as [|k rs IH]; intros best; simpl.
  - left; split; [done|]. intros k Hk. by apply elem_of_nil in Hk.
  - destruct (IH (if (cf.low k <=? r)%Z then cf.Rated k else best))
      as [[Heq Hall]|(i & k' & Hi & Hlow & Heq & Hmax)].
    + destruct (Z.leb_spec (cf.low k) r) as [Hle|Hgt].
      * right. exists 0%nat, k. repeat split; [done..|].
        intros [|i'] k' Hlt Hl; [lia|]. simpl in Hl.
        apply Hall. by eapply list_elem_of_lookup_2.
      * left. split; [done|]. intros k' [->|Hk']%elem_of_cons; [lia|by apply Hall].
    + right. exists (S i), k'. repeat split; [done..|].
      intros [|i'] k'' Hlt Hl; [lia|]. simpl in Hl. eapply Hmax; [|done]. lia.
Qed.

(** A rated answer of the resolver is a rank of the table. *)
Lemma rating2rank_Rated ranks r k :
  cf.rating2rank ranks r = cf.Rated k → k ∈ ranks.
Proof.
  destruct r as [r|]; simpl; [|done].
  destruct (scan_spec ranks cf.UNRATED_RANK r)
    as [[Heq _]|(i & k' & Hi & _ & Heq & _)]; rewrite Heq; [done|].
  intros [= <-]. by eapply list_elem_of_lookup_2.
Qed.

(** On a well-formed table the ordinal of the resolved tier grows with
    the rating. *)
Lemma rating2rank_mono ranks r1 r2 j1 :
  cf.table_wf ranks → (r1 ≤ r2)%Z →
  Py.index (cf.rank_titles ranks)
    (cf.tier_title (cf.rating2rank ranks (Some r1))) = Some j1 →
  ∃ j2, Py.index (cf.rank_titles ranks)
          (cf.tier_title (cf.rating2rank ranks (Some r2))) = Some j2
        ∧ (j1 ≤ j2)%nat.
Proof.
  intros [Hnd Hun] Hle. simpl.
  destruct (scan_spec ranks cf.UNRATED_RANK r1)
    as [[Heq1 _]|(i1 & k1 & Hi1 & Hlow1 & Heq1 & _)]; rewrite Heq1; simpl.
  { intros H%index_Some_elem. done. }
  assert (Hidx : ∀ i k, ranks !! i = Some k →
            Py.index (cf.rank_titles ranks) (cf.title k) = Some i).
  { intros i k Hk. apply index_NoDup_lookup; [done|].
    unfold cf.rank_titles. by rewrite list_lookup_fmap, Hk. }
  rewrite (Hidx _ _ Hi1). intros [= <-].
  destruct (scan_spec ranks cf.UNRATED_RANK r2)
    as [[_ Hall]|(i2 & k2 & Hi2 & Hlow2 & Heq2 & Hmax)].
  { exfalso. apply (Hall k1); [by eapply list_elem_of_lookup_2 | lia]. }
  rewrite Heq2; simpl. rewrite (Hidx _ _ Hi2). eexists; split; [done|].
  destruct (decide (i1 ≤ i2)%nat) as [|Hgt]; [done|].
  exfalso. apply (Hmax i1 k1); [lia | done | lia].
Qed.

(** ** The ledger update rule *)



(** Case analysis on the branches of the rule. *)
Ltac ledger_unfold :=
  unfold Ledger.observe, Ledger.apply, Ledger.check_achievement,
    Ledger.rank_covers, Ledger.ledger_inv, Ledger.ordinal, Ledger.opt_le,
    Py.or_int, Py.truthy in *;
  simpl in *.

Ltac ledger_split :=
  repeat (case_match; simplify_eq/=);
  repeat case_bool_decide; simplify_eq/=;
  rewrite ?orb_true_iff, ?orb_false_iff, ?negb_true_iff, ?negb_false_iff,
    ?Z.ltb_lt, ?Z.ltb_ge, ?Z.eqb_eq, ?Z.eqb_neq in *.

Section LedgerMonotone.
Variable ranks : list cf.Rank.
Hypothesis ranks_wf : cf.table_wf ranks.

Lemma observe_covers (R : Ledger.Entry) r t :
  (Ledger.observe ranks R r).2 = Some t → Ledger.rank_covers ranks t r.
Proof.
  destruct R as [om oold]. ledger_unfold. intros H i j Hi Hj.
  ledger_split; try done; try lia; try congruence.
Qed.

Lemma observe_rank_mono (R : Ledger.Entry) r :
  Ledger.opt_le le (Ledger.ordinal ranks R.2)
    (Ledger.ordinal ranks (Ledger.observe ranks R r).2).
Proof.
  destruct R as [om oold]. ledger_unfold.
  ledger_split; try done; try lia; try congruence.
Qed.

Lemma observe_max_mono (R : Ledger.Entry) r :
  Ledger.ledger_inv ranks R →
  Ledger.opt_le Z.le R.1 (Ledger.observe ranks R r).1.
Proof.
  destruct R as [om oold]. intros Hinv.
  pose proof (rating2rank_mono ranks r 0) as Hmono.
  ledger_unfold.
  ledger_split; try done; try lia; try congruence.
  subst. destruct Hinv as [|Hc]; [done|].
  destruct (Hmono _ ranks_wf ltac:(done) eq_refl) as (j2 & Hj2 & Hle).
  specialize (Hc _ _ ltac:(eassumption) Hj2). lia.
Qed.

(** What an observation leaves in the ledger: the old record, or a record
    holding the observed rating, or one holding a non-zero rating. *)
Lemma observe_result (R : Ledger.Entry) r :
  Ledger.observe ranks R r = R
  ∨ (∃ t, Ledger.observe ranks R r = (Some r, Some t))
  ∨ (∃ m t, Ledger.observe ranks R r = (Some m, Some t) ∧ m ≠ 0%Z).
Proof.
  destruct R as [om oold]. ledger_unfold.
  ledger_split;
    try (destruct (Z.max_spec r z) as [[? ->]|[? ->]]);
    first [ by left
          | by right; left; eexists
          | right; right; eexists _, _; split; [reflexivity | lia] ].
Qed.

Lemma observe_inv (R : Ledger.Entry) r :
  Ledger.ledger_inv ranks R → Ledger.ledger_inv ranks (Ledger.observe ranks R r).
Proof.
  intros Hinv. pose proof (observe_covers R r) as Hcov.
  destruct (observe_result R r) as [->|[[t Heq]|(m & t & Heq & Hm)]]; [done| |].
  - rewrite Heq in *. right. by apply Hcov.
  - rewrite Heq. by left.
Qed.

Lemma observe_all_inv (R : Ledger.Entry) rs :
  Ledger.ledger_inv ranks R → Ledger.ledger_inv ranks (Ledger.observe_all ranks R rs).
Proof.
  revert R; induction rs as [|r rs IH]; intros R Hinv; simpl; [done|].
  by apply IH, observe_inv.
Qed.

(** After observing [r1], a rating [r2 <= r1] is neither a new maximum
    nor a new rank, so the record stays as it is. *)
Lemma observe_lower_again (R : Ledger.Entry) r1 r2 :
  (r2 ≤ r1)%Z →
  Ledger.observe ranks (Ledger.observe ranks R r1) r2 = Ledger.observe ranks R r1.
Proof.
  intros Hle.
  pose proof (observe_covers R r1) as Hcov.
  pose proof (rating2rank_mono ranks r2 r1) as Hmono.
  assert (Hmax : ∃ m, (Ledger.observe ranks R r1).1 = Some m ∧ (r1 ≤ m)%Z).
  { destruct R as [om oold]. ledger_unfold.
    ledger_split; eexists; (split; [reflexivity|]); lia. }
  assert (Hrank : is_Some (Ledger.observe ranks R r1).2).
  { destruct R as [om oold]. clear Hcov Hmax. ledger_unfold.
    ledger_split; try (by eexists); intuition congruence. }
  destruct (Ledger.observe ranks R r1) as [om' ot'].
  destruct Hmax as (m & Heq & Hm), Hrank as [t Ht]. simpl in Heq, Ht. subst om' ot'.
  specialize (Hcov t eq_refl).
  ledger_unfold. ledger_split; try done; try lia.
  all: exfalso; destruct (Hmono _ ranks_wf Hle eq_refl) as (j2 & Hj2 & Hj);
    specialize (Hcov _ _ eq_refl Hj2); lia.
Qed.

Lemma opt_le_trans {A} (le : A → A → Prop) (a b c : option A) :
  (∀ x y z, le x y → le y z → le x z) →
  Ledger.opt_le le a b → Ledger.opt_le le b c → Ledger.opt_le le a c.
Proof. intros Htr. destruct a, b, c; simpl; eauto; done. Qed.

Lemma observe_all_mono (R : Ledger.Entry) rs :
  Ledger.ledger_inv ranks R →
  Ledger.opt_le Z.le R.1 (Ledger.observe_all ranks R rs).1
  ∧ Ledger.opt_le le (Ledger.ordinal ranks R.2)
      (Ledger.ordinal ranks (Ledger.observe_all ranks R rs).2).
Proof.
  revert R; induction rs as [|r rs IH]; intros R Hinv; simpl.
  - split; [destruct R.1 | destruct (Ledger.ordinal ranks R.2)]; simpl; lia.
  - destruct (IH _ (observe_inv R r Hinv)) as [H1 H2]. split.
    + eapply opt_le_trans; [apply Z.le_trans | by apply observe_max_mono | done].
    + eapply opt_le_trans; [apply Nat.le_trans | apply observe_rank_mono | done].
Qed.

End LedgerMonotone.

Lemma sample_ranks_wf : cf.table_wf cf.sample_ranks.
Proof. split; apply (bool_decide_unpack _); vm_compute; reflexivity. Qed.

(** C3.  Along any sequence of observations applied to a record of the
    ledger, in any order and with repetitions, the stored maximum and the
    ordinal of the stored rank at a later point are never below their
    values at an earlier point; and for every record [R0] whatsoever,
    observing [r2 <= r1] after [r1] leaves the stored maximum as it was
    after [r1] alone. *)
Theorem ledger_monotone (ranks : list cf.Rank) (R : Ledger.Entry)
    (earlier later : list Z) :
  cf.table_wf ranks →
  Ledger.ledger_inv ranks R →
  let R1 := Ledger.observe_all ranks R earlier in
  let R2 := Ledger.observe_all ranks R (earlier ++ later) in
  Ledger.opt_le Z.le R1.1 R2.1
  ∧ Ledger.opt_le le (Ledger.ordinal ranks R1.2) (Ledger.ordinal ranks R2.2)
  ∧ ∀ (R0 : Ledger.Entry) r1 r2,
      (r2 ≤ r1)%Z →
      (Ledger.observe ranks (Ledger.observe ranks R0 r1) r2).1
      = (Ledger.observe ranks R0 r1).1.
Proof.
  intros Hwf Hinv R1 R2.
  assert (HR2 : R2 = Ledger.observe_all ranks R1 later).
  { unfold R2, R1, Ledger.observe_all. apply foldl_app. }
  rewrite HR2.
  destruct (observe_all_mono ranks Hwf R1 later) as [H1 H2].
  { by apply observe_all_inv. }
  repeat split; [done..|].
  intros R0 r1 r2 Hle. by rewrite observe_lower_again.
Qed.

(** C3 on the sample table: the record (1400, Pupil) and the
    observations 1650, 1500 and then 1300, 1700. *)
Lemma ledger_monotone_witness :
  let R1 := Ledger.observe_all cf.sample_ranks (Some 1400%Z, Some "Pupil") [1650; 1500]%Z in
  let R2 := Ledger.observe_all cf.sample_ranks (Some 1400%Z, Some "Pupil")
              ([1650; 1500] ++ [1300; 1700])%Z in
  Ledger.opt_le Z.le R1.1 R2.1
  ∧ Ledger.opt_le le (Ledger.ordinal cf.sample_ranks R1.2)
      (Ledger.ordinal cf.sample_ranks R2.2)
  ∧ ∀ (R0 : Ledger.Entry) r1 r2,
      (r2 ≤ r1)%Z →
      (Ledger.observe cf.sample_ranks (Ledger.observe cf.sample_ranks R0 r1) r2).1
      = (Ledger.observe cf.sample_ranks R0 r1).1.
Proof.
  apply (ledger_monotone cf.sample_ranks (Some 1400%Z, Some "Pupil")
           [1650; 1500]%Z [1300; 1700]%Z).
  - exact sample_ranks_wf.
  - left. lia.
Defined.

(** The invariant is what keeps a stored maximum of [0] from being
    overwritten: on a record that holds [0] without a rank, which no
    writer of the ledger produces, the test [if old_max] reads the zero
    as absent. *)
Remark zero_max_without_rank :
  Ledger.observe cf.sample_ranks (Some 0%Z, None) (-5)
  = (Some (-5)%Z, Some "Newbie").
Proof. reflexivity. Qed.

(** Every record written by the rule satisfies the invariant, whatever
    record it replaces. *)
Lemma written_record_inv (ranks : list cf.Rank) (R : Ledger.Entry) r :
  Ledger.observe ranks R r ≠ R → Ledger.ledger_inv ranks (Ledger.observe ranks R r).
Proof.
  intros Hne. pose proof (observe_covers ranks R r) as Hcov.
  destruct (observe_result ranks R r) as [?|[[t Heq]|(m & t & Heq & Hm)]]; [done| |].
  - rewrite Heq in *. right. by apply Hcov.
  - rewrite Heq. by left.
Qed.

(** ** One member: the trusted check and the rank role *)

Import discord Handles.

(** Unfolding of the monad's operations. *)
Ltac unfold_M :=
  unfold suppress, add_roles, remove_roles, update_user_achievement, send in *;
  unfold mbind, M_bind, mret, M_ret, emit, get_state, raise, call, try_except in *.

Lemma get_by_name_Some roles name r :
  get_by_name roles name = Some r → r ∈ roles ∧ role_name r = name.
Proof.
  unfold get_by_name. intros H. apply find_some in H as [Hin Heq].
  split; [by apply list_elem_of_In | by apply String.eqb_eq].
Qed.

Lemma grantable_name e g uid h tr :
  grantable e g uid = Some (h, tr) → role_name tr = TLE_TRUSTED e.
Proof.
  unfold grantable. intros H. repeat case_match; simplify_eq.
  by eapply get_by_name_Some.
Qed.

Lemma trusted_no_grant e g uid held :
  grantable e g uid = None →
  ∃ t, maybe_add_trusted_role e g uid held = (Ok tt, held, TrustedCheck uid :: t)
       ∧ Forall (λ ev, ∃ h, ev = FetchRating h) t.
Proof.
  unfold grantable, maybe_add_trusted_role. unfold_M. intros H.
  repeat (case_match; simplify_eq/=); eexists; split; try reflexivity;
    repeat constructor; eauto.
Qed.

Lemma trusted_held e g uid held h tr :
  grantable e g uid = Some (h, tr) → tr ∈ held →
  maybe_add_trusted_role e g uid held = (Ok tt, held, [TrustedCheck uid]).
Proof.
  unfold grantable, maybe_add_trusted_role. unfold_M. intros H Hin.
  repeat (case_match; simplify_eq/=); try done.
  all: by rewrite bool_decide_eq_true_2 in * by done.
Qed.

Lemma trusted_grant e g uid held h tr :
  grantable e g uid = Some (h, tr) → tr ∉ held →
  maybe_add_trusted_role e g uid held
  = (Ok tt,
     if fails e (AddRoles uid [tr] trusted_reason) then held else held ++ [tr],
     [TrustedCheck uid; FetchRating h; AddRoles uid [tr] trusted_reason]).
Proof.
  unfold grantable, maybe_add_trusted_role. intros H Hin.
  destruct (get_handle e uid (guild_id g)) as [h'|]; [|done].
  destruct (get_by_name (guild_roles g) (TLE_TRUSTED e)) as [tr'|]; [|done].
  destruct (bool_decide (h' = EmptyString)); [done|].
  destruct (user_rating e h') as [cs| |]; [|done..].
  destruct (rated_1900_before_cutoff cs); simplify_eq.
  unfold_M. simpl. rewrite bool_decide_eq_false_2 by done. simpl.
  destruct (fails e _); simpl; [done|].
  by rewrite filter_cons_True, filter_nil by done.
Qed.

(** The trusted check never raises, only ever adds the Trusted role, and
    issues no removal. *)
Lemma trusted_cases e g uid held :
  ∃ held_a t_a,
    maybe_add_trusted_role e g uid held = (Ok tt, held_a, TrustedCheck uid :: t_a)
    ∧ (∀ r, r ∈ held → r ∈ held_a)
    ∧ (∀ r, r ∈ held_a → r ∈ held ∨ role_name r = TLE_TRUSTED e)
    ∧ Forall (λ ev, (∃ h, ev = FetchRating h)
                    ∨ ∃ tr, ev = AddRoles uid [tr] trusted_reason
                            ∧ role_name tr = TLE_TRUSTED e) t_a.
Proof.
  destruct (grantable e g uid) as [[h tr]|] eqn:Hg.
  - pose proof (grantable_name _ _ _ _ _ Hg) as Hname.
    destruct (decide (tr ∈ held)) as [Hin|Hin].
    + rewrite (trusted_held _ _ _ _ _ _ Hg Hin). eexists _, _; split; [done|].
      split; [done|]. split; [by left|]. constructor.
    + rewrite (trusted_grant _ _ _ _ _ _ Hg Hin). eexists _, _; split; [done|].
      destruct (fails e _).
      * split; [done|]. split; [by left|].
        apply Forall_cons; split; [left; eauto|].
        apply Forall_cons; split; [right; eauto|]. apply Forall_nil; done.
      * split; [intros r Hr; apply elem_of_app; by left|].
        split; [intros r [Hr|Hr%list_elem_of_singleton]%elem_of_app; subst; eauto|].
        apply Forall_cons; split; [left; eauto|].
        apply Forall_cons; split; [right; eauto|]. apply Forall_nil; done.
  - destruct (trusted_no_grant e g uid held Hg) as (t & -> & Ht).
    eexists _, _; split; [done|]. split; [done|]. split; [by left|].
    eapply Forall_impl; [done|]. intros ev [h ->]. left; eauto.
Qed.

(** [update_member_rank_role] in normal form: the check, then the
    removal when [to_remove] is not empty, then the addition when the role
    is not held; a rejected call ends the run. *)
Lemma update_member_rank_role_run e g uid role reason held :
  let held_a := (checked e g uid role held).1 in
  let t_a := (checked e g uid role held).2 in
  let rs := to_remove e role held_a in
  let held_b := kept e role held_a in
  let t_b := if bool_decide (rs ≠ []) then [RemoveRoles uid rs reason] else [] in
  update_member_rank_role e g uid role reason held =
    if bool_decide (rs ≠ []) && fails e (RemoveRoles uid rs reason)
    then (Raise HTTPException, held_a, t_a ++ t_b)
    else
      match to_add role held_b with
      | [] => (Ok tt, held_b, t_a ++ t_b)
      | added =>
          if fails e (AddRoles uid added reason)
          then (Raise HTTPException, held_b, t_a ++ t_b ++ [AddRoles uid added reason])
          else (Ok tt, held_b ++ added, t_a ++ t_b ++ [AddRoles uid added reason])
      end.
Proof.
  intros held_a t_a rs held_b t_b.
  assert (Hkept : rs = [] → held_b = held_a).
  { intros Hrs. unfold held_b, kept. fold rs. rewrite Hrs.
    clear. induction held_a as [|x l IH]; [done|].
    rewrite filter_cons_True by apply not_elem_of_nil. by rewrite IH. }
  unfold update_member_rank_role.
  assert (Hc : (if above_expert role then maybe_add_trusted_role e g uid else mret tt) held
               = (Ok tt, held_a, t_a)).
  { unfold held_a, t_a, checked. destruct (above_expert role); [|done].
    destruct (trusted_cases e g uid held) as (h1 & t1 & -> & _). done. }
  unfold mbind at 1. unfold M_bind at 1. rewrite Hc.
  unfold_M. simpl. fold rs. subst t_b.
  destruct (bool_decide (rs ≠ [])) eqn:Hrs; simpl.
  - destruct (fails e (RemoveRoles uid rs reason)); simpl; [done|].
    change (filter (λ r : Role, r ∉ rs) held_a) with held_b.
    unfold to_add. destruct role as [ρ|]; simpl; [|by rewrite ?app_nil_r].
    destruct (bool_decide (ρ ∉ held_b)) eqn:Hρ; simpl; [|by rewrite ?app_nil_r].
    apply bool_decide_eq_true in Hρ.
    destruct (fails e _); simpl; [done|].
    by rewrite filter_cons_True, filter_nil by done.
  - apply bool_decide_eq_false in Hrs. apply dec_stable in Hrs.
    rewrite (Hkept Hrs).
    unfold to_add. destruct role as [ρ|]; simpl; [|by rewrite ?app_nil_r].
    destruct (bool_decide (ρ ∉ held_a)) eqn:Hρ; simpl; [|by rewrite ?app_nil_r].
    apply bool_decide_eq_true in Hρ.
    destruct (fails e _); simpl; [by rewrite ?app_nil_r|].
    rewrite filter_cons_True, filter_nil by done. by rewrite ?app_nil_r.
Qed.

Lemma elem_of_role_names_to_remove e role name :
  name ∈ role_names_to_remove e role
  ↔ (name ∈ cf.rank_titles (RATED_RANKS e) ∧ ∀ ρ, role = Some ρ → name ≠ role_name ρ)
    ∨ (above_expert role = true ∧ name = TLE_PURGATORY e).
Proof.
  unfold role_names_to_remove. destruct role as [ρ|]; simpl.
  - destruct (negb _); rewrite ?elem_of_union, elem_of_difference,
      elem_of_list_to_set, ?elem_of_singleton; naive_solver.
  - rewrite elem_of_list_to_set. naive_solver.
Qed.

Lemma elem_of_to_remove e role held r :
  r ∈ to_remove e role held
  ↔ r ∈ held ∧ role_name r ∈ role_names_to_remove e role.
Proof. unfold to_remove. rewrite list_elem_of_filter. tauto. Qed.

Lemma elem_of_kept e role held r :
  r ∈ kept e role held
  ↔ r ∈ held ∧ role_name r ∉ role_names_to_remove e role.
Proof.
  unfold kept. rewrite list_elem_of_filter, elem_of_to_remove. tauto.
Qed.

Lemma checked_low e g uid role held :
  above_expert role = false → checked e g uid role held = (held, []).
Proof. unfold checked. by intros ->. Qed.

Lemma checked_high e g uid role held :
  above_expert role = true →
  ∃ t_a,
    (checked e g uid role held).2 = TrustedCheck uid :: t_a
    ∧ (∀ r, r ∈ held → r ∈ (checked e g uid role held).1)
    ∧ (∀ r, r ∈ (checked e g uid role held).1 → r ∈ held ∨ role_name r = TLE_TRUSTED e)
    ∧ Forall (λ ev, (∃ h, ev = FetchRating h)
                    ∨ ∃ tr, ev = AddRoles uid [tr] trusted_reason
                            ∧ role_name tr = TLE_TRUSTED e) t_a.
Proof.
  unfold checked. intros ->.
  destruct (trusted_cases e g uid held) as (held_a & t_a & -> & H1 & H2 & H3).
  simpl. eauto.
Qed.

Lemma above_expert_spec role_to_assign :
  above_expert role_to_assign = true
  ↔ ∃ role, role_to_assign = Some role ∧ role_name role ∉ low_rank_names.
Proof.
  unfold above_expert. destruct role_to_assign as [ρ|].
  - rewrite negb_true_iff, bool_decide_eq_false. naive_solver.
  - naive_solver.
Qed.

(** C10.  For a member holding a role [p] named Purgatory (which is not
    a rank title): when the role assigned is not one of Newbie, Pupil,
    Specialist, Expert, Purgatory is among the names to remove and [p] is
    among the roles of the removal issued; when it is one of those four,
    or when no role is assigned, Purgatory is not among the names, no
    removal issued contains [p], and the member still holds [p]. *)
Theorem purgatory_lifted_above_expert (e : Env) (g : Guild) (uid : nat)
    (role_to_assign : option Role) (reason : string) (held : list Role) (p : Role) :
  TLE_PURGATORY e ∉ cf.rank_titles (RATED_RANKS e) →
  p ∈ held →
  role_name p = TLE_PURGATORY e →
  let out := update_member_rank_role e g uid role_to_assign reason held in
  ((∃ role, role_to_assign = Some role ∧ role_name role ∉ low_rank_names) →
   TLE_PURGATORY e ∈ role_names_to_remove e role_to_assign
   ∧ (∃ rs, RemoveRoles uid rs reason ∈ out.2 ∧ p ∈ rs))
  ∧ ((role_to_assign = None
      ∨ (∃ role, role_to_assign = Some role ∧ role_name role ∈ low_rank_names)) →
     (TLE_PURGATORY e ∉ role_names_to_remove e role_to_assign)
     ∧ (∀ rs reason', RemoveRoles uid rs reason' ∈ out.2 → p ∉ rs)
     ∧ p ∈ out.1.2).
Proof.
  intros Hp Hin Hname out. subst out.
  rewrite update_member_rank_role_run.
  set (held_a := (checked e g uid role_to_assign held).1).
  set (t_a := (checked e g uid role_to_assign held).2).
  set (rs := to_remove e role_to_assign held_a).
  set (held_b := kept e role_to_assign held_a).
  split.
  - intros Habove%above_expert_spec.
    assert (Hnames : TLE_PURGATORY e ∈ role_names_to_remove e role_to_assign).
    { apply elem_of_role_names_to_remove. by right. }
    split; [done|].
    destruct (checked_high e g uid role_to_assign held Habove) as (t & _ & Hsub & _).
    assert (Hrs : p ∈ rs).
    { apply elem_of_to_remove. split; [by apply Hsub | by rewrite Hname]. }
    assert (Hne : rs ≠ []) by (intros Heq; rewrite Heq in Hrs; by apply elem_of_nil in Hrs).
    exists rs. split; [|done].
    rewrite (bool_decide_eq_true_2 _ Hne). simpl.
    repeat (case_match; simpl); rewrite ?elem_of_app, ?elem_of_cons; auto.
  - intros Hlow.
    assert (Habove : above_expert role_to_assign = false).
    { destruct (above_expert role_to_assign) eqn:Ha; [|done].
      apply above_expert_spec in Ha. naive_solver. }
    assert (Hnames : TLE_PURGATORY e ∉ role_names_to_remove e role_to_assign).
    { rewrite elem_of_role_names_to_remove, Habove. naive_solver. }
    split; [done|].
    assert (Hrs : p ∉ rs).
    { unfold rs. rewrite elem_of_to_remove, Hname. tauto. }
    assert (Hb : p ∈ held_b).
    { apply elem_of_kept. rewrite Hname. split; [|done].
      unfold held_a. by rewrite checked_low. }
    assert (Ha : p ∈ held_a).
    { unfold held_a. by rewrite checked_low. }
    assert (Ht : t_a = []) by (unfold t_a; by rewrite checked_low).
    rewrite Ht. split.
    + intros rs' reason'. simpl.
      repeat (case_match; simpl);
        rewrite ?elem_of_app, ?elem_of_cons, ?elem_of_nil;
        intros H'; repeat (destruct H' as [H'|H']); simplify_eq; done.
    + repeat (case_match; simpl); rewrite ?elem_of_app; auto.
Qed.

(** C10 on the sample guild: carol, holding Purgatory and Expert, is
    assigned Master; bob, holding Purgatory and Newbie, is assigned
    Pupil. *)
Lemma purgatory_lifted_above_expert_witness :
  (∃ rs, RemoveRoles 3 rs "Codeforces rank update"
           ∈ (update_member_rank_role Sample.env Sample.guild 3 (Some Sample.master)
                "Codeforces rank update" [Sample.purgatory; Sample.expert]).2
         ∧ Sample.purgatory ∈ rs)
  ∧ Sample.purgatory
    ∈ (update_member_rank_role Sample.env Sample.guild 2 (Some Sample.pupil)
         "Codeforces rank update" [Sample.purgatory; Sample.newbie]).1.2.
Proof.
  split.
  - refine (proj2 (proj1 (purgatory_lifted_above_expert Sample.env Sample.guild 3
              (Some Sample.master) "Codeforces rank update"
              [Sample.purgatory; Sample.expert] Sample.purgatory _ _ _) _)).
    + apply (bool_decide_unpack _). vm_compute. reflexivity.
    + apply (bool_decide_unpack _). vm_compute. reflexivity.
    + reflexivity.
    + exists Sample.master. split; [reflexivity|].
      apply (bool_decide_unpack _). vm_compute. reflexivity.
  - refine (proj2 (proj2 (proj2 (purgatory_lifted_above_expert Sample.env Sample.guild 2
              (Some Sample.pupil) "Codeforces rank update"
              [Sample.purgatory; Sample.newbie] Sample.purgatory _ _ _) _))).
    + apply (bool_decide_unpack _). vm_compute. reflexivity.
    + apply (bool_decide_unpack _). vm_compute. reflexivity.
    + reflexivity.
    + right. exists Sample.pupil. split; [reflexivity|].
      apply (bool_decide_unpack _). vm_compute. reflexivity.
Defined.

Lemma checked_trace e g uid role held ev :
  ev ∈ (checked e g uid role held).2 →
  ev = TrustedCheck uid
  ∨ (∃ h, ev = FetchRating h)
  ∨ (∃ tr, ev = AddRoles uid [tr] trusted_reason ∧ role_name tr = TLE_TRUSTED e).
Proof.
  destruct (above_expert role) eqn:Ha.
  - destruct (checked_high e g uid role held Ha) as (t & -> & _ & _ & Ht).
    intros [->|Hin]%elem_of_cons; [by left|].
    rewrite Forall_forall in Ht. destruct (Ht _ Hin); auto.
  - rewrite checked_low by done. simpl. by intros ?%elem_of_nil.
Qed.

(** Every removal call stands before the call that adds the role
    assigned. *)
Lemma removals_before_addition e g uid role reason held :
  role_name role ≠ TLE_TRUSTED e →
  ∀ i j rs reason1 reason2,
    (update_member_rank_role e g uid (Some role) reason held).2 !! i
    = Some (RemoveRoles uid rs reason1) →
    (update_member_rank_role e g uid (Some role) reason held).2 !! j
    = Some (AddRoles uid [role] reason2) →
    (i < j)%nat.
Proof.
  intros Hname i j rs reason1 reason2.
  rewrite update_member_rank_role_run.
  set (held_a := (checked e g uid (Some role) held).1).
  set (t_a := (checked e g uid (Some role) held).2).
  set (rs0 := to_remove e (Some role) held_a).
  set (held_b := kept e (Some role) held_a).
  assert (Hta : ∀ k ev, t_a !! k = Some ev →
            (∀ rs r, ev ≠ RemoveRoles uid rs r) ∧ ∀ r, ev ≠ AddRoles uid [role] r).
  { intros k ev Hk%list_elem_of_lookup_2.
    destruct (checked_trace _ _ _ _ _ _ Hk) as [->|[[h ->]|(tr & -> & Htr)]];
      split; try done. intros r Heq. simplify_eq. }
  assert (Hadd : to_add (Some role) held_b = [] ∨ to_add (Some role) held_b = [role]).
  { unfold to_add. case_bool_decide; auto. }
  assert (Hshape : ∀ rest,
            (rest = [] ∨ rest = [RemoveRoles uid rs0 reason]
             ∨ rest = [AddRoles uid [role] reason]
             ∨ rest = [RemoveRoles uid rs0 reason; AddRoles uid [role] reason]) →
            (t_a ++ rest) !! i = Some (RemoveRoles uid rs reason1) →
            (t_a ++ rest) !! j = Some (AddRoles uid [role] reason2) →
            (i < j)%nat).
  { intros rest Hrest.
    rewrite !lookup_app_Some.
    intros [Hi|[Hi1 Hi2]]; [by apply Hta in Hi as [Hi _]; exfalso; eapply Hi|].
    intros [Hj|[Hj1 Hj2]]; [by apply Hta in Hj as [_ Hj]; exfalso; eapply Hj|].
    destruct Hrest as [-> | [-> | [-> | ->]]];
      destruct (i - length t_a)%nat as [|[|?]] eqn:Hi;
      destruct (j - length t_a)%nat as [|[|?]] eqn:Hj;
      simplify_eq/=; lia. }
  destruct Hadd as [Ha|Ha]; rewrite Ha;
    repeat (case_match; simpl); try (apply Hshape; auto).
  all: rewrite ?app_nil_r; try (apply (Hshape []); auto).
Qed.

(** C6.  When the role assigned is not the Trusted role: every removal
    call issued by [update_member_rank_role] stands strictly before the
    call that adds the role assigned; and when there are roles to remove
    and the role is to be added, the removal is issued and, once it has
    gone through, the addition is the very next call. *)
Theorem removal_precedes_addition (e : Env) (g : Guild) (uid : nat) (role : Role)
    (reason : string) (held : list Role) :
  role_name role ≠ TLE_TRUSTED e →
  let t := (update_member_rank_role e g uid (Some role) reason held).2 in
  let held_a := (checked e g uid (Some role) held).1 in
  let rs := to_remove e (Some role) held_a in
  (∀ i j rs' reason1 reason2,
     t !! i = Some (RemoveRoles uid rs' reason1) →
     t !! j = Some (AddRoles uid [role] reason2) →
     (i < j)%nat)
  ∧ (rs ≠ [] →
     to_add (Some role) (kept e (Some role) held_a) ≠ [] →
     fails e (RemoveRoles uid rs reason) = false →
     ∃ i, t !! i = Some (RemoveRoles uid rs reason)
          ∧ t !! S i = Some (AddRoles uid [role] reason)).
Proof.
  intros Hname t held_a rs. split.
  - by apply removals_before_addition.
  - intros Hrs Hadd Hok. subst t.
    assert (Ha : to_add (Some role) (kept e (Some role) held_a) = [role]).
    { unfold to_add in *. by case_bool_decide. }
    rewrite update_member_rank_role_run. cbv zeta.
    fold held_a. fold rs. rewrite Ha, (bool_decide_eq_true_2 _ Hrs), Hok. simpl.
    exists (length (checked e g uid (Some role) held).2).
    destruct (fails e (AddRoles uid [role] reason)); simpl;
      (split;
       [ rewrite lookup_app_r by lia; by rewrite Nat.sub_diag
       | rewrite lookup_app_r by lia;
         by replace (S _ - _)%nat with 1%nat by lia ]).
Qed.

(** C6 on the sample guild: carol, holding Purgatory and Expert, is
    assigned Master; the removal is the fourth call and the addition the
    fifth. *)
Lemma removal_precedes_addition_witness :
  let t := (update_member_rank_role Sample.env Sample.guild 3 (Some Sample.master)
              "Codeforces rank update" [Sample.purgatory; Sample.expert]).2 in
  t !! 3%nat = Some (RemoveRoles 3 [Sample.purgatory; Sample.expert]
                       "Codeforces rank update")
  ∧ t !! 4%nat = Some (AddRoles 3 [Sample.master] "Codeforces rank update")
  ∧ (3 < 4)%nat.
Proof.
  split; [reflexivity|]. split; [reflexivity|].
  apply (proj1 (removal_precedes_addition Sample.env Sample.guild 3 Sample.master
                  "Codeforces rank update" [Sample.purgatory; Sample.expert]
                  ltac:(discriminate))
           3%nat 4%nat [Sample.purgatory; Sample.expert]
           "Codeforces rank update" "Codeforces rank update");
    reflexivity.
Defined.

(** C7 as stated fails: carol already holds Trusted and Master, so
    nothing is to be added and she holds roles outside Purgatory, yet a
    run at the same tier enters the trusted check again. *)
Lemma trusted_check_repeats :
  let held := [Sample.trusted; Sample.master] in
  to_add (Some Sample.master) held = []
  ∧ update_member_rank_role Sample.env Sample.guild 3 (Some Sample.master)
      "Codeforces rank update" held
    = (Ok tt, held, [TrustedCheck 3]).
Proof. split; vm_compute; reflexivity. Qed.

(** The calls of [update_member_rank_role]: those of its first step,
    then role mutations only. *)
Lemma update_trace e g uid role reason held :
  ∃ rest,
    (update_member_rank_role e g uid role reason held).2
    = (checked e g uid role held).2 ++ rest
    ∧ Forall (λ ev, is_role_mutation ev) rest.
Proof.
  rewrite update_member_rank_role_run.
  repeat (case_match; simpl); eexists; (split; [reflexivity|]);
    repeat constructor.
Qed.

(** C7, amended.  A call of [update_member_rank_role] enters the trusted
    check exactly when a role is assigned whose name is not one of
    Newbie, Pupil, Specialist, Expert, whatever the member holds and
    whether or not a role is to be added, and then enters it once; the
    check issues the addition of the Trusted role only for a member who
    does not hold it. *)
Theorem trusted_check_fires (e : Env) (g : Guild) (uid : nat)
    (role_to_assign : option Role) (reason : string) (held : list Role) :
  let t := (update_member_rank_role e g uid role_to_assign reason held).2 in
  (TrustedCheck uid ∈ t
   ↔ ∃ role, role_to_assign = Some role ∧ role_name role ∉ low_rank_names)
  ∧ (length (filter (λ ev, is_trusted_check ev) t) ≤ 1)%nat
  ∧ ∀ trusted_role reason',
      AddRoles uid [trusted_role] reason' ∈ (maybe_add_trusted_role e g uid held).2 →
      trusted_role ∉ held.
Proof.
  intros t. subst t.
  destruct (update_trace e g uid role_to_assign reason held) as (rest & -> & Hrest).
  assert (Hnot : ∀ ev, ev ∈ rest → is_trusted_check ev = false).
  { intros ev Hev. rewrite Forall_forall in Hrest. specialize (Hrest _ Hev).
    by destruct ev. }
  assert (Hcount : filter (λ ev, is_trusted_check ev) rest = []).
  { clear -Hnot. induction rest as [|ev rest IH]; [done|].
    rewrite filter_cons_False.
    - apply IH. intros ev' Hev'. apply Hnot. apply elem_of_cons. by right.
    - rewrite (Hnot ev); [simpl; tauto|]. apply elem_of_cons. by left. }
  rewrite <-above_expert_spec.
  split; [|split].
  - destruct (above_expert role_to_assign) eqn:Ha.
    + destruct (checked_high e g uid role_to_assign held Ha) as (t_a & -> & _).
      split; [done|]. intros _. by left.
    + rewrite checked_low by done. simpl. split; [|done].
      intros Hin. apply Hnot in Hin. done.
  - rewrite filter_app, Hcount, app_nil_r.
    destruct (above_expert role_to_assign) eqn:Ha.
    + destruct (checked_high e g uid role_to_assign held Ha) as (t_a & -> & _ & _ & Ht).
      rewrite filter_cons_True by done. simpl.
      assert (filter (λ ev, is_trusted_check ev) t_a = []) as ->; [|done].
      clear -Ht. induction Ht as [|ev t_a Hev _ IH]; [done|].
      rewrite filter_cons_False; [done|].
      destruct Hev as [[h ->]|(tr & -> & _)]; simpl; tauto.
    + rewrite checked_low by done. simpl. lia.
  - intros tr reason'.
    destruct (grantable e g uid) as [[h tr0]|] eqn:Hg.
    + destruct (decide (tr0 ∈ held)) as [Hin|Hin].
      * rewrite (trusted_held _ _ _ _ _ _ Hg Hin). simpl.
        rewrite list_elem_of_singleton. done.
      * rewrite (trusted_grant _ _ _ _ _ _ Hg Hin). simpl.
        rewrite !elem_of_cons, elem_of_nil. intros [?|[?|[?|[]]]]; simplify_eq. done.
    + destruct (trusted_no_grant e g uid held Hg) as (t & -> & Ht). simpl.
      rewrite elem_of_cons. intros [?|Hin]; [done|].
      rewrite Forall_forall in Ht. destruct (Ht _ Hin) as [h ?]. done.
Qed.

(** ** One guild: [_update_ranks] *)

Lemma roles_of_set_roles uid held w uid' :
  roles_of (set_roles uid held w) uid'
  = if decide (uid = uid' ∧ is_Some (member_roles w !! uid))
    then held else roles_of w uid'.
Proof.
  unfold roles_of, set_roles. simpl.
  destruct (decide (uid = uid')) as [->|Hne].
  - rewrite lookup_alter_eq. destruct (member_roles w !! uid') eqn:Hm; simpl.
    + rewrite decide_True; [done|]. split; [done|by eexists].
    + rewrite decide_False; [done|]. intros [_ [? [=]]].
  - rewrite lookup_alter_ne by done. rewrite decide_False; [done|]. tauto.
Qed.

Lemma member_set_roles uid held w uid' :
  is_Some (member_roles (set_roles uid held w) !! uid')
  ↔ is_Some (member_roles w !! uid').
Proof.
  unfold set_roles. simpl. destruct (decide (uid = uid')) as [->|Hne].
  - rewrite lookup_alter_eq. rewrite fmap_is_Some. done.
  - by rewrite lookup_alter_ne.
Qed.

Lemma ledger_set_roles uid held w : ledger (set_roles uid held w) = ledger w.
Proof. done. Qed.


Lemma rank2role_dom g required name :
  name ∈ dom (rank2role g required)
  ↔ name ∈ required ∧ ∃ role, role ∈ guild_roles g ∧ role_name role = name.
Proof.
  unfold rank2role. rewrite dom_list_to_map_L, elem_of_list_to_set.
  rewrite list_elem_of_fmap. split.
  - intros ([name' role] & -> & Hin). simpl.
    apply elem_of_reverse, list_elem_of_fmap in Hin as (role' & [= -> ->] & Hin).
    apply list_elem_of_filter in Hin as [? ?]. eauto.
  - intros [Hreq (role & Hin & <-)]. exists (role_name role, role). split; [done|].
    apply elem_of_reverse, list_elem_of_fmap. exists role. split; [done|].
    apply list_elem_of_filter. done.
Qed.

Lemma required_title_spec e user name :
  required_title e user = Some name
  ↔ ∃ k, resolved_tier e user = cf.Rated k ∧ cf.title k = name.
Proof.
  unfold required_title, resolved_tier.
  destruct (resolved_rating user) as [r|]; simpl.
  - destruct (cf.scan _ _ _); naive_solver.
  - naive_solver.
Qed.

Lemma elem_of_required_roles e users name :
  name ∈ required_roles e users
  ↔ ∃ user, user ∈ users ∧ required_title e user = Some name.
Proof.
  unfold required_roles. rewrite elem_of_list_to_set, list_elem_of_omap. done.
Qed.

Lemma role_for_run e r2r user w :
  (∀ k, resolved_tier e user = cf.Rated k → is_Some (r2r !! cf.title k)) →
  role_for e r2r user w = (Ok (assigned e r2r user), w, []).
Proof.
  unfold role_for, assigned, resolved_tier. intros H.
  destruct (resolved_rating user) as [r|]; simpl; [|done].
  simpl in H. destruct (cf.scan _ _ _) as [|k]; [done|].
  destruct (H k eq_refl) as [role ->]. done.
Qed.

(** The pairs the loop of [_update_ranks] runs over. *)
Lemma zip_members_users e (mh : list (nat * string)) :
  zip mh.*1 (user_info e <$> mh.*2) = (λ p, (p.1, user_info e p.2)) <$> mh.
Proof. induction mh as [|[uid h] mh IH]; [done|]. cbn. by f_equal. Qed.

Lemma for_each_cons {S A} (x : A) (l : list A) (body : A → M S unit) (s : S) :
  for_each (x :: l) body s
  = match body x s with
    | (Ok _, s1, t1) =>
        let '(r, s2, t2) := for_each l body s1 in (r, s2, t1 ++ t2)
    | (Raise x, s1, t1) => (Raise x, s1, t1)
    end.
Proof. done. Qed.

Lemma for_each_ext {S A} (l : list A) (body1 body2 : A → M S unit) (s : S) :
  (∀ x s', x ∈ l → body1 x s' = body2 x s') →
  for_each l body1 s = for_each l body2 s.
Proof.
  revert s; induction l as [|x l IH]; intros s Hext; [done|].
  rewrite !for_each_cons, Hext by (apply elem_of_cons; by left).
  destruct (body2 x s) as [[[[]|?] s1] t1]; [|done].
  rewrite IH; [done|]. intros y s' Hy. apply Hext, elem_of_cons. by right.
Qed.

Lemma run_pairs_required e w res uid user :
  (uid, user) ∈ run_pairs e w res →
  ∀ k, resolved_tier e user = cf.Rated k →
       cf.title k ∈ required_roles e (user_info e <$> (member_handles_of w res).*2).
Proof.
  unfold run_pairs. intros ([uid' h] & [= -> ->] & Hin)%list_elem_of_fmap k Hk.
  apply elem_of_required_roles. exists (user_info e h). split.
  - apply list_elem_of_fmap. exists h. split; [done|].
    apply list_elem_of_fmap. by exists (uid', h).
  - apply required_title_spec. eauto.
Qed.

(** A run of [_update_ranks] that does not raise before its loop is the
    loop. *)
Lemma update_ranks_loop e g res w :
  member_handles_of w res ≠ [] →
  (∀ name, name ∈ required_roles e (user_info e <$> (member_handles_of w res).*2) →
           name ∈ dom (run_r2r e g w res)) →
  _update_ranks e g res w
  = for_each (run_pairs e w res) (assign_body e g (run_r2r e g w res)) w.
Proof.
  intros Hmh Hreq. unfold _update_ranks.
  unfold mbind at 1. unfold M_bind at 1. unfold get_state at 1.
  assert (∀ out : Res unit * World * list Event,
            (let '(r, s2, t2) := out in (r, s2, [] ++ t2)) = out) as Hout
    by (by intros [[? ?] ?]).
  rewrite Hout.
  rewrite bool_decide_eq_false_2 by done.
  rewrite bool_decide_eq_false_2.
  2:{ intros Hne. apply Hne. apply set_eq. intros name.
      rewrite elem_of_difference. split; [|set_solver].
      intros [H1 H2]. exfalso. apply H2, Hreq, H1. }
  rewrite zip_members_users. fold (run_pairs e w res). fold (run_r2r e g w res).
  apply for_each_ext. intros [uid user] w' Hin.
  unfold assign_body. unfold mbind, M_bind. rewrite role_for_run.
  - simpl. by destruct (on_member _ _ _) as [[? ?] ?].
  - intros k Hk. apply elem_of_dom, Hreq. by eapply run_pairs_required.
Qed.


(** C1 as stated fails: without a role named Specialist for alice, the
    run raises before its loop; bob, whose role Pupil exists, is left
    with Newbie. *)
Lemma sibling_not_reconciled :
  let out := _update_ranks Sample.env Sample.guild_without_specialist
               Sample.handles Sample.world in
  out.1.1 = Raise (HandleCogError (RolesNotPresent ["Specialist"]))
  ∧ out.2 = []
  ∧ resolved_tier Sample.env (Sample.info "bob")
    = cf.Rated {| cf.low := 1200; cf.title := "Pupil" |}
  ∧ Sample.pupil ∈ guild_roles Sample.guild_without_specialist
  ∧ roles_of out.1.2 2 = [Sample.newbie].
Proof.
  repeat split; try (vm_compute; reflexivity).
  apply (bool_decide_unpack _). vm_compute. reflexivity.
Qed.

(** C1, amended.  When the directory has no role named after the tier of
    some member of the run, [_update_ranks] raises [HandleCogError] naming
    that title before any member is processed: no call is issued and the
    roles of every member, the failing one and the others, are left as
    they were. *)
Theorem update_ranks_missing_role (e : Env) (g : Guild) (res : list (nat * string))
    (w : World) (uid : nat) (h : string) (k : cf.Rank) :
  (uid, h) ∈ res →
  is_Some (member_roles w !! uid) →
  resolved_tier e (user_info e h) = cf.Rated k →
  (∀ role, role ∈ guild_roles g → role_name role ≠ cf.title k) →
  ∃ missing,
    cf.title k ∈ missing
    ∧ _update_ranks e g res w
      = (Raise (HandleCogError (RolesNotPresent missing)), w, []).
Proof.
  intros Hin Hmem Htier Hnone.
  assert (Hmh : (uid, h) ∈ member_handles_of w res).
  { apply list_elem_of_filter. done. }
  set (required := required_roles e (user_info e <$> (member_handles_of w res).*2)).
  assert (Hreq : cf.title k ∈ required).
  { apply elem_of_required_roles. exists (user_info e h). split.
    - apply list_elem_of_fmap. exists h. split; [done|].
      apply list_elem_of_fmap. by exists (uid, h).
    - apply required_title_spec. eauto. }
  assert (Hdom : cf.title k ∉ dom (rank2role g required)).
  { rewrite rank2role_dom. intros [_ (role & Hrole & Hname)]. by eapply Hnone. }
  exists (elements (required ∖ dom (rank2role g required))). split.
  { apply elem_of_elements, elem_of_difference. done. }
  unfold _update_ranks.
  unfold mbind at 1. unfold M_bind at 1. unfold get_state at 1.
  rewrite bool_decide_eq_false_2.
  2:{ intros Heq. rewrite Heq in Hmh. by apply elem_of_nil in Hmh. }
  fold required. rewrite bool_decide_eq_true_2; [done|].
  intros Heq. eapply (not_elem_of_empty (C:=gset string) (cf.title k)).
  rewrite <-Heq. apply elem_of_difference. done.
Qed.

(** C1 on the sample guild without the role Specialist, failing for
    alice. *)
Lemma update_ranks_missing_role_witness :
  ∃ missing,
    "Specialist" ∈ missing
    ∧ _update_ranks Sample.env Sample.guild_without_specialist Sample.handles
        Sample.world
      = (Raise (HandleCogError (RolesNotPresent missing)), Sample.world, []).
Proof.
  apply (update_ranks_missing_role Sample.env Sample.guild_without_specialist
           Sample.handles Sample.world 1 "alice"
           {| cf.low := 1400; cf.title := "Specialist" |}).
  - apply (bool_decide_unpack _). vm_compute. reflexivity.
  - apply (bool_decide_unpack _). vm_compute. reflexivity.
  - vm_compute. reflexivity.
  - apply Forall_forall. apply (bool_decide_unpack _). vm_compute. reflexivity.
Defined.

(** *** Convergence *)


Lemma on_member_run {A} uid (m : M (list Role) A) w :
  on_member uid m w
  = ((m (roles_of w uid)).1.1, set_roles uid (m (roles_of w uid)).1.2 w,
     (m (roles_of w uid)).2).
Proof. unfold on_member. by destruct (m _) as [[? ?] ?]. Qed.

(** The loop touches only the members it runs over, and neither the set
    of members nor the ledger. *)
Lemma loop_frame e g r2r l w r w' t :
  for_each l (assign_body e g r2r) w = (r, w', t) →
  (∀ uid, uid ∉ l.*1 → roles_of w' uid = roles_of w uid)
  ∧ (∀ uid, is_Some (member_roles w' !! uid) ↔ is_Some (member_roles w !! uid))
  ∧ ledger w' = ledger w.
Proof.
  revert w r w' t; induction l as [|[uid0 user0] l IH]; intros w r w' t.
  - intros [= <- <- <-]. done.
  - rewrite for_each_cons. unfold assign_body at 1. rewrite on_member_run. simpl.
    set (w1 := set_roles uid0 _ w).
    destruct (_.1.1) as [[]|x].
    + destruct (for_each l _ w1) as [[r2 w2] t2] eqn:Hrest.
      intros [= <- <- <-]. destruct (IH _ _ _ _ Hrest) as (H1 & H2 & H3).
      split; [|split].
      * intros uid [Hne Hnin]%not_elem_of_cons. rewrite H1 by done.
        unfold w1. rewrite roles_of_set_roles, decide_False; [done|]. naive_solver.
      * intros uid. rewrite H2. apply member_set_roles.
      * by rewrite H3.
    + intros [= <- <- <-]. split; [|split].
      * intros uid [Hne Hnin]%not_elem_of_cons.
        unfold w1. rewrite roles_of_set_roles, decide_False; [done|]. naive_solver.
      * intros uid. apply member_set_roles.
      * done.
Qed.



Lemma run_pairs_fst e w res : (run_pairs e w res).*1 = (member_handles_of w res).*1.
Proof.
  unfold run_pairs. rewrite <-list_fmap_compose. done.
Qed.




(** *** Idempotence *)


Lemma kept_nil e role held :
  to_remove e role held = [] → kept e role held = held.
Proof.
  intros Hrs. unfold kept. rewrite Hrs. clear Hrs.
  induction held as [|x l IH]; [done|].
  rewrite filter_cons_True by apply not_elem_of_nil. by rewrite IH.
Qed.







(** ** The pipeline of one guild: [update_for_guild] *)

Lemma bind_run {S A B} (m : M S A) (f : A → M S B) (s : S) :
  (m ≫= f) s
  = match m s with
    | (Ok a, s1, t1) => ((f a s1).1.1, (f a s1).1.2, t1 ++ (f a s1).2)
    | (Raise x, s1, t1) => (Raise x, s1, t1)
    end.
Proof.
  unfold mbind, M_bind. destruct (m s) as [[[a|x] s1] t1]; [|done].
  by destruct (f a s1) as [[? ?] ?].
Qed.

Lemma bind_trace {S A B} (P : Event → Prop) (m : M S A) (f : A → M S B) (s : S) :
  Forall P (m s).2 → (∀ a s', Forall P (f a s').2) → Forall P ((m ≫= f) s).2.
Proof.
  intros Hm Hf. rewrite bind_run. destruct (m s) as [[[a|x] s1] t1]; [|done].
  simpl in *. apply Forall_app. split; [done|apply Hf].
Qed.

Lemma suppress_trace {S} (P : Event → Prop) (m : M S unit) (s : S) :
  Forall P (m s).2 → Forall P (suppress m s).2.
Proof.
  unfold suppress, try_except. destruct (m s) as [[[a|x] s1] t1]; [done|].
  destruct (is_HandleCogError x); [|done]. simpl. by rewrite app_nil_r.
Qed.

Lemma for_each_trace {S A} (P : Event → Prop) (l : list A) (body : A → M S unit)
    (s : S) :
  (∀ x s', x ∈ l → Forall P (body x s').2) → Forall P (for_each l body s).2.
Proof.
  revert s; induction l as [|x l IH]; intros s Hbody; [constructor|].
  simpl. apply bind_trace.
  - apply Hbody, elem_of_cons. by left.
  - intros _ s'. apply IH. intros y s'' Hy. apply Hbody, elem_of_cons. by right.
Qed.

(** No message is sent while the roles are updated. *)
Lemma update_member_no_send e g uid role reason held :
  Forall (λ ev, is_send ev = false) (update_member_rank_role e g uid role reason held).2.
Proof.
  destruct (update_trace e g uid role reason held) as (rest & -> & Hrest).
  apply Forall_app. split.
  - apply Forall_forall. intros ev Hev.
    destruct (checked_trace _ _ _ _ _ _ Hev) as [->|[[h ->]|(tr & -> & _)]]; done.
  - eapply Forall_impl; [exact Hrest|]. by intros [].
Qed.

Lemma update_ranks_no_send e g res w :
  Forall (λ ev, is_send ev = false) (_update_ranks e g res w).2.
Proof.
  unfold _update_ranks. apply bind_trace; [constructor|].
  intros w0 s'. case_bool_decide; [constructor|].
  case_bool_decide; [constructor|].
  apply for_each_trace. intros [uid user] s'' _.
  apply bind_trace.
  - unfold role_for. repeat case_match; constructor.
  - intros role s3. rewrite on_member_run. simpl. apply update_member_no_send.
Qed.

(** One pass of the loop of [_check_and_update_achievements]. *)
Lemma achievements_loop_cons e g changes uid h pairs acc w :
  achievements_loop e g changes ((uid, h) :: pairs) acc w
  = match member_roles w !! uid, changes !! h with
    | Some _, Some change =>
        let new_rating := cf.newRating change in
        let new_rank :=
          cf.tier_title (cf.rating2rank (RATED_RANKS e) (Some new_rating)) in
        let old := get_user_achievement w uid (guild_id g) in
        let v := Ledger.check_achievement (cf.rank_titles (RATED_RANKS e))
                   old.1 old.2 new_rating new_rank in
        match Ledger.written v with
        | Some (current_max, current_highest_rank) =>
            let ev := UpdateAchievement uid (guild_id g) h current_max
                        current_highest_rank in
            if fails e ev then (Raise DataBaseError, w, [ev])
            else
              let out :=
                achievements_loop e g changes pairs
                  (if (1200 <=? new_rating)%Z
                   then acc ++ [achievement_entry uid h new_rating new_rank v]
                   else acc)
                  {| member_roles := member_roles w;
                     ledger := <[(uid, guild_id g) :=
                                   (Some current_max, Some current_highest_rank)]>
                                 (ledger w) |} in
              (out.1.1, out.1.2, ev :: out.2)
        | None => achievements_loop e g changes pairs acc w
        end
    | _, _ => achievements_loop e g changes pairs acc w
    end.
Proof.
  simpl. rewrite bind_run. unfold get_state at 1. simpl.
  assert (Hsame : ∀ out : Res (list (nat * AchievementInfo)) * World * list Event,
            (out.1.1, out.1.2, out.2) = out) by (by intros [[? ?] ?]).
  destruct (member_roles w !! uid); [|apply Hsame].
  destruct (changes !! h); [|apply Hsame].
  destruct (Ledger.written _) as [[current_max current_highest_rank]|]; [|apply Hsame].
  rewrite bind_run. unfold update_user_achievement, call.
  destruct (fails e _); done.
Qed.

(** The loop of [_check_and_update_achievements] issues ledger writes
    only, and every entry it adds to the list stands for a write that went
    through. *)
Lemma achievements_loop_spec e g changes pairs acc w :
  let out := achievements_loop e g changes pairs acc w in
  Forall (λ ev, is_send ev = false) out.2
  ∧ ∀ acc', out.1.1 = Ok acc' →
      ∀ entry, entry ∈ acc' →
        entry ∈ acc ∨ ∃ ev, ev ∈ out.2 ∧ persisted e g entry.1 ev.
Proof.
  revert acc w; induction pairs as [|[uid h] pairs IH]; intros acc w.
  - simpl. split; [constructor|]. intros acc' [= <-] entry Hin. by left.
  - rewrite achievements_loop_cons.
    destruct (member_roles w !! uid) as [held|]; [|apply IH].
    destruct (changes !! h) as [change|]; [|apply IH].
    cbv zeta.
    destruct (Ledger.written _) as [[current_max current_highest_rank]|] eqn:Hwr;
      [|apply IH].
    set (ev := UpdateAchievement uid (guild_id g) h current_max current_highest_rank).
    destruct (fails e ev) eqn:Hf.
    { simpl. split; [by repeat constructor|]. done. }
    match goal with
    | |- context [achievements_loop e g changes pairs ?a ?s] =>
        destruct (IH a s) as [IH1 IH2];
        set (out := achievements_loop e g changes pairs a s) in *
    end.
    simpl. split; [by constructor|].
    intros acc' Hacc' entry Hin.
    assert (Hhere : persisted e g uid ev) by (by exists h, current_max, current_highest_rank).
    destruct (IH2 acc' Hacc' entry Hin) as [Hold|(ev' & Hev' & Hp)].
    + destruct (1200 <=? cf.newRating change)%Z; [|by left].
      apply elem_of_app in Hold as [Hold|Hnew%list_elem_of_singleton]; [by left|].
      right. exists ev. subst entry. split; [apply elem_of_cons; by left|done].
    + right. exists ev'. split; [apply elem_of_cons; by right|done].
Qed.

Lemma achievement_message_member entry message :
  achievement_message entry = Some message → msg_member message = entry.1.
Proof. unfold achievement_message. case_bool_decide; [|done]. by intros [= <-]. Qed.

(** Every member mentioned in an embed is a member of the list the
    embeds were made from. *)
Lemma embeds_mention e contest achievements embed uid :
  chunkify_sound e →
  embed ∈ _make_achievement_embeds e contest achievements →
  uid ∈ mentions embed →
  ∃ entry, entry ∈ achievements ∧ entry.1 = uid.
Proof.
  intros Hsound. unfold _make_achievement_embeds.
  case_bool_decide; [by intros ?%elem_of_nil|].
  intros [->|(page & -> & Hpage)%list_elem_of_fmap]%elem_of_cons; simpl.
  - by intros ?%elem_of_nil.
  - intros (message & -> & Hm)%list_elem_of_fmap.
    apply (Hsound _ _ _ _ Hpage), list_elem_of_omap in Hm as (entry & Hin & Hmsg).
    exists entry. split; [done|]. symmetry. by apply achievement_message_member.
Qed.

(** C8.  In the calls issued by [update_for_guild], every message sent
    that mentions a member comes after a write of that member's
    achievement record that went through; a write that raises ends the
    pipeline, so nothing is sent for it. *)
Theorem persist_before_notify (e : Env) (g : Guild) (contest_name : string)
    (change_by_handle : gmap string cf.RatingChange) (w : World) :
  chunkify_sound e →
  let t := (update_for_guild e g contest_name change_by_handle w).2 in
  ∀ j channel embed uid,
    t !! j = Some (Send channel embed) →
    uid ∈ mentions embed →
    ∃ i h max_rating rank,
      (i < j)%nat
      ∧ t !! i = Some (UpdateAchievement uid (guild_id g) h max_rating rank)
      ∧ fails e (UpdateAchievement uid (guild_id g) h max_rating rank) = false.
Proof.
  intros Hsound t j channel embed uid. subst t.
  unfold update_for_guild. rewrite bind_run.
  unfold _check_and_update_achievements.
  destruct (achievements_loop_spec e g change_by_handle
              (get_handles_for_guild e (guild_id g)) [] w) as [Hloop Hacc].
  destruct (achievements_loop _ _ _ _ _ _) as [[[achievements|x] w1] t1];
    simpl in *.
  2:{ intros Hj%list_elem_of_lookup_2. rewrite Forall_forall in Hloop.
      by apply Hloop in Hj. }
  match goal with
  | |- context [(?k w1).2] => set (rest := (k w1).2)
  end.
  assert (Hrest : Forall (λ ev, ∀ ch em, ev = Send ch em →
                    em ∈ _make_achievement_embeds e contest_name achievements) rest).
  { unfold rest. apply bind_trace.
    - case_match; [|constructor]. apply suppress_trace.
      eapply Forall_impl; [apply update_ranks_no_send|]. by intros [] ?.
    - intros _ s'. case_match; [|constructor]. case_bool_decide; [|constructor].
      apply suppress_trace, for_each_trace. intros em s'' Hem.
      unfold send, call. destruct (fails e _); simpl;
        repeat constructor; by intros ch em' [= _ <-]. }
  rewrite lookup_app_Some. intros [Hj|[Hlen Hj]] Huid.
  { apply list_elem_of_lookup_2 in Hj. rewrite Forall_forall in Hloop.
    by apply Hloop in Hj. }
  apply list_elem_of_lookup_2 in Hj. rewrite Forall_forall in Hrest.
  specialize (Hrest _ Hj _ _ eq_refl).
  destruct (embeds_mention _ _ _ _ _ Hsound Hrest Huid) as (entry & Hentry & <-).
  destruct (Hacc _ eq_refl _ Hentry) as [Hnil|(ev & Hev & h & m & ρ & -> & Hok)].
  { by apply elem_of_nil in Hnil. }
  apply list_elem_of_lookup_1 in Hev as [i Hi].
  exists i, h, m, ρ. split; [|split; [|done]].
  - apply lookup_lt_Some in Hi. lia.
  - by apply lookup_app_l_Some.
Qed.

Lemma slices_upto_sound {A} fuel (l : list A) size page x :
  page ∈ Sample.slices_upto fuel l size → x ∈ page → x ∈ l.
Proof.
  revert l; induction fuel as [|fuel IH]; intros l; simpl.
  - by intros ?%elem_of_nil.
  - destruct l as [|y l]; [by intros ?%elem_of_nil|].
    intros [->|Hpage]%elem_of_cons Hx.
    + eapply elem_of_sublist; [exact Hx|apply sublist_take].
    + eapply elem_of_sublist; [by eapply IH|apply sublist_drop].
Qed.

Lemma sample_chunkify_sound : chunkify_sound Sample.env.
Proof. intros l size page x. apply slices_upto_sound. Qed.

(** C8 on the sample guild: the page that congratulates alice is the
    thirteenth call, after the write of her record. *)
Lemma persist_before_notify_witness :
  let t := (update_for_guild Sample.env Sample.guild "Round 1" Sample.changes
              Sample.world).2 in
  ∃ i h max_rating rank,
    (i < 12)%nat
    ∧ t !! i = Some (UpdateAchievement 1 (guild_id Sample.guild) h max_rating rank)
    ∧ fails Sample.env (UpdateAchievement 1 (guild_id Sample.guild) h max_rating rank)
      = false.
Proof.
  refine (persist_before_notify Sample.env Sample.guild "Round 1" Sample.changes
            Sample.world sample_chunkify_sound 12%nat 99%nat _ 1%nat _ _).
  - vm_compute. reflexivity.
  - apply (bool_decide_unpack _). vm_compute. reflexivity.
Defined.

(** * Part III: the rest of the cog *)

(** ** What a run of the role update can and cannot do *)

Lemma update_member_raises e g uid role reason held x :
  (update_member_rank_role e g uid role reason held).1.1 = Raise x →
  x = HTTPException
  ∧ ∃ ev, last (update_member_rank_role e g uid role reason held).2 = Some ev
          ∧ is_role_mutation ev = true ∧ fails e ev = true.
Proof.
  rewrite update_member_rank_role_run. cbv zeta.
  set (held_a := (checked e g uid role held).1).
  set (t_a := (checked e g uid role held).2).
  set (rs := to_remove e role held_a).
  destruct (bool_decide (rs ≠ [])) eqn:Hrs; simpl.
  - destruct (fails e (RemoveRoles uid rs reason)) eqn:Hf; simpl.
    + intros [= <-]. split; [done|]. eexists. rewrite last_app. simpl. done.
    + destruct (to_add role _) as [|a l] eqn:Ha; simpl; [done|].
      destruct (fails e (AddRoles _ _ _)) eqn:Hf2; simpl; [|done].
      intros [= <-]. split; [done|]. eexists. rewrite last_app. simpl. done.
  - destruct (to_add role _) as [|a l] eqn:Ha; simpl; [done|].
    destruct (fails e (AddRoles _ _ _)) eqn:Hf2; simpl; [|done].
    intros [= <-]. split; [done|]. eexists. rewrite last_app. simpl. done.
Qed.

Lemma update_member_events e g uid role reason held :
  Forall (λ ev, (Calls.member_of ev = Some uid ∨ ∃ h, ev = FetchRating h)
                ∧ Calls.is_ledger_write ev = false ∧ is_send ev = false)
    (update_member_rank_role e g uid role reason held).2.
Proof.
  assert (Ha : Forall (λ ev, (Calls.member_of ev = Some uid ∨ ∃ h, ev = FetchRating h)
                             ∧ Calls.is_ledger_write ev = false ∧ is_send ev = false)
                 (checked e g uid role held).2).
  { apply Forall_forall. intros ev Hev.
    destruct (checked_trace _ _ _ _ _ _ Hev) as [-> | [[h ->] | (tr & -> & _)]];
      simpl; eauto. }
  rewrite update_member_rank_role_run. cbv zeta.
  set (rs := to_remove e role _).
  destruct (bool_decide (rs ≠ [])); simpl.
  - destruct (fails e (RemoveRoles uid rs reason)); simpl.
    + apply Forall_app. split; [done|]. repeat constructor.
    + destruct (to_add role _) as [|a l]; simpl.
      * apply Forall_app. split; [done|]. repeat constructor.
      * destruct (fails e _); simpl; apply Forall_app; (split; [done|]);
          repeat constructor.
  - destruct (to_add role _) as [|a l]; simpl.
    + by rewrite app_nil_r.
    + destruct (fails e _); simpl; apply Forall_app; (split; [done|]);
        repeat constructor.
Qed.

Lemma assign_loop_cons e g r2r uid0 user0 l w :
  for_each ((uid0, user0) :: l) (assign_body e g r2r) w
  = let m := update_member_rank_role e g uid0 (assigned e r2r user0)
               "Codeforces rank update" (roles_of w uid0) in
    match m.1.1 with
    | Ok _ =>
        let out := for_each l (assign_body e g r2r) (set_roles uid0 m.1.2 w) in
        (out.1.1, out.1.2, m.2 ++ out.2)
    | Raise x => (Raise x, set_roles uid0 m.1.2 w, m.2)
    end.
Proof.
  rewrite for_each_cons. unfold assign_body at 1. rewrite on_member_run. simpl.
  destruct (_.1.1) as [[]|x]; [|done].
  by destruct (for_each l _ _) as [[? ?] ?].
Qed.

(** What the loop of [_update_ranks] issues and how it can end. *)
Lemma assign_loop_run e g r2r l w :
  let out := for_each l (assign_body e g r2r) w in
  Forall (λ ev, (∃ uid, Calls.member_of ev = Some uid ∧ uid ∈ l.*1)
                ∨ ∃ h, ev = FetchRating h) out.2
  ∧ Forall (λ ev, Calls.is_ledger_write ev = false ∧ is_send ev = false) out.2
  ∧ ∀ x, out.1.1 = Raise x →
      x = HTTPException
      ∧ ∃ ev, last out.2 = Some ev ∧ is_role_mutation ev = true ∧ fails e ev = true.
Proof.
  revert w; induction l as [|[uid0 user0] l IH]; intros w out.
  { subst out. simpl. split; [constructor|]. split; [constructor|]. done. }
  subst out. rewrite assign_loop_cons. cbv zeta.
  set (m := update_member_rank_role e g uid0 _ _ _).
  set (w1 := set_roles uid0 _ w).
  pose proof (update_member_events e g uid0 (assigned e r2r user0)
                "Codeforces rank update" (roles_of w uid0)) as Hev.
  pose proof (update_member_raises e g uid0 (assigned e r2r user0)
                "Codeforces rank update" (roles_of w uid0)) as Hraise.
  fold m in Hev, Hraise.
  assert (Hev1 : Forall (λ ev, (∃ uid, Calls.member_of ev = Some uid
                                       ∧ uid ∈ (uid0, user0).1 :: l.*1)
                               ∨ ∃ h, ev = FetchRating h) m.2).
  { eapply Forall_impl; [exact Hev|]. intros ev [[H|H] _]; [left|by right].
    exists uid0. split; [done|]. apply elem_of_cons. by left. }
  assert (Hev2 : Forall (λ ev, Calls.is_ledger_write ev = false ∧ is_send ev = false) m.2).
  { eapply Forall_impl; [exact Hev|]. by intros ev [_ H]. }
  destruct (m.1.1) as [[]|x] eqn:Hm.
  - specialize (IH w1). cbv zeta in IH.
    destruct (for_each l _ w1) as [[r2 w2] t2]. simpl in *.
    destruct IH as (IH1 & IH2 & IH3). split; [|split].
    + apply Forall_app. split; [done|].
      eapply Forall_impl; [exact IH1|]. intros ev [(uid & H1 & H2)|H]; [left|by right].
      exists uid. split; [done|]. apply elem_of_cons. by right.
    + apply Forall_app. done.
    + intros x Hx. destruct (IH3 x Hx) as (-> & ev & Hlast & H1 & H2).
      split; [done|]. exists ev. rewrite last_app, Hlast. done.
  - simpl. split; [done|]. split; [done|].
    intros x' [= <-]. by apply Hraise.
Qed.

Lemma update_ranks_no_member e g res w :
  member_handles_of w res = [] →
  _update_ranks e g res w = (Raise (HandleCogError HandlesNotSet), w, []).
Proof.
  intros Hmh. unfold _update_ranks.
  unfold mbind at 1. unfold M_bind at 1. unfold get_state at 1.
  by rewrite bool_decide_eq_true_2 by done.
Qed.

Lemma update_ranks_missing e g res w :
  member_handles_of w res ≠ [] →
  required_roles e (user_info e <$> (member_handles_of w res).*2)
    ∖ dom (run_r2r e g w res) ≠ ∅ →
  ∃ missing, _update_ranks e g res w
             = (Raise (HandleCogError (RolesNotPresent missing)), w, []).
Proof.
  intros Hmh Hmiss. eexists. unfold _update_ranks.
  unfold mbind at 1. unfold M_bind at 1. unfold get_state at 1.
  rewrite bool_decide_eq_false_2 by done.
  unfold run_r2r in Hmiss. by rewrite bool_decide_eq_true_2 by done.
Qed.

Lemma update_ranks_complete e g res w :
  member_handles_of w res ≠ [] →
  required_roles e (user_info e <$> (member_handles_of w res).*2)
    ∖ dom (run_r2r e g w res) = ∅ →
  _update_ranks e g res w
  = for_each (run_pairs e w res) (assign_body e g (run_r2r e g w res)) w.
Proof.
  intros Hmh Hmiss. apply update_ranks_loop; [done|].
  intros name Hname.
  destruct (decide (name ∈ dom (run_r2r e g w res))) as [|Hn]; [done|].
  exfalso. eapply (not_elem_of_empty (C:=gset string) name). rewrite <-Hmiss.
  apply elem_of_difference. done.
Qed.

(** How a run of [_update_ranks] in which [cf.user.info] answers can
    end. *)
Lemma update_ranks_ends e g res w :
  let out := _update_ranks e g res w in
  match out.1.1 with
  | Ok _ => True
  | Raise (HandleCogError _) => out.1.2 = w ∧ out.2 = []
  | Raise HTTPException =>
      ∃ ev, last out.2 = Some ev ∧ is_role_mutation ev = true ∧ fails e ev = true
  | Raise _ => False
  end.
Proof.
  intros out.
  destruct (decide (member_handles_of w res = [])) as [Hmh|Hmh].
  { subst out. by rewrite update_ranks_no_member. }
  destruct (decide
              (required_roles e (user_info e <$> (member_handles_of w res).*2)
               ∖ dom (run_r2r e g w res) = ∅)) as [Hmiss|Hmiss].
  - subst out. rewrite (update_ranks_complete e g res w Hmh Hmiss).
    set (out := for_each _ _ w).
    destruct (assign_loop_run e g (run_r2r e g w res) (run_pairs e w res) w)
      as (_ & _ & Hraise).
    fold out in Hraise. destruct (out.1.1) as [?|x]; [done|].
    destruct (Hraise x eq_refl) as (-> & Hev). done.
  - destruct (update_ranks_missing e g res w Hmh Hmiss) as [missing Heq].
    subst out. by rewrite Heq.
Qed.


(** X2.  Whatever its outcome, a run of [_update_ranks] leaves the
    ledger and the set of members as they were, leaves the roles of every
    user who is not listed in [res] as they were, and issues no call other
    than rating fetches and role calls and trusted checks on listed
    members: it writes no record and sends no message. *)
Theorem update_ranks_frame (e : Env) (g : Guild) (res : list (nat * string))
    (w : World) :
  let out := _update_ranks e g res w in
  ledger out.1.2 = ledger w
  ∧ (∀ uid, is_Some (member_roles out.1.2 !! uid) ↔ is_Some (member_roles w !! uid))
  ∧ (∀ uid, uid ∉ res.*1 → roles_of out.1.2 uid = roles_of w uid)
  ∧ Forall (λ ev, ((∃ uid, Calls.member_of ev = Some uid ∧ uid ∈ res.*1
                           ∧ is_Some (member_roles w !! uid))
                   ∨ ∃ h, ev = FetchRating h)
                  ∧ Calls.is_ledger_write ev = false ∧ is_send ev = false) out.2.
Proof.
  intros out.
  destruct (decide (member_handles_of w res = [])) as [Hmh|Hmh].
  { subst out. rewrite update_ranks_no_member by done. simpl.
    split; [done|]. split; [done|]. split; [done|]. constructor. }
  destruct (decide
              (required_roles e (user_info e <$> (member_handles_of w res).*2)
               ∖ dom (run_r2r e g w res) = ∅)) as [Hmiss|Hmiss].
  - subst out. rewrite (update_ranks_complete e g res w Hmh Hmiss).
    set (out := for_each _ _ w).
    destruct (assign_loop_run e g (run_r2r e g w res) (run_pairs e w res) w)
      as (Hev1 & Hev2 & _).
    fold out in Hev1, Hev2.
    assert (Hout : out = (out.1.1, out.1.2, out.2))
      by (clearbody out; by destruct out as [[? ?] ?]).
    destruct (loop_frame _ _ _ _ _ _ _ _ Hout) as (H1 & H2 & H3).
    assert (Hsub : ∀ uid, uid ∈ (run_pairs e w res).*1 →
                          uid ∈ res.*1 ∧ is_Some (member_roles w !! uid)).
    { intros uid. rewrite run_pairs_fst.
      intros ([uid' h] & -> & [Hm Hin]%list_elem_of_filter)%list_elem_of_fmap.
      split; [|done]. apply list_elem_of_fmap. by exists (uid', h). }
    split; [done|]. split; [done|]. split.
    + intros uid Hnin. apply H1. intros Hin. by apply Hnin, Hsub.
    + apply Forall_forall. intros ev Hin.
      rewrite Forall_forall in Hev1. rewrite Forall_forall in Hev2.
      split; [|by apply Hev2].
      destruct (Hev1 ev Hin) as [(uid & Hm & Huid)|H]; [left|by right].
      exists uid. split; [done|]. by apply Hsub.
  - destruct (update_ranks_missing e g res w Hmh Hmiss) as [missing Heq].
    subst out. rewrite Heq. simpl.
    split; [done|]. split; [done|]. split; [done|]. constructor.
Qed.

(** ** One member: what the two methods never do *)

Lemma grantable_Some e g uid h tr :
  grantable e g uid = Some (h, tr) →
  get_handle e uid (guild_id g) = Some h
  ∧ get_by_name (guild_roles g) (TLE_TRUSTED e) = Some tr
  ∧ ∃ changes, user_rating e h = cf.RatingChanges changes
               ∧ rated_1900_before_cutoff changes = true.
Proof.
  unfold grantable. intros H. repeat case_match; simplify_eq. eauto.
Qed.

Lemma rated_1900_before_cutoff_spec changes :
  rated_1900_before_cutoff changes = true
  ↔ ∃ c, c ∈ changes ∧ (1900 ≤ cf.newRating c)%Z
         ∧ (cf.ratingUpdateTimeSeconds c < cutoff_timestamp)%Z.
Proof.
  unfold rated_1900_before_cutoff. rewrite existsb_exists. split.
  - intros (c & Hin%list_elem_of_In & [H1%Z.leb_le H2%Z.ltb_lt]%andb_true_iff). eauto.
  - intros (c & Hin%list_elem_of_In & H1%Z.leb_le & H2%Z.ltb_lt).
    exists c. split; [done|]. by rewrite H1, H2.
Qed.

(** X3.  [maybe_add_trusted_role] never raises.  It leaves the roles of
    the member as they are, or appends the guild's Trusted role to them;
    it does the latter only for a member with a handle who does not hold
    the role and whose rating history has an entry of 1900 or more dated
    before the cutoff.  The only role call it can issue is the addition of
    that role. *)
Theorem trusted_role_only_granted (e : Env) (g : Guild) (uid : nat)
    (held : list Role) :
  ∃ held' t,
    maybe_add_trusted_role e g uid held = (Ok tt, held', t)
    ∧ (held' = held
       ∨ ∃ h tr changes c,
           held' = held ++ [tr] ∧ (tr ∉ held)
           ∧ get_handle e uid (guild_id g) = Some h
           ∧ get_by_name (guild_roles g) (TLE_TRUSTED e) = Some tr
           ∧ user_rating e h = cf.RatingChanges changes
           ∧ c ∈ changes ∧ (1900 ≤ cf.newRating c)%Z
           ∧ (cf.ratingUpdateTimeSeconds c < cutoff_timestamp)%Z)
    ∧ Forall (λ ev, is_role_mutation ev = true →
                    ∃ tr, ev = AddRoles uid [tr] trusted_reason
                          ∧ get_by_name (guild_roles g) (TLE_TRUSTED e) = Some tr
                          ∧ tr ∉ held) t.
Proof.
  destruct (grantable e g uid) as [[h tr]|] eqn:Hg.
  - destruct (grantable_Some _ _ _ _ _ Hg) as (Hh & Htr & changes & Hr & Hc).
    apply rated_1900_before_cutoff_spec in Hc as (c & Hc1 & Hc2 & Hc3).
    destruct (decide (tr ∈ held)) as [Hin|Hin].
    + rewrite (trusted_held _ _ _ _ _ _ Hg Hin). eexists _, _. split; [done|].
      split; [by left|]. repeat constructor; done.
    + rewrite (trusted_grant _ _ _ _ _ _ Hg Hin). eexists _, _. split; [done|].
      split.
      * destruct (fails e _); [by left|]. right. eexists h, tr, changes, c. done.
      * repeat constructor; try done. intros _. eauto.
  - destruct (trusted_no_grant e g uid held Hg) as (t & -> & Ht).
    eexists _, _. split; [done|]. split; [by left|].
    constructor; [done|]. eapply Forall_impl; [exact Ht|]. by intros ev [h ->].
Qed.

Lemma filter_ext_elem {A} (P Q : A → Prop) `{∀ x, Decision (P x)}
    `{∀ x, Decision (Q x)} (l : list A) :
  (∀ x, x ∈ l → P x ↔ Q x) → filter P l = filter Q l.
Proof.
  induction l as [|x l IH]; intros Hext; [done|].
  rewrite !filter_cons. rewrite IH.
  2:{ intros y Hy. apply Hext, elem_of_cons. by right. }
  destruct (decide (P x)) as [HP|HP], (decide (Q x)) as [HQ|HQ]; try done.
  - exfalso. apply HQ, Hext; [apply elem_of_cons; by left|done].
  - exfalso. apply HP, Hext; [apply elem_of_cons; by left|done].
Qed.

(** X4.  Whatever its outcome, [update_member_rank_role] keeps every
    role of the member that is named neither after a rank nor Purgatory,
    keeps every role that has the name of the role to assign (a name
    other than Purgatory), and gives
    the member no role other than the role to assign and a role named
    Trusted. *)
Theorem rank_update_keeps_other_roles (e : Env) (g : Guild) (uid : nat)
    (role_to_assign : option Role) (reason : string) (held : list Role) :
  let out := update_member_rank_role e g uid role_to_assign reason held in
  (∀ r, r ∈ held → role_name r ∉ cf.rank_titles (RATED_RANKS e) →
        role_name r ≠ TLE_PURGATORY e → r ∈ out.1.2)
  ∧ (∀ r ρ, r ∈ held → role_to_assign = Some ρ → role_name r = role_name ρ →
            role_name ρ ≠ TLE_PURGATORY e → r ∈ out.1.2)
  ∧ (∀ r, r ∈ out.1.2 →
          r ∈ held ∨ role_to_assign = Some r ∨ role_name r = TLE_TRUSTED e).
Proof.
  intros out. subst out. rewrite update_member_rank_role_run. cbv zeta.
  set (held_a := (checked e g uid role_to_assign held).1).
  set (held_b := kept e role_to_assign held_a).
  assert (Ha1 : ∀ r, r ∈ held → r ∈ held_a).
  { unfold held_a. destruct (above_expert role_to_assign) eqn:Hab.
    - destruct (checked_high e g uid role_to_assign held Hab) as (? & _ & H & _). done.
    - by rewrite checked_low. }
  assert (Ha2 : ∀ r, r ∈ held_a → r ∈ held ∨ role_name r = TLE_TRUSTED e).
  { unfold held_a. destruct (above_expert role_to_assign) eqn:Hab.
    - destruct (checked_high e g uid role_to_assign held Hab) as (? & _ & _ & H & _).
      done.
    - rewrite checked_low by done. by left. }
  assert (Hb1 : ∀ r, r ∈ held_a → role_name r ∉ cf.rank_titles (RATED_RANKS e) →
                     role_name r ≠ TLE_PURGATORY e → r ∈ held_b).
  { intros r Hr Ht Hp. apply elem_of_kept. split; [done|].
    rewrite elem_of_role_names_to_remove. intros [[? _]|[_ ?]]; done. }
  assert (Hb2 : ∀ r ρ, r ∈ held_a → role_to_assign = Some ρ →
                       role_name r = role_name ρ →
                       role_name ρ ≠ TLE_PURGATORY e → r ∈ held_b).
  { intros r ρ Hr -> Hn Hp. apply elem_of_kept. split; [done|].
    rewrite elem_of_role_names_to_remove. intros [[_ Hne]|[_ Heq]].
    - by eapply Hne.
    - congruence. }
  assert (Hb3 : ∀ r, r ∈ held_b → r ∈ held_a).
  { intros r Hr. by apply elem_of_kept in Hr as [? _]. }
  assert (Hadd : ∀ r, r ∈ to_add role_to_assign held_b → role_to_assign = Some r).
  { unfold to_add. destruct role_to_assign as [ρ|]; [|by intros r ?%elem_of_nil].
    case_bool_decide; intros r Hr; [|by apply elem_of_nil in Hr].
    by apply list_elem_of_singleton in Hr as ->. }
  destruct (_ && _).
  { simpl. split; [|split]; [eauto..|]. intros r Hr. destruct (Ha2 r Hr); eauto. }
  destruct (to_add role_to_assign held_b) as [|a l] eqn:Hta.
  { simpl. split; [|split]; [eauto..|].
    intros r Hr. destruct (Ha2 r (Hb3 r Hr)); eauto. }
  destruct (fails e _); simpl.
  - split; [|split]; [eauto..|].
    intros r Hr. destruct (Ha2 r (Hb3 r Hr)); eauto.
  - split; [|split].
    + intros r H1 H2 H3. apply elem_of_app. left. eauto.
    + intros r ρ H1 H2 H3 H4. apply elem_of_app. left. eauto.
    + intros r [Hr|Hr]%elem_of_app; [|right; left; by apply Hadd].
      destruct (Ha2 r (Hb3 r Hr)); eauto.
Qed.

(** X5.  With no role to assign, as when a handle is unlinked,
    [update_member_rank_role] issues at most one call: when the member
    holds roles named after ranks, it removes exactly those, and the
    member is left with the other roles, in their order; when the member
    holds none, nothing is called.  The trusted check does not run and
    Purgatory is not lifted. *)
Theorem unlink_strips_rank_roles (e : Env) (g : Guild) (uid : nat)
    (reason : string) (held : list Role) :
  let rank_roles :=
    filter (λ r, role_name r ∈ cf.rank_titles (RATED_RANKS e)) held in
  let others :=
    filter (λ r, role_name r ∉ cf.rank_titles (RATED_RANKS e)) held in
  update_member_rank_role e g uid None reason held
  = if bool_decide (rank_roles ≠ [])
    then
      if fails e (RemoveRoles uid rank_roles reason)
      then (Raise HTTPException, held, [RemoveRoles uid rank_roles reason])
      else (Ok tt, others, [RemoveRoles uid rank_roles reason])
    else (Ok tt, held, []).
Proof.
  intros rank_roles others.
  rewrite update_member_rank_role_run. cbv zeta.
  rewrite checked_low by done. simpl.
  assert (Hrs : to_remove e None held = rank_roles).
  { unfold to_remove, rank_roles. apply filter_ext_elem. intros r _.
    rewrite elem_of_role_names_to_remove. simpl. naive_solver. }
  assert (Hk : kept e None held = others).
  { unfold kept, others. apply filter_ext_elem. intros r Hr.
    rewrite elem_of_to_remove, elem_of_role_names_to_remove. simpl. naive_solver. }
  rewrite Hrs, Hk.
  case_bool_decide as Hne; simpl.
  - by destruct (fails e _).
  - f_equal. f_equal. rewrite <-Hk. apply kept_nil. rewrite Hrs.
    first [done | by apply dec_stable].
Qed.

(** ** The ledger pass of a rating change event *)

(** The record an observation leaves, in terms of the rule of the loop. *)
Lemma observe_written ranks (R : Ledger.Entry) r :
  Ledger.observe ranks R r
  = match Ledger.written
            (Ledger.check_achievement (cf.rank_titles ranks) R.1 R.2 r
               (cf.tier_title (cf.rating2rank ranks (Some r)))) with
    | Some (m, t) => (Some m, Some t)
    | None => R
    end.
Proof. done. Qed.

(** An observation that leaves the record as it is has written nothing. *)
Lemma observe_fix_written ranks (R : Ledger.Entry) r :
  Ledger.observe ranks R r = R →
  Ledger.written
    (Ledger.check_achievement (cf.rank_titles ranks) R.1 R.2 r
       (cf.tier_title (cf.rating2rank ranks (Some r)))) = None.
Proof.
  destruct R as [om oold]. ledger_unfold. intros H.
  ledger_split; try done; try lia; try congruence.
Qed.

Lemma achievements_loop_run e g changes pairs acc w :
  let out := achievements_loop e g changes pairs acc w in
  member_roles out.1.2 = member_roles w
  ∧ (∀ k, k.2 ≠ guild_id g ∨ k.1 ∉ pairs.*1 → ledger out.1.2 !! k = ledger w !! k)
  ∧ Forall (λ ev, ∃ uid h m t,
                    ev = UpdateAchievement uid (guild_id g) h m t
                    ∧ (uid, h) ∈ pairs
                    ∧ is_Some (member_roles w !! uid)
                    ∧ is_Some (changes !! h)) out.2
  ∧ match out.1.1 with
    | Ok _ => Forall (λ ev, fails e ev = false) out.2
    | Raise x =>
        x = DataBaseError
        ∧ ∃ ev, last out.2 = Some ev ∧ fails e ev = true
    end.
Proof.
  revert acc w; induction pairs as [|[uid0 h0] pairs IH]; intros acc w out.
  { subst out. simpl. repeat split; constructor. }
  assert (Hskip : ∀ acc1,
            out = achievements_loop e g changes pairs acc1 w →
            member_roles out.1.2 = member_roles w
            ∧ (∀ k, k.2 ≠ guild_id g ∨ k.1 ∉ ((uid0, h0) :: pairs).*1 →
                    ledger out.1.2 !! k = ledger w !! k)
            ∧ Forall (λ ev, ∃ uid h m t,
                        ev = UpdateAchievement uid (guild_id g) h m t
                        ∧ (uid, h) ∈ (uid0, h0) :: pairs
                        ∧ is_Some (member_roles w !! uid)
                        ∧ is_Some (changes !! h)) out.2
            ∧ match out.1.1 with
              | Ok _ => Forall (λ ev, fails e ev = false) out.2
              | Raise x =>
                  x = DataBaseError
                  ∧ ∃ ev, last out.2 = Some ev ∧ fails e ev = true
              end).
  { intros acc1 ->. destruct (IH acc1 w) as (H1 & H2 & H3 & H4).
    split; [done|]. split; [|split; [|done]].
    - intros k [Hk|Hk]; apply H2; [by left|right].
      intros Hin. apply Hk. simpl. apply elem_of_cons. by right.
    - eapply Forall_impl; [exact H3|].
      intros ev (uid & h & m & t & -> & Hin & Hm & Hc).
      eexists _, _, _, _. split; [done|]. split; [|done].
      apply elem_of_cons. by right. }
  pose proof (achievements_loop_cons e g changes uid0 h0 pairs acc w) as Hcons.
  fold out in Hcons.
  destruct (member_roles w !! uid0) as [held|] eqn:Hmem; [|by eapply Hskip].
  destruct (changes !! h0) as [change|] eqn:Hch; [|by eapply Hskip].
  cbv zeta in Hcons.
  destruct (Ledger.written _) as [[current_max current_highest_rank]|] eqn:Hwr;
    [|by eapply Hskip].
  set (ev := UpdateAchievement uid0 (guild_id g) h0 current_max current_highest_rank)
    in *.
  assert (Hev : ∃ uid h m t,
             ev = UpdateAchievement uid (guild_id g) h m t
             ∧ (uid, h) ∈ (uid0, h0) :: pairs
             ∧ is_Some (member_roles w !! uid)
             ∧ is_Some (changes !! h)).
  { eexists _, _, _, _. split; [done|]. split; [apply elem_of_cons; by left|].
    rewrite Hmem, Hch. eauto. }
  destruct (fails e ev) eqn:Hf.
  { rewrite Hcons. simpl. split; [done|]. split; [done|].
    split; [by repeat constructor|]. split; [done|]. by exists ev. }
  set (w1 := {| member_roles := member_roles w;
                ledger := <[(uid0, guild_id g) :=
                             (Some current_max, Some current_highest_rank)]> (ledger w) |})
    in *.
  match type of Hcons with
  | _ = (_, _, ev :: (achievements_loop _ _ _ _ ?a _).2) => set (acc1 := a) in *
  end.
  destruct (IH acc1 w1) as (H1 & H2 & H3 & H4).
  rewrite Hcons. simpl. split; [done|]. split; [|split].
  - intros k Hk. rewrite H2.
    + unfold w1. simpl. apply lookup_insert_ne. intros <-. simpl in Hk.
      destruct Hk as [Hk|Hk]; [done|]. apply Hk, elem_of_cons. by left.
    + destruct Hk as [Hk|Hk]; [by left|right].
      intros Hin. apply Hk. simpl. apply elem_of_cons. by right.
  - constructor; [done|]. eapply Forall_impl; [exact H3|].
    intros ev' (uid & h & m & t & -> & Hin & Hm & Hc).
    eexists _, _, _, _. split; [done|]. split; [|done].
    apply elem_of_cons. by right.
  - destruct ((achievements_loop e g changes pairs acc1 w1).1.1) as [?|x].
    + by constructor.
    + destruct H4 as (-> & ev' & Hlast & Hf'). split; [done|]. exists ev'.
      split; [|done]. rewrite last_cons, Hlast. done.
Qed.

(** X6.  Whatever its outcome, [_check_and_update_achievements] leaves
    the roles of every member as they were and the records of every other
    guild and of every user who is not listed as they were.  The only calls
    it issues are writes of records of its guild, each for a listed member
    of the guild whose handle has a rating change.  It can only raise the
    error of a write that the data base rejected, that write being the last
    call issued; when it returns, every write went through. *)
Theorem achievements_pass_frame (e : Env) (g : Guild)
    (change_by_handle : gmap string cf.RatingChange) (w : World) :
  let out := _check_and_update_achievements e g change_by_handle w in
  let pairs := get_handles_for_guild e (guild_id g) in
  member_roles out.1.2 = member_roles w
  ∧ (∀ uid gid, gid ≠ guild_id g ∨ uid ∉ pairs.*1 →
        get_user_achievement out.1.2 uid gid = get_user_achievement w uid gid)
  ∧ Forall (λ ev, ∃ uid h m t,
                    ev = UpdateAchievement uid (guild_id g) h m t
                    ∧ (uid, h) ∈ pairs
                    ∧ is_Some (member_roles w !! uid)
                    ∧ is_Some (change_by_handle !! h)) out.2
  ∧ match out.1.1 with
    | Ok _ => Forall (λ ev, fails e ev = false) out.2
    | Raise x =>
        x = DataBaseError
        ∧ ∃ ev, last out.2 = Some ev ∧ fails e ev = true
    end.
Proof.
  intros out pairs.
  destruct (achievements_loop_run e g change_by_handle pairs [] w)
    as (H1 & H2 & H3 & H4).
  split; [done|]. split; [|done].
  intros uid gid Hk. unfold get_user_achievement.
  fold pairs in H2. unfold out, _check_and_update_achievements. fold pairs.
  by rewrite (H2 (uid, gid)).
Qed.

Lemma achievements_loop_records e g changes pairs acc w acc' w' t :
  NoDup pairs.*1 →
  achievements_loop e g changes pairs acc w = (Ok acc', w', t) →
  ∀ uid h, (uid, h) ∈ pairs →
    get_user_achievement w' uid (guild_id g)
    = match member_roles w !! uid, changes !! h with
      | Some _, Some c =>
          Ledger.observe (RATED_RANKS e) (get_user_achievement w uid (guild_id g))
            (cf.newRating c)
      | _, _ => get_user_achievement w uid (guild_id g)
      end.
Proof.
  revert acc w acc' w' t; induction pairs as [|[uid0 h0] pairs IH];
    intros acc w acc' w' t Hnd Hrun uid h Hin.
  { by apply elem_of_nil in Hin. }
  apply NoDup_cons in Hnd as [Hnin Hnd].
  assert (Hframe : ∀ acc1 w1,
            (achievements_loop e g changes pairs acc1 w1).1.2 = w' →
            get_user_achievement w' uid0 (guild_id g)
            = get_user_achievement w1 uid0 (guild_id g)).
  { intros acc1 w1 Hw.
    destruct (achievements_loop_run e g changes pairs acc1 w1) as (_ & H2 & _).
    unfold get_user_achievement.
    rewrite <-Hw. rewrite (H2 (uid0, guild_id g)); [done|]. by right. }
  assert (Hrest : ∀ acc1 w1,
            member_roles w1 = member_roles w →
            (∀ uid', uid' ≠ uid0 →
               get_user_achievement w1 uid' (guild_id g)
               = get_user_achievement w uid' (guild_id g)) →
            (achievements_loop e g changes pairs acc1 w1).1.1 = Ok acc' →
            (achievements_loop e g changes pairs acc1 w1).1.2 = w' →
            (uid, h) ∈ pairs →
            get_user_achievement w' uid (guild_id g)
            = match member_roles w !! uid, changes !! h with
              | Some _, Some c =>
                  Ledger.observe (RATED_RANKS e)
                    (get_user_achievement w uid (guild_id g)) (cf.newRating c)
              | _, _ => get_user_achievement w uid (guild_id g)
              end).
  { intros acc1 w1 Hm Hg Hr1 Hr2 Hin'.
    assert (Hne : uid ≠ uid0).
    { intros ->. apply Hnin. apply list_elem_of_fmap. by exists (uid0, h). }
    rewrite <-Hm, <-(Hg uid Hne).
    eapply (IH acc1 w1 acc' w' (achievements_loop e g changes pairs acc1 w1).2);
      [done| |done].
    destruct (achievements_loop e g changes pairs acc1 w1) as [[? ?] ?].
    simpl in *. by subst. }
  rewrite achievements_loop_cons in Hrun.
  apply elem_of_cons in Hin as [[= -> ->]|Hin].
  - (* the head *)
    destruct (member_roles w !! uid0) as [held|] eqn:Hmem.
    2:{ eapply Hframe. by rewrite Hrun. }
    destruct (changes !! h0) as [change|] eqn:Hch.
    2:{ eapply Hframe. by rewrite Hrun. }
    cbv zeta in Hrun. rewrite observe_written.
    destruct (Ledger.written _) as [[current_max current_highest_rank]|] eqn:Hwr.
    2:{ eapply Hframe. by rewrite Hrun. }
    destruct (fails e _); [done|].
    injection Hrun as H1 H2 H3.
    erewrite Hframe; [|exact H2].
    unfold get_user_achievement. simpl. by rewrite lookup_insert_eq.
  - destruct (member_roles w !! uid0) as [held|] eqn:Hmem.
    2:{ eapply Hrest; [done|done|by rewrite Hrun|by rewrite Hrun|done]. }
    destruct (changes !! h0) as [change|] eqn:Hch.
    2:{ eapply Hrest; [done|done|by rewrite Hrun|by rewrite Hrun|done]. }
    cbv zeta in Hrun.
    destruct (Ledger.written _) as [[current_max current_highest_rank]|] eqn:Hwr.
    2:{ eapply Hrest; [done|done|by rewrite Hrun|by rewrite Hrun|done]. }
    destruct (fails e _); [done|].
    injection Hrun as H1 H2 H3.
    eapply Hrest; [| |exact H1|exact H2|done]; [done|].
    intros uid' Hne. unfold get_user_achievement. simpl.
    rewrite lookup_insert_ne; [done|]. congruence.
Qed.

(** X7.  After a pass of [_check_and_update_achievements] that returns,
    over pairs that list no user twice, what the data base holds for a
    listed user is the old record of a user who is not in the guild or
    whose handle has no rating change, and for a member whose handle has
    one it is the record the rule computes from the old record and the new
    rating. *)
Theorem achievements_pass_records (e : Env) (g : Guild)
    (change_by_handle : gmap string cf.RatingChange) (w w' : World)
    (achievements : list (nat * AchievementInfo)) (t : list Event) :
  NoDup (get_handles_for_guild e (guild_id g)).*1 →
  _check_and_update_achievements e g change_by_handle w = (Ok achievements, w', t) →
  ∀ uid h, (uid, h) ∈ get_handles_for_guild e (guild_id g) →
    get_user_achievement w' uid (guild_id g)
    = match member_roles w !! uid, change_by_handle !! h with
      | Some _, Some change =>
          Ledger.observe (RATED_RANKS e) (get_user_achievement w uid (guild_id g))
            (cf.newRating change)
      | _, _ => get_user_achievement w uid (guild_id g)
      end.
Proof.
  intros Hnd Hrun uid h Hin. by eapply achievements_loop_records.
Qed.

(** X7 on the sample guild: after the contest, alice's record is the one
    observed from no record and the rating 1650. *)
Lemma achievements_pass_records_witness :
  let out := _check_and_update_achievements Sample.env Sample.guild Sample.changes
               Sample.world in
  get_user_achievement out.1.2 1 7 = (Some 1650%Z, Some "Expert").
Proof.
  intros out.
  apply (achievements_pass_records Sample.env Sample.guild Sample.changes
           Sample.world out.1.2 (Calls.returned [] out.1.1) out.2
           ltac:(apply (bool_decide_unpack _); vm_compute; reflexivity)
           ltac:(vm_compute; reflexivity) 1%nat "alice"
           ltac:(apply (bool_decide_unpack _); vm_compute; reflexivity)).
Defined.

Lemma achievements_loop_silent e g changes pairs acc w :
  (∀ uid h c, (uid, h) ∈ pairs → is_Some (member_roles w !! uid) →
     changes !! h = Some c →
     Ledger.observe (RATED_RANKS e) (get_user_achievement w uid (guild_id g))
       (cf.newRating c)
     = get_user_achievement w uid (guild_id g)) →
  achievements_loop e g changes pairs acc w = (Ok acc, w, []).
Proof.
  induction pairs as [|[uid0 h0] pairs IH]; intros Hfix; [done|].
  rewrite achievements_loop_cons.
  assert (Hrest : achievements_loop e g changes pairs acc w = (Ok acc, w, [])).
  { apply IH. intros uid h c Hin. apply Hfix, elem_of_cons. by right. }
  destruct (member_roles w !! uid0) as [held|] eqn:Hmem; [|done].
  destruct (changes !! h0) as [change|] eqn:Hch; [|done].
  cbv zeta.
  rewrite (observe_fix_written (RATED_RANKS e)
             (get_user_achievement w uid0 (guild_id g)) (cf.newRating change)); [done|].
  apply (Hfix uid0 h0 change); [apply elem_of_cons; by left| |done].
  by rewrite Hmem.
Qed.

(** X8.  Delivering the same rating changes again is silent: after a
    pass that returned, over pairs that list no user twice, a second pass
    with the same changes writes no record, returns no achievement and
    leaves the data base as it is. *)
Theorem achievements_rerun_silent (e : Env) (g : Guild)
    (change_by_handle : gmap string cf.RatingChange) (w w1 : World)
    (achievements : list (nat * AchievementInfo)) (t1 : list Event) :
  cf.table_wf (RATED_RANKS e) →
  NoDup (get_handles_for_guild e (guild_id g)).*1 →
  _check_and_update_achievements e g change_by_handle w = (Ok achievements, w1, t1) →
  _check_and_update_achievements e g change_by_handle w1 = (Ok [], w1, []).
Proof.
  intros Hwf Hnd Hrun. apply achievements_loop_silent.
  intros uid h c Hin Hmem Hc.
  pose proof (achievements_loop_run e g change_by_handle
                (get_handles_for_guild e (guild_id g)) [] w) as (Hroles & _).
  fold (_check_and_update_achievements e g change_by_handle) in Hroles.
  rewrite Hrun in Hroles. simpl in Hroles.
  rewrite (achievements_loop_records _ _ _ _ _ _ _ _ _ Hnd Hrun uid h Hin).
  rewrite <-Hroles. destruct Hmem as [held ->]. rewrite Hc.
  by apply observe_lower_again.
Qed.

(** X8 on the sample guild. *)
Lemma achievements_rerun_silent_witness :
  let out := _check_and_update_achievements Sample.env Sample.guild Sample.changes
               Sample.world in
  _check_and_update_achievements Sample.env Sample.guild Sample.changes out.1.2
  = (Ok [], out.1.2, []).
Proof.
  intros out.
  apply (achievements_rerun_silent Sample.env Sample.guild Sample.changes
           Sample.world out.1.2 (Calls.returned [] out.1.1) out.2
           sample_ranks_wf
           ltac:(apply (bool_decide_unpack _); vm_compute; reflexivity)
           ltac:(vm_compute; reflexivity)).
Defined.

Lemma written_flags rank_order old_max old_rank r rank m t :
  Ledger.written (Ledger.check_achievement rank_order old_max old_rank r rank)
  = Some (m, t) →
  Ledger.is_new_max (Ledger.check_achievement rank_order old_max old_rank r rank)
  || Ledger.is_new_rank (Ledger.check_achievement rank_order old_max old_rank r rank)
  = true.
Proof.
  unfold Ledger.check_achievement. repeat case_match; simpl; intros; simplify_eq; done.
Qed.

Lemma achievement_message_flags entry :
  info_is_new_max entry.2 || info_is_new_rank entry.2 = true →
  is_Some (achievement_message entry).
Proof.
  unfold achievement_message.
  destruct (info_is_new_max entry.2), (info_is_new_rank entry.2); simpl; try done;
    intros _; rewrite bool_decide_eq_true_2 by done; eauto.
Qed.

Lemma omap_length_all {A B} (f : A → option B) (l : list A) :
  Forall (λ x, is_Some (f x)) l → length (omap f l) = length l.
Proof.
  induction 1 as [|x l [y Hy] _ IH]; [done|]. simpl. rewrite Hy. simpl. by f_equal.
Qed.

Lemma achievements_loop_entries e g changes pairs acc w acc' :
  (achievements_loop e g changes pairs acc w).1.1 = Ok acc' →
  ∃ new, acc' = acc ++ new
    ∧ new.*1 `sublist_of` pairs.*1
    ∧ Forall (λ entry,
        (entry.1, info_handle entry.2) ∈ pairs
        ∧ (∃ c, changes !! info_handle entry.2 = Some c
                ∧ info_new_rating entry.2 = cf.newRating c)
        ∧ (1200 ≤ info_new_rating entry.2)%Z
        ∧ info_new_rank entry.2
          = cf.tier_title (cf.rating2rank (RATED_RANKS e)
                             (Some (info_new_rating entry.2)))
        ∧ info_is_new_max entry.2 || info_is_new_rank entry.2 = true) new.
Proof.
  revert acc w acc'; induction pairs as [|[uid0 h0] pairs IH]; intros acc w acc'.
  { simpl. intros [= <-]. exists []. rewrite app_nil_r. repeat split; constructor. }
  assert (Hskip : ∀ acc1 w1 new1,
     acc1 = acc ++ new1 →
     new1.*1 `sublist_of` [uid0] →
     Forall (λ entry,
        (entry.1, info_handle entry.2) ∈ (uid0, h0) :: pairs
        ∧ (∃ c, changes !! info_handle entry.2 = Some c
                ∧ info_new_rating entry.2 = cf.newRating c)
        ∧ (1200 ≤ info_new_rating entry.2)%Z
        ∧ info_new_rank entry.2
          = cf.tier_title (cf.rating2rank (RATED_RANKS e)
                             (Some (info_new_rating entry.2)))
        ∧ info_is_new_max entry.2 || info_is_new_rank entry.2 = true) new1 →
     (achievements_loop e g changes pairs acc1 w1).1.1 = Ok acc' →
     ∃ new, acc' = acc ++ new
       ∧ new.*1 `sublist_of` ((uid0, h0) :: pairs).*1
       ∧ Forall (λ entry,
           (entry.1, info_handle entry.2) ∈ (uid0, h0) :: pairs
           ∧ (∃ c, changes !! info_handle entry.2 = Some c
                   ∧ info_new_rating entry.2 = cf.newRating c)
           ∧ (1200 ≤ info_new_rating entry.2)%Z
           ∧ info_new_rank entry.2
             = cf.tier_title (cf.rating2rank (RATED_RANKS e)
                                (Some (info_new_rating entry.2)))
           ∧ info_is_new_max entry.2 || info_is_new_rank entry.2 = true) new).
  { intros acc1 w1 new1 -> Hsub1 Hall1 Hr.
    destruct (IH _ _ _ Hr) as (new & -> & Hsub & Hall).
    exists (new1 ++ new). split; [by rewrite app_assoc|]. split.
    - rewrite fmap_app. by apply (sublist_app _ [uid0]).
    - apply Forall_app. split; [done|].
      eapply Forall_impl; [exact Hall|]. intros entry (H1 & H2).
      split; [|done]. apply elem_of_cons. by right. }
  rewrite achievements_loop_cons.
  destruct (member_roles w !! uid0) as [held|] eqn:Hmem.
  2:{ apply (Hskip acc w []); [by rewrite app_nil_r|apply sublist_nil_l|constructor]. }
  destruct (changes !! h0) as [change|] eqn:Hch.
  2:{ apply (Hskip acc w []); [by rewrite app_nil_r|apply sublist_nil_l|constructor]. }
  cbv zeta.
  destruct (Ledger.written _) as [[current_max current_highest_rank]|] eqn:Hwr.
  2:{ apply (Hskip acc w []); [by rewrite app_nil_r|apply sublist_nil_l|constructor]. }
  destruct (fails e _); [done|]. simpl.
  destruct (1200 <=? cf.newRating change)%Z eqn:Hpupil.
  - eapply Hskip; [reflexivity|done|].
    constructor; [|constructor]. simpl.
    split; [apply elem_of_cons; by left|]. split; [eauto|].
    split; [by apply Z.leb_le|]. split; [done|].
    by eapply written_flags.
  - apply (Hskip acc _ []); [by rewrite app_nil_r|apply sublist_nil_l|constructor].
Qed.

(** X9.  The achievements returned by [_check_and_update_achievements]
    follow the order of the listed pairs, with at most one entry for each
    pair.  Each entry is for a listed user whose handle has a rating change,
    carries the new rating of that change and the rank of that rating, is
    for a rating of 1200 or more and has one of its two flags set; so
    [_make_achievement_embeds] writes a message for every one of them. *)
Theorem achievements_all_announced (e : Env) (g : Guild)
    (change_by_handle : gmap string cf.RatingChange) (w : World) :
  let out := _check_and_update_achievements e g change_by_handle w in
  let achievements := Calls.returned [] out.1.1 in
  achievements.*1 `sublist_of` (get_handles_for_guild e (guild_id g)).*1
  ∧ Forall (λ entry,
      (entry.1, info_handle entry.2) ∈ get_handles_for_guild e (guild_id g)
      ∧ (∃ change, change_by_handle !! info_handle entry.2 = Some change
                   ∧ info_new_rating entry.2 = cf.newRating change)
      ∧ (1200 ≤ info_new_rating entry.2)%Z
      ∧ info_new_rank entry.2
        = cf.tier_title (cf.rating2rank (RATED_RANKS e)
                           (Some (info_new_rating entry.2)))
      ∧ info_is_new_max entry.2 || info_is_new_rank entry.2 = true) achievements
  ∧ length (omap achievement_message achievements) = length achievements.
Proof.
  intros out achievements. subst achievements.
  destruct (out.1.1) as [acc|x] eqn:Hout; simpl.
  2:{ split; [apply sublist_nil_l|]. split; [constructor|done]. }
  destruct (achievements_loop_entries _ _ _ _ _ _ _ Hout) as (new & -> & Hsub & Hall).
  simpl. split; [done|]. split; [done|].
  apply omap_length_all. eapply Forall_impl; [exact Hall|].
  intros entry (_ & _ & _ & _ & Hflags). by apply achievement_message_flags.
Qed.

Lemma achievements_loop_inv e g changes pairs acc w :
  (∀ k R, ledger w !! k = Some R → Ledger.ledger_inv (RATED_RANKS e) R) →
  ∀ k R, ledger (achievements_loop e g changes pairs acc w).1.2 !! k = Some R →
         Ledger.ledger_inv (RATED_RANKS e) R.
Proof.
  revert acc w; induction pairs as [|[uid0 h0] pairs IH]; intros acc w Hinv; [done|].
  rewrite achievements_loop_cons.
  destruct (member_roles w !! uid0) as [held|] eqn:Hmem; [|by apply IH].
  destruct (changes !! h0) as [change|] eqn:Hch; [|by apply IH].
  cbv zeta.
  destruct (Ledger.written _) as [[current_max current_highest_rank]|] eqn:Hwr;
    [|by apply IH].
  destruct (fails e _); [done|]. simpl. apply IH. simpl.
  intros k R. destruct (decide (k = (uid0, guild_id g))) as [->|Hne].
  - rewrite lookup_insert_eq. intros [= <-].
    pose proof (observe_inv (RATED_RANKS e) (get_user_achievement w uid0 (guild_id g))
                  (cf.newRating change)) as Hobs.
    rewrite observe_written, Hwr in Hobs. apply Hobs.
    unfold get_user_achievement.
    destruct (ledger w !! (uid0, guild_id g)) as [R0|] eqn:HR0; simpl; [|done].
    by eapply Hinv.
  - rewrite lookup_insert_ne by done. apply Hinv.
Qed.

(** X10.  [_check_and_update_achievements] keeps the invariant of the
    ledger under which the stored values never decrease: when every record
    of the data base holds a rating other than zero, or a rank that covers
    its rating, so does every record after the pass, whatever its
    outcome. *)
Theorem achievements_keep_ledger_inv (e : Env) (g : Guild)
    (change_by_handle : gmap string cf.RatingChange) (w : World) :
  (∀ k R, ledger w !! k = Some R → Ledger.ledger_inv (RATED_RANKS e) R) →
  ∀ k R,
    ledger (_check_and_update_achievements e g change_by_handle w).1.2 !! k = Some R →
    Ledger.ledger_inv (RATED_RANKS e) R.
Proof. apply achievements_loop_inv. Qed.

(** X10 on the sample guild: alice's record after the contest. *)
Lemma achievements_keep_ledger_inv_witness :
  Ledger.ledger_inv cf.sample_ranks (Some 1650%Z, Some "Expert").
Proof.
  apply (achievements_keep_ledger_inv Sample.env Sample.guild Sample.changes
           Sample.world
           ltac:(intros k R H; vm_compute in H; discriminate H)
           (1%nat, 7%nat)).
  vm_compute. reflexivity.
Defined.

(** ** The pipeline of a rating change event *)

Lemma suppress_run {S} (m : M S unit) (s : S) :
  suppress m s
  = match (m s).1.1 with
    | Raise (HandleCogError _) => (Ok tt, (m s).1.2, (m s).2)
    | _ => m s
    end.
Proof.
  unfold suppress, try_except. destruct (m s) as [[[[]|x] s1] t1]; simpl; [done|].
  destruct x; simpl; try done. by rewrite app_nil_r.
Qed.

Lemma send_loop_cons e channel embed embeds w :
  for_each (embed :: embeds) (send e channel) w
  = if fails e (Send channel embed)
    then (Raise HTTPException, w, [Send channel embed])
    else
      let out := for_each embeds (send e channel) w in
      (out.1.1, out.1.2, Send channel embed :: out.2).
Proof.
  rewrite for_each_cons. unfold send at 1, call at 1.
  destruct (fails e _); [done|]. by destruct (for_each _ _ _) as [[? ?] ?].
Qed.

Lemma send_loop_run e channel embeds w :
  let out := for_each embeds (send e channel) w in
  out.1.2 = w
  ∧ Forall (λ ev, ∃ embed, ev = Send channel embed ∧ embed ∈ embeds) out.2
  ∧ match out.1.1 with
    | Ok _ => out.2 = Send channel <$> embeds
    | Raise x => x = HTTPException ∧ ∃ ev, last out.2 = Some ev ∧ fails e ev = true
    end.
Proof.
  induction embeds as [|embed embeds IH]; intros out.
  { subst out. simpl. split; [done|]. split; [constructor|done]. }
  subst out. rewrite send_loop_cons.
  destruct (fails e (Send channel embed)) eqn:Hf.
  { simpl. split; [done|]. split.
    - repeat constructor. exists embed. split; [done|]. apply elem_of_cons. by left.
    - split; [done|]. by exists (Send channel embed). }
  cbv zeta in IH. cbv zeta. destruct (for_each embeds _ w) as [[r2 w2] t2]. simpl in *.
  destruct IH as (-> & Hall & Hend). split; [done|]. split.
  - constructor.
    + exists embed. split; [done|]. apply elem_of_cons. by left.
    + eapply Forall_impl; [exact Hall|]. intros ev (embed' & -> & Hin).
      exists embed'. split; [done|]. apply elem_of_cons. by right.
  - destruct r2 as [?|x]; [by rewrite Hend|].
    destruct Hend as (-> & ev & Hlast & Hf'). split; [done|]. exists ev.
    split; [|done]. by rewrite last_cons, Hlast.
Qed.

(** [update_for_guild] step by step. *)
Lemma update_for_guild_run e g contest changes w :
  let a := _check_and_update_achievements e g changes w in
  let b :=
    if has_auto_role_update_enabled e (guild_id g)
    then suppress (_update_ranks_all e g) a.1.2
    else (Ok tt, a.1.2, []) in
  let c :=
    match rankup_channel e (guild_id g) with
    | Some channel =>
        if bool_decide (Calls.returned [] a.1.1 ≠ [])
        then
          suppress
            (for_each (_make_achievement_embeds e contest (Calls.returned [] a.1.1))
               (send e channel)) b.1.2
        else (Ok tt, b.1.2, [])
    | None => (Ok tt, b.1.2, [])
    end in
  update_for_guild e g contest changes w
  = match a.1.1 with
    | Raise x => (Raise x, a.1.2, a.2)
    | Ok _ =>
        match b.1.1 with
        | Raise x => (Raise x, b.1.2, a.2 ++ b.2)
        | Ok _ => (c.1.1, c.1.2, a.2 ++ b.2 ++ c.2)
        end
    end.
Proof.
  intros a b c. unfold update_for_guild. rewrite bind_run. fold a.
  destruct a as [[[acc|x] w1] t1] eqn:Ha; simpl; [|done].
  rewrite bind_run. subst b c. simpl.
  destruct (has_auto_role_update_enabled e (guild_id g)); simpl.
  - destruct (suppress (_update_ranks_all e g) w1) as [[[[]|x] w2] t2]; simpl; [|done].
    destruct (rankup_channel e (guild_id g)) as [channel|]; simpl; [|done].
    case_bool_decide; simpl; [|done].
    by destruct (suppress _ w2) as [[? ?] ?].
  - destruct (rankup_channel e (guild_id g)) as [channel|]; simpl; [|done].
    case_bool_decide; simpl; [|done].
    by destruct (suppress _ w1) as [[? ?] ?].
Qed.

Lemma update_ranks_all_suppressed e g w :
  let out := suppress (_update_ranks_all e g) w in
  ledger out.1.2 = ledger w
  ∧ Forall (λ ev, Calls.is_ledger_write ev = false ∧ is_send ev = false) out.2
  ∧ match out.1.1 with
    | Ok _ => True
    | Raise x =>
        x = HTTPException
        ∧ ∃ ev, last out.2 = Some ev ∧ is_role_mutation ev = true ∧ fails e ev = true
    end.
Proof.
  intros out. subst out. rewrite suppress_run. unfold _update_ranks_all.
  set (res := get_handles_for_guild e (guild_id g)).
  pose proof (update_ranks_ends e g res w) as Hend. cbv zeta in Hend.
  assert (Hframe : ledger (_update_ranks e g res w).1.2 = ledger w
            ∧ Forall (λ ev, Calls.is_ledger_write ev = false ∧ is_send ev = false)
                (_update_ranks e g res w).2).
  { destruct (decide (member_handles_of w res = [])) as [Hmh|Hmh].
    { rewrite update_ranks_no_member by done. split; [done|constructor]. }
    destruct (decide
                (required_roles e (user_info e <$> (member_handles_of w res).*2)
                 ∖ dom (run_r2r e g w res) = ∅)) as [Hmiss|Hmiss].
    - rewrite (update_ranks_complete e g res w Hmh Hmiss).
      destruct (assign_loop_run e g (run_r2r e g w res) (run_pairs e w res) w)
        as (_ & Hev2 & _).
      split; [|done].
      set (out := for_each _ _ w).
      assert (Hout : out = (out.1.1, out.1.2, out.2))
        by (clearbody out; by destruct out as [[? ?] ?]).
      by destruct (loop_frame _ _ _ _ _ _ _ _ Hout) as (_ & _ & H3).
    - destruct (update_ranks_missing e g res w Hmh Hmiss) as [missing ->].
      split; [done|constructor]. }
  destruct Hframe as [Hl Hev].
  destruct ((_update_ranks e g res w).1.1) as [[]|x] eqn:Hr.
  - rewrite Hr. done.
  - destruct x; try done; simpl; rewrite ?Hr; done.
Qed.

(** How a run of [update_for_guild] in which [cf.user.info] answers can
    end. *)
Lemma update_for_guild_ends (e : Env) (g : Guild) (contest : string)
    (changes : gmap string cf.RatingChange) (w : World) :
  let out := update_for_guild e g contest changes w in
  match out.1.1 with
  | Ok _ => True
  | Raise DataBaseError =>
      member_roles out.1.2 = member_roles w
      ∧ Forall (λ ev, Calls.is_ledger_write ev = true) out.2
      ∧ ∃ ev, last out.2 = Some ev ∧ fails e ev = true
  | Raise HTTPException =>
      ∃ ev, last out.2 = Some ev ∧ fails e ev = true
            ∧ (is_role_mutation ev = true ∨ is_send ev = true)
  | Raise _ => False
  end.
Proof.
  intros out. subst out. rewrite update_for_guild_run. cbv zeta.
  destruct (achievements_loop_run e g changes (get_handles_for_guild e (guild_id g)) [] w)
    as (Ha1 & _ & Ha3 & Ha4).
  fold (_check_and_update_achievements e g changes) in Ha1, Ha3, Ha4.
  set (a := _check_and_update_achievements e g changes w) in *.
  destruct (a.1.1) as [acc|x] eqn:Har.
  2:{ destruct Ha4 as (-> & ev & Hlast & Hf). simpl. split; [done|]. split; [|eauto].
      eapply Forall_impl; [exact Ha3|]. by intros ev' (? & ? & ? & ? & -> & _). }
  simpl.
  set (b := if has_auto_role_update_enabled e (guild_id g)
            then suppress (_update_ranks_all e g) a.1.2 else (Ok tt, a.1.2, [])).
  assert (Hb : match b.1.1 with
               | Ok _ => True
               | Raise x =>
                   x = HTTPException
                   ∧ ∃ ev, last b.2 = Some ev ∧ is_role_mutation ev = true
                           ∧ fails e ev = true
               end).
  { subst b. destruct (has_auto_role_update_enabled e (guild_id g)); [|done].
    by destruct (update_ranks_all_suppressed e g a.1.2) as (_ & _ & H). }
  destruct (b.1.1) as [[]|x] eqn:Hbr.
  2:{ destruct Hb as (-> & ev & Hlast & Hm & Hf). simpl. exists ev.
      rewrite last_app, Hlast. eauto. }
  simpl.
  destruct (rankup_channel e (guild_id g)) as [channel|]; [|done].
  case_bool_decide; [|done].
  rewrite suppress_run.
  set (embeds := _make_achievement_embeds e contest acc).
  destruct (send_loop_run e channel embeds b.1.2) as (_ & Hs2 & Hs3).
  destruct ((for_each embeds (send e channel) b.1.2).1.1) as [[]|x] eqn:Hsr.
  { rewrite Hsr. done. }
  destruct Hs3 as (-> & ev & Hlast & Hf). rewrite Hsr. simpl.
  exists ev. rewrite !last_app, Hlast. split; [done|]. split; [done|]. right.
  apply last_Some_elem_of in Hlast.
  rewrite Forall_forall in Hs2. by destruct (Hs2 ev Hlast) as (? & -> & _).
Qed.

(** X11.  [update_for_guild] never raises [HandleCogError]: the one the
    role update raises is suppressed, and no other step raises it.  The
    lookup [rank2role[rank.title]] of the role update never raises
    [KeyError].  When [update_for_guild] raises [HTTPException], the last
    call issued was rejected by Discord and was a role call or a message.
    The statement is silent on the other endings of the source, a failure
    of [cf.user.info] in the role update among them. *)
Theorem update_for_guild_failures (e : Env) (g : Guild) (contest : string)
    (changes : gmap string cf.RatingChange) (w : World) :
  let out := update_for_guild e g contest changes w in
  (∀ why, out.1.1 ≠ Raise (HandleCogError why))
  ∧ (∀ key, out.1.1 ≠ Raise (KeyError key))
  ∧ (out.1.1 = Raise HTTPException →
     ∃ ev, last out.2 = Some ev ∧ fails e ev = true
           ∧ (is_role_mutation ev = true ∨ is_send ev = true)).
Proof.
  intros out. pose proof (update_for_guild_ends e g contest changes w) as Hend.
  cbv zeta in Hend. fold out in Hend.
  destruct (out.1.1) as [?|[why| | |key]]; repeat split; try done.
Qed.

(** X12.  The two switches of a guild.  With the automatic role update
    off, [update_for_guild] leaves the roles of every member as they were
    and issues nothing but writes of the ledger and messages; without a
    rank-up channel it sends no message.  In every case the ledger is left
    as the achievement pass left it. *)
Theorem update_for_guild_switches (e : Env) (g : Guild) (contest_name : string)
    (change_by_handle : gmap string cf.RatingChange) (w : World) :
  let out := update_for_guild e g contest_name change_by_handle w in
  (has_auto_role_update_enabled e (guild_id g) = false →
   member_roles out.1.2 = member_roles w
   ∧ Forall (λ ev, Calls.is_ledger_write ev = true ∨ is_send ev = true) out.2)
  ∧ (rankup_channel e (guild_id g) = None →
     Forall (λ ev, is_send ev = false) out.2)
  ∧ ledger out.1.2
    = ledger (_check_and_update_achievements e g change_by_handle w).1.2.
Proof.
  intros out. subst out. rewrite update_for_guild_run. cbv zeta.
  destruct (achievements_loop_run e g change_by_handle
              (get_handles_for_guild e (guild_id g)) [] w) as (Ha1 & _ & Ha3 & _).
  fold (_check_and_update_achievements e g change_by_handle) in Ha1, Ha3.
  set (a := _check_and_update_achievements e g change_by_handle w) in *.
  assert (Ha : Forall (λ ev, Calls.is_ledger_write ev = true ∧ is_send ev = false) a.2).
  { eapply Forall_impl; [exact Ha3|]. by intros ev' (? & ? & ? & ? & -> & _). }
  set (b := if has_auto_role_update_enabled e (guild_id g)
            then suppress (_update_ranks_all e g) a.1.2 else (Ok tt, a.1.2, [])).
  assert (Hb : ledger b.1.2 = ledger a.1.2
               ∧ Forall (λ ev, Calls.is_ledger_write ev = false ∧ is_send ev = false) b.2
               ∧ (has_auto_role_update_enabled e (guild_id g) = false →
                  b = (Ok tt, a.1.2, []))).
  { subst b. destruct (has_auto_role_update_enabled e (guild_id g)).
    - destruct (update_ranks_all_suppressed e g a.1.2) as (H1 & H2 & _). done.
    - split; [done|]. split; [constructor|done]. }
  destruct Hb as (Hb1 & Hb2 & Hb3).
  set (c := match rankup_channel e (guild_id g) with
            | Some channel =>
                if bool_decide (Calls.returned [] a.1.1 ≠ [])
                then suppress
                       (for_each
                          (_make_achievement_embeds e contest_name
                             (Calls.returned [] a.1.1)) (send e channel)) b.1.2
                else (Ok tt, b.1.2, [])
            | None => (Ok tt, b.1.2, [])
            end).
  assert (Hc : c.1.2 = b.1.2 ∧ Forall (λ ev, is_send ev = true) c.2
               ∧ (rankup_channel e (guild_id g) = None → c.2 = [])).
  { subst c. destruct (rankup_channel e (guild_id g)) as [channel|].
    2:{ split; [done|]. split; [constructor|done]. }
    case_bool_decide.
    2:{ split; [done|]. split; [constructor|done]. }
    rewrite suppress_run.
    destruct (send_loop_run e channel
                (_make_achievement_embeds e contest_name (Calls.returned [] a.1.1))
                b.1.2) as (Hs1 & Hs2 & _).
    set (s := for_each _ (send e channel) b.1.2) in *.
    assert (Hs : Forall (λ ev, is_send ev = true) s.2).
    { eapply Forall_impl; [exact Hs2|]. by intros ev (? & -> & _). }
    destruct (s.1.1) as [[]|[]]; (split; [done|split; [done|done]]). }
  destruct Hc as (Hc1 & Hc2 & Hc3).
  destruct (a.1.1) as [acc|x] eqn:Har.
  2:{ simpl. split; [|split; [|done]].
      - intros _. split; [done|]. eapply Forall_impl; [exact Ha|]. intros ev [? _].
        by left.
      - intros _. eapply Forall_impl; [exact Ha|]. by intros ev [_ ?]. }
  destruct (b.1.1) as [[]|x] eqn:Hbr.
  2:{ simpl. split; [|split; [|done]].
      - intros Hoff. rewrite (Hb3 Hoff) in Hbr. done.
      - intros _. apply Forall_app. split.
        + eapply Forall_impl; [exact Ha|]. by intros ev [_ ?].
        + eapply Forall_impl; [exact Hb2|]. by intros ev [_ ?]. }
  simpl. split; [|split].
  - intros Hoff. rewrite Hc1, (Hb3 Hoff). simpl. split; [done|].
    apply Forall_app. split.
    + eapply Forall_impl; [exact Ha|]. intros ev [? _]. by left.
    + eapply Forall_impl; [exact Hc2|]. intros ev ?. by right.
  - intros Hnone. rewrite (Hc3 Hnone), app_nil_r. apply Forall_app. split.
    + eapply Forall_impl; [exact Ha|]. by intros ev [_ ?].
    + eapply Forall_impl; [exact Hb2|]. by intros ev [_ ?].
  - by rewrite Hc1, Hb1.
Qed.

(** X13.  A rank role that the guild lacks does not silence the
    congratulations: when the achievement pass returned achievements, the
    role update raises [HandleCogError] and the guild has a rank-up
    channel that takes the heading, [update_for_guild] goes on to the
    announcement.  Its calls are the writes of the pass followed by
    messages to the channel, the heading first, and no role is changed. *)
Theorem congratulation_survives_missing_role (e : Env) (g : Guild)
    (contest_name : string) (change_by_handle : gmap string cf.RatingChange)
    (w w1 : World) (achievements : list (nat * AchievementInfo)) (t1 : list Event)
    (why : CogError) (channel : nat) :
  _check_and_update_achievements e g change_by_handle w = (Ok achievements, w1, t1) →
  achievements ≠ [] →
  has_auto_role_update_enabled e (guild_id g) = true →
  (_update_ranks_all e g w1).1.1 = Raise (HandleCogError why) →
  rankup_channel e (guild_id g) = Some channel →
  fails e (Send channel (Heading contest_name)) = false →
  let out := update_for_guild e g contest_name change_by_handle w in
  member_roles out.1.2 = member_roles w
  ∧ ∃ rest, out.2 = t1 ++ Send channel (Heading contest_name) :: rest
            ∧ Forall (λ ev, is_send ev = true) rest.
Proof.
  intros Hrun Hne Hon Hraise Hch Hsend out. subst out.
  rewrite update_for_guild_run. cbv zeta. rewrite Hrun, Hon, Hch. simpl.
  rewrite suppress_run, Hraise. simpl.
  pose proof (update_ranks_ends e g (get_handles_for_guild e (guild_id g)) w1) as Hend.
  cbv zeta in Hend. fold (_update_ranks_all e g) in Hend. rewrite Hraise in Hend.
  destruct Hend as [Hw1 Ht]. rewrite Hw1, Ht.
  rewrite bool_decide_eq_true_2 by done.
  rewrite suppress_run.
  set (s := for_each (_make_achievement_embeds e contest_name achievements)
              (send e channel) w1).
  assert (Hs : s.1.2 = w1
               ∧ ∃ rest, s.2 = Send channel (Heading contest_name) :: rest
                         ∧ Forall (λ ev, is_send ev = true) rest).
  { subst s. unfold _make_achievement_embeds.
    rewrite bool_decide_eq_false_2 by done.
    set (pages := Page <$> _).
    rewrite send_loop_cons, Hsend. cbv zeta. simpl.
    destruct (send_loop_run e channel pages w1) as (Hs1 & Hs2 & _).
    split; [done|]. eexists. split; [reflexivity|].
    eapply Forall_impl; [exact Hs2|]. by intros ev (? & -> & _). }
  destruct Hs as (Hs1 & rest & Hs2 & Hs3).
  pose proof (achievements_loop_run e g change_by_handle
                (get_handles_for_guild e (guild_id g)) [] w) as (Hroles & _).
  fold (_check_and_update_achievements e g change_by_handle) in Hroles.
  rewrite Hrun in Hroles. simpl in Hroles.
  destruct (s.1.1) as [[]|[]]; simpl; rewrite ?Hs1, Hs2;
    (split; [done|]); exists rest; done.
Qed.

(** X13 on the sample guild without the role Specialist. *)
Lemma congratulation_survives_missing_role_witness :
  let out := update_for_guild Sample.env Sample.guild_without_specialist "Round 1"
               Sample.changes Sample.world in
  member_roles out.1.2 = member_roles Sample.world
  ∧ ∃ rest,
      out.2
      = (_check_and_update_achievements Sample.env Sample.guild_without_specialist
           Sample.changes Sample.world).2
        ++ Send 99 (Heading "Round 1") :: rest
      ∧ Forall (λ ev, is_send ev = true) rest.
Proof.
  set (a := _check_and_update_achievements Sample.env Sample.guild_without_specialist
              Sample.changes Sample.world).
  apply (congratulation_survives_missing_role Sample.env Sample.guild_without_specialist
           "Round 1" Sample.changes Sample.world a.1.2 (Calls.returned [] a.1.1) a.2
           (RolesNotPresent ["Specialist"]) 99%nat).
  - vm_compute. reflexivity.
  - vm_compute. discriminate.
  - reflexivity.
  - vm_compute. reflexivity.
  - reflexivity.
  - reflexivity.
Defined.

(** ** Colours and truth values *)

(** X14.  [rating_to_color] gives black to a missing rating and to no
    rating at all; the ratings of one colour form an interval; and the
    colour changes exactly when the rating reaches 1200, 1400, 1600, 1900,
    2100 or 2400. *)
Theorem rating_to_color_bands :
  (∀ rating,
     Display.rating_to_color rating = Display.BLACK
     ↔ rating = Display.NoRating ∨ rating = Display.NotAvailable)
  ∧ (∀ a b c : Z,
       (a ≤ b ≤ c)%Z →
       Display.rating_to_color (Display.Rating a)
       = Display.rating_to_color (Display.Rating c) →
       Display.rating_to_color (Display.Rating b)
       = Display.rating_to_color (Display.Rating a))
  ∧ (∀ r : Z,
       Display.rating_to_color (Display.Rating (r - 1))
       ≠ Display.rating_to_color (Display.Rating r)
       ↔ r ∈ [1200; 1400; 1600; 1900; 2100; 2400]%Z).
Proof.
  split; [|split].
  - intros [| |r]; simpl.
    + split; [by left|done].
    + split; [by right|done].
    + split; [|by intros [|]].
      repeat case_match; discriminate.
  - intros a b c Habc. unfold Display.rating_to_color.
    repeat match goal with
           | |- context [(?x <? ?y)%Z] => destruct (Z.ltb_spec x y)
           end; try done; try lia.
  - intros r. unfold Display.rating_to_color.
    rewrite !elem_of_cons, elem_of_nil.
    repeat match goal with
           | |- context [(?x <? ?y)%Z] => destruct (Z.ltb_spec x y)
           end; try lia;
      (split; [intros Hne; first [by destruct Hne | lia]
              | intros Hin Heq; first [discriminate Heq | lia]]).
Qed.

Lemma lower_upper_char c :
  Builtins.lower_char (Builtins.upper_char c) = Builtins.lower_char c.
Proof. destruct c as [[] [] [] [] [] [] [] []]; reflexivity. Qed.

Lemma lower_lower_char c :
  Builtins.lower_char (Builtins.lower_char c) = Builtins.lower_char c.
Proof. destruct c as [[] [] [] [] [] [] [] []]; reflexivity. Qed.

Lemma lower_upper s : Builtins.lower (Builtins.upper s) = Builtins.lower s.
Proof. induction s as [|c s IH]; [done|]. simpl. by rewrite lower_upper_char, IH. Qed.

Lemma lower_lower s : Builtins.lower (Builtins.lower s) = Builtins.lower s.
Proof. induction s as [|c s IH]; [done|]. simpl. by rewrite lower_lower_char, IH. Qed.

Lemma lower_length s : String.length (Builtins.lower s) = String.length s.
Proof. induction s as [|c s IH]; [done|]. simpl. by rewrite IH. Qed.

(** X15.  [strtobool] does not look at the case of the letters A-Z: a
    value, the value capitalised and the value lowered get the same answer.
    No value is read both as true and as false, and a value of more than
    five characters is refused. *)
Theorem strtobool_ignores_case (value : string) :
  Main.strtobool (Builtins.upper value) = Main.strtobool value
  ∧ Main.strtobool (Builtins.lower value) = Main.strtobool value
  ∧ (Main.strtobool value = Some true
     ↔ Builtins.lower value ∈ ["y"; "yes"; "t"; "true"; "on"; "1"])
  ∧ (Main.strtobool value = Some false
     ↔ Builtins.lower value ∈ ["n"; "no"; "f"; "false"; "off"; "0"])
  ∧ ((5 < String.length value)%nat → Main.strtobool value = None).
Proof.
  unfold Main.strtobool. rewrite lower_upper, lower_lower.
  split; [done|]. split; [done|].
  assert (Hdisj : Builtins.lower value ∈ ["y"; "yes"; "t"; "true"; "on"; "1"] →
                  Builtins.lower value ∈ ["n"; "no"; "f"; "false"; "off"; "0"] → False).
  { rewrite !elem_of_cons, !elem_of_nil. intros H1 H2.
    repeat destruct H1 as [H1|H1]; try done;
      rewrite H1 in H2; repeat destruct H2 as [H2|H2]; done. }
  split; [|split].
  - repeat case_bool_decide; split; try done; intros ?; exfalso; eauto.
  - repeat case_bool_decide; split; try done; intros ?; exfalso; eauto.
  - intros Hlen. rewrite <-lower_length in Hlen.
    repeat case_bool_decide; try done; exfalso;
      match goal with
      | H : Builtins.lower value ∈ _ |- _ =>
          rewrite !elem_of_cons, !elem_of_nil in H;
          repeat destruct H as [H|H]; try done; rewrite H in Hlen; simpl in Hlen; lia
      end.
Qed.

(** ** The record computed from a rating history *)

Lemma max_of_spec first rest :
  Builtins.max_of first rest ∈ first :: rest
  ∧ ∀ y, y ∈ first :: rest → (y ≤ Builtins.max_of first rest)%Z.
Proof.
  unfold Builtins.max_of. revert first; induction rest as [|x rest IH]; intros first.
  { simpl. split; [apply elem_of_cons; by left|].
    intros y Hy%list_elem_of_singleton. lia. }
  simpl. destruct (IH (Z.max first x)) as [Hin Hmax]. split.
  - apply elem_of_cons in Hin as [Heq|Hin].
    + rewrite Heq. destruct (Z.max_spec first x) as [[_ ->]|[_ ->]].
      * apply elem_of_cons. right. apply elem_of_cons. by left.
      * apply elem_of_cons. by left.
    + apply elem_of_cons. right. apply elem_of_cons. by right.
  - intros y [->|[->|Hy]%elem_of_cons]%elem_of_cons.
    + specialize (Hmax (Z.max first x)). etrans; [|apply Hmax; apply elem_of_cons; by left].
      lia.
    + specialize (Hmax (Z.max first x)). etrans; [|apply Hmax; apply elem_of_cons; by left].
      lia.
    + apply Hmax. apply elem_of_cons. by right.
Qed.

Lemma max_by_key_spec {A} (key : A → Z) first rest :
  Builtins.max_by_key key first rest ∈ first :: rest
  ∧ ∀ y, y ∈ first :: rest → (key y ≤ key (Builtins.max_by_key key first rest))%Z.
Proof.
  unfold Builtins.max_by_key. revert first; induction rest as [|x rest IH]; intros first.
  { simpl. split; [apply elem_of_cons; by left|].
    intros y Hy%list_elem_of_singleton. subst. lia. }
  simpl. set (best := if (key first <? key x)%Z then x else first).
  assert (Hbest : (best = first ∨ best = x)
                  ∧ (key first ≤ key best)%Z ∧ (key x ≤ key best)%Z).
  { unfold best. destruct (Z.ltb_spec (key first) (key x)); split; eauto; lia. }
  destruct Hbest as (Hb & Hb1 & Hb2).
  destruct (IH best) as [Hin Hmax]. split.
  - apply elem_of_cons in Hin as [Heq|Hin].
    + rewrite Heq. destruct Hb as [->| ->].
      * apply elem_of_cons. by left.
      * apply elem_of_cons. right. apply elem_of_cons. by left.
    + apply elem_of_cons. right. apply elem_of_cons. by right.
  - intros y [->|[->|Hy]%elem_of_cons]%elem_of_cons.
    + etrans; [exact Hb1|]. apply Hmax. apply elem_of_cons. by left.
    + etrans; [exact Hb2|]. apply Hmax. apply elem_of_cons. by left.
    + apply Hmax. apply elem_of_cons. by right.
Qed.

Lemma index_of_Some_lookup `{EqDecision A} (l : list A) x i :
  Builtins.index_of l x = Some i → l !! i = Some x.
Proof.
  revert i; induction l as [|y l IH]; intros i; simpl; [done|].
  destruct (decide (y = x)) as [->|Hne].
  - by intros [= <-].
  - destruct (Builtins.index_of l x) as [j|] eqn:Hj; simpl; [|done].
    intros [= <-]. simpl. by apply IH.
Qed.

Lemma index_of_elem `{EqDecision A} (l : list A) x :
  x ∈ l → is_Some (Builtins.index_of l x).
Proof.
  induction 1 as [x l|x y l Hin IH]; simpl.
  - rewrite decide_True by done. eauto.
  - destruct (decide (y = x)); [eauto|]. destruct IH as [j ->]. simpl. eauto.
Qed.

(** In a table whose titles are distinct, a rank stands where its title
    stands. *)
Lemma index_of_title ranks k i :
  cf.table_wf ranks →
  Builtins.index_of ranks k = Some i →
  Py.index (cf.rank_titles ranks) (cf.title k) = Some i.
Proof.
  intros [Hnd _] Hi. apply index_NoDup_lookup; [done|].
  apply index_of_Some_lookup in Hi. unfold cf.rank_titles.
  by rewrite list_lookup_fmap, Hi.
Qed.

(** The key of the rank of a rating. *)
Lemma rank_key_rating ranks r :
  cf.table_wf ranks →
  match cf.rating2rank ranks (Some r) with
  | cf.UNRATED_RANK => Linking.rank_key ranks (cf.rating2rank ranks (Some r)) = (-1)%Z
  | cf.Rated k =>
      ∃ i, Builtins.index_of ranks k = Some i
           ∧ Linking.rank_key ranks (cf.rating2rank ranks (Some r)) = Z.of_nat i
           ∧ Py.index (cf.rank_titles ranks)
               (cf.tier_title (cf.rating2rank ranks (Some r))) = Some i
  end.
Proof.
  intros Hwf. destruct (cf.rating2rank ranks (Some r)) as [|k] eqn:Hk; [done|].
  apply rating2rank_Rated in Hk.
  destruct (index_of_elem ranks k Hk) as [i Hi]. exists i.
  split; [done|]. split; [by simpl; rewrite Hi|]. simpl. by apply index_of_title.
Qed.

Lemma rank_key_mono ranks r1 r2 :
  cf.table_wf ranks → (r1 ≤ r2)%Z →
  (Linking.rank_key ranks (cf.rating2rank ranks (Some r1))
   ≤ Linking.rank_key ranks (cf.rating2rank ranks (Some r2)))%Z.
Proof.
  intros Hwf Hle.
  pose proof (rank_key_rating ranks r1 Hwf) as H1.
  pose proof (rank_key_rating ranks r2 Hwf) as H2.
  destruct (cf.rating2rank ranks (Some r1)) as [|k1] eqn:Hk1.
  { rewrite H1. destruct (cf.rating2rank ranks (Some r2)) as [|k2] eqn:Hk2.
    - rewrite H2. lia.
    - destruct H2 as (i & _ & -> & _). lia. }
  destruct H1 as (i1 & _ & -> & Ht1).
  rewrite <-Hk1 in Ht1.
  destruct (rating2rank_mono ranks r1 r2 i1 Hwf Hle Ht1) as (j2 & Hj2 & Hj).
  destruct (cf.rating2rank ranks (Some r2)) as [|k2] eqn:Hk2.
  - exfalso. simpl in Hj2. apply index_Some_elem in Hj2. by destruct Hwf as [_ Hun].
  - destruct H2 as (i2 & _ & -> & Ht2). rewrite <-Hk2 in Hj2.
    rewrite Hk2 in Hj2. simpl in Hj2, Ht2. rewrite Ht2 in Hj2. simplify_eq. lia.
Qed.

Lemma rank_key_inj ranks r1 r2 :
  cf.table_wf ranks →
  Linking.rank_key ranks (cf.rating2rank ranks (Some r1))
  = Linking.rank_key ranks (cf.rating2rank ranks (Some r2)) →
  cf.rating2rank ranks (Some r1) = cf.rating2rank ranks (Some r2).
Proof.
  intros Hwf.
  pose proof (rank_key_rating ranks r1 Hwf) as H1.
  pose proof (rank_key_rating ranks r2 Hwf) as H2.
  destruct (cf.rating2rank ranks (Some r1)) as [|k1],
           (cf.rating2rank ranks (Some r2)) as [|k2].
  - done.
  - rewrite H1. destruct H2 as (i & _ & -> & _). lia.
  - rewrite H2. destruct H1 as (i & _ & -> & _). lia.
  - destruct H1 as (i1 & Hi1 & -> & _), H2 as (i2 & Hi2 & -> & _).
    intros Heq. assert (i1 = i2) as -> by lia.
    apply index_of_Some_lookup in Hi1, Hi2. congruence.
Qed.

(** What [history_record] computes. *)
Lemma history_record_run ranks first rest :
  cf.table_wf ranks →
  let record := Linking.history_record ranks first rest in
  (∃ change, change ∈ first :: rest ∧ cf.newRating change = record.1)
  ∧ (∀ change, change ∈ first :: rest → (cf.newRating change ≤ record.1)%Z)
  ∧ record.2 = cf.rating2rank ranks (Some record.1).
Proof.
  intros Hwf record. subst record. unfold Linking.history_record.
  cbv zeta. cbn [fst snd].
  set (rank_of := λ change : cf.RatingChange,
                    cf.rating2rank ranks (Some (cf.newRating change))).
  destruct (max_of_spec (cf.newRating first) (cf.newRating <$> rest)) as [Hm1 Hm2].
  destruct (max_by_key_spec (Linking.rank_key ranks) (rank_of first) (rank_of <$> rest))
    as [Hk1 Hk2].
  change (cf.newRating first :: (cf.newRating <$> rest))
    with (cf.newRating <$> first :: rest) in Hm1, Hm2.
  change (rank_of first :: (rank_of <$> rest))
    with (rank_of <$> first :: rest) in Hk1, Hk2.
  apply list_elem_of_fmap in Hm1 as (c2 & Hc2 & Hin2).
  apply list_elem_of_fmap in Hk1 as (c1 & Hc1 & Hin1).
  assert (Hmax : ∀ change, change ∈ first :: rest →
                   (cf.newRating change ≤ Builtins.max_of (cf.newRating first)
                                            (cf.newRating <$> rest))%Z).
  { intros change Hin. apply Hm2, list_elem_of_fmap. eauto. }
  split; [eauto|]. split; [done|].
  rewrite Hc2.
  etrans; [exact Hc1|]. unfold rank_of at 1.
  apply rank_key_inj; [done|]. apply Z.le_antisymm.
  - apply rank_key_mono; [done|]. rewrite <-Hc2. by apply Hmax.
  - fold (rank_of c2). fold (rank_of c1). rewrite <-Hc1.
    apply Hk2, list_elem_of_fmap. eauto.
Qed.

(** X16.  Over a table with distinct titles, none of them Unrated, the
    record that [_set] and [sync_achievements] compute from a rating
    history that is not empty holds the greatest rating of the history,
    and the highest rank of the history is the rank of that rating. *)
Theorem history_record_is_peak (ranks : list cf.Rank) (first : cf.RatingChange)
    (rest : list cf.RatingChange) :
  cf.table_wf ranks →
  let record := Linking.history_record ranks first rest in
  (∃ change, change ∈ first :: rest ∧ cf.newRating change = record.1)
  ∧ (∀ change, change ∈ first :: rest → (cf.newRating change ≤ record.1)%Z)
  ∧ record.2 = cf.rating2rank ranks (Some record.1).
Proof. apply history_record_run. Qed.

(** X16 on the sample table, for a history that peaks at 1950 and ends
    at 1500. *)
Lemma history_record_is_peak_witness :
  let history :=
    [ {| cf.change_handle := "carol"; cf.newRating := 1450;
         cf.ratingUpdateTimeSeconds := 1500000000 |};
      {| cf.change_handle := "carol"; cf.newRating := 1950;
         cf.ratingUpdateTimeSeconds := 1600000000 |};
      {| cf.change_handle := "carol"; cf.newRating := 1500;
         cf.ratingUpdateTimeSeconds := 1700000000 |} ] in
  let record :=
    Linking.history_record cf.sample_ranks
      {| cf.change_handle := "carol"; cf.newRating := 1450;
         cf.ratingUpdateTimeSeconds := 1500000000 |} (tail history) in
  (∃ change, change ∈ history ∧ cf.newRating change = record.1)
  ∧ (∀ change, change ∈ history → (cf.newRating change ≤ record.1)%Z)
  ∧ record.2 = cf.rating2rank cf.sample_ranks (Some record.1).
Proof.
  apply (history_record_is_peak cf.sample_ranks
           {| cf.change_handle := "carol"; cf.newRating := 1450;
              cf.ratingUpdateTimeSeconds := 1500000000 |}
           [ {| cf.change_handle := "carol"; cf.newRating := 1950;
                cf.ratingUpdateTimeSeconds := 1600000000 |};
             {| cf.change_handle := "carol"; cf.newRating := 1500;
                cf.ratingUpdateTimeSeconds := 1700000000 |} ]
           sample_ranks_wf).
Defined.

(** ** The listings *)

Lemma shown_name_length name :
  (length (Display.shown_name name) ≤ Display._NAME_MAX_LEN)%nat.
Proof.
  unfold Display.shown_name, Display._NAME_MAX_LEN. case_bool_decide.
  - rewrite length_app, length_take. cbn [length]. lia.
  - lia.
Qed.

Lemma page_rows_index ranks n chunk :
  Display.data_index <$> Display.page_rows ranks n chunk = seq n (length chunk).
Proof.
  unfold Display.page_rows. revert n.
  induction chunk as [|user chunk IH]; intros n; [done|].
  simpl. f_equal. rewrite <-IH. rewrite !fmap_imap. apply imap_ext.
  intros i x _. simpl. lia.
Qed.

Lemma pages_loop_index ranks chunks n :
  Display.data_index <$> concat (Display.pages_loop ranks chunks n)
  = seq n (length (concat chunks)).
Proof.
  revert n; induction chunks as [|chunk chunks IH]; intros n; [done|].
  simpl. rewrite fmap_app, page_rows_index, IH, length_app, seq_app.
  repeat f_equal; try lia.
Qed.

Lemma pages_loop_rows ranks chunks n :
  concat (Display.pages_loop ranks chunks n)
  = Display.page_rows ranks n (concat chunks).
Proof.
  revert n; induction chunks as [|chunk chunks IH]; intros n; [done|].
  simpl. rewrite IH. unfold Display.page_rows. rewrite imap_app. f_equal.
  apply imap_ext. intros i x _. simpl. f_equal. lia.
Qed.

(** X17.  [_make_pages] makes one page for each chunk, each under the
    title.  Over all pages, in order, the rows are numbered 0, 1, 2, ...
    without a gap or a restart at a page break, whatever the size of the
    chunks; each row is the row of one user of the chunks, in their order;
    and no name written is longer than 20 code points: a longer name is cut
    to its first 19 and an ellipsis. *)
Theorem make_pages_rows (ranks : list cf.Rank)
    (chunkify : list (list Z * string * option Z) → nat
                → list (list (list Z * string * option Z)))
    (users : list (list Z * string * option Z)) (title : string) :
  let chunks := chunkify users Display._HANDLES_PER_PAGE in
  let pages := Display._make_pages ranks chunkify users title in
  length pages = length chunks
  ∧ Forall (λ page, page.1 = title) pages
  ∧ Display.data_index <$> concat pages.*2 = seq 0 (length (concat chunks))
  ∧ concat pages.*2 = Display.page_rows ranks 0 (concat chunks)
  ∧ Forall (λ row, (length (Display.data_name row) ≤ 20)%nat) (concat pages.*2)
  ∧ ∀ name, Display.shown_name name
            = if bool_decide (length name ≤ 20)%nat
              then name else take 19 name ++ [Display.ELLIPSIS].
Proof.
  intros chunks pages. subst pages. unfold Display._make_pages. fold chunks.
  clearbody chunks.
  assert (Hsnd : ((λ rows : list Display.Data, (title, rows))
                    <$> Display.pages_loop ranks chunks 0).*2
                 = Display.pages_loop ranks chunks 0).
  { rewrite <-list_fmap_compose. apply list_fmap_id. }
  rewrite Hsnd. split; [|split; [|split; [|split; [|split]]]].
  - rewrite length_fmap. clear Hsnd. generalize 0%nat.
    induction chunks as [|c cs IH]; intros n; simpl; [done|]. by rewrite IH.
  - apply Forall_fmap. apply Forall_forall. done.
  - apply pages_loop_index.
  - apply pages_loop_rows.
  - rewrite pages_loop_rows. unfold Display.page_rows.
    apply Forall_forall. intros row Hrow.
    apply elem_of_lookup_imap in Hrow as (i & user & -> & _). simpl.
    apply shown_name_length.
  - intros name. unfold Display.shown_name, Display._NAME_MAX_LEN.
    repeat case_bool_decide; try done; lia.
Qed.

Lemma max_page_bounds n :
  (0 < n)%nat →
  (0 ≤ Display.max_page_of n)%Z
  ∧ (Display.max_page_of n * 10 < Z.of_nat n)%Z
  ∧ (Z.of_nat n ≤ (Display.max_page_of n + 1) * 10)%Z.
Proof.
  intros Hn. unfold Display.max_page_of, Display._PRETTY_HANDLES_PER_PAGE.
  change (Z.of_nat 10) with 10%Z.
  pose proof (Z.div_mod (Z.of_nat n + 10 - 1) 10 ltac:(lia)) as Hdm.
  pose proof (Z.mod_pos_bound (Z.of_nat n + 10 - 1) 10 ltac:(lia)) as Hmod.
  lia.
Qed.

Lemma window_spec {A} (rows : list A) (start_idx : Z) :
  (0 ≤ start_idx < Z.of_nat (length rows))%Z →
  Display.window rows start_idx ≠ []
  ∧ (length (Display.window rows start_idx) ≤ 10)%nat
  ∧ ∀ i row, rows !! i = Some row →
      (start_idx ≤ Z.of_nat i < start_idx + 10)%Z →
      row ∈ Display.window rows start_idx.
Proof.
  intros Hs. unfold Display.window, Display._PRETTY_HANDLES_PER_PAGE.
  split; [|split].
  - intros Hnil. apply (f_equal length) in Hnil.
    rewrite length_take, length_drop in Hnil. cbn [length] in Hnil. lia.
  - rewrite length_take. lia.
  - intros i row Hrow Hi. apply list_elem_of_lookup.
    exists (i - Z.to_nat start_idx)%nat.
    rewrite lookup_take_lt by lia. rewrite lookup_drop. rewrite <-Hrow. f_equal. lia.
Qed.

(** X18.  With a page number, [pretty] shows a page that exists: a
    number below 0 shows page 0, a number above the last page shows the
    last page, both with a message, and a number in range shows its page
    without one.  The page shown is never empty and has at most ten rows;
    the last page starts before the end of the rows. *)
Theorem pretty_page_clamped {A} (rows : list A) (author_idx : option nat)
    (page_no : Z) :
  rows ≠ [] →
  let max_page := Display.max_page_of (length rows) in
  let page := Z.max 0 (Z.min page_no max_page) in
  (0 ≤ max_page)%Z
  ∧ (max_page * 10 < Z.of_nat (length rows) ≤ (max_page + 1) * 10)%Z
  ∧ ∃ msg,
      Display.pretty_window rows author_idx (Some page_no)
      = inr (msg, take 10 (drop (Z.to_nat (page * 10)) rows))
      ∧ (msg = None ↔ (0 ≤ page_no ≤ max_page)%Z)
      ∧ take 10 (drop (Z.to_nat (page * 10)) rows) ≠ []
      ∧ (length (take 10 (drop (Z.to_nat (page * 10)) rows)) ≤ 10)%nat.
Proof.
  intros Hne max_page page.
  assert (Hlen : (0 < length rows)%nat) by (destruct rows; [done|simpl; lia]).
  destruct (max_page_bounds (length rows) Hlen) as (Hm0 & Hm1 & Hm2).
  fold max_page in Hm0, Hm1, Hm2.
  split; [done|]. split; [done|].
  assert (Hpage : (0 ≤ page ≤ max_page)%Z) by (unfold page; lia).
  destruct (window_spec rows (page * 10) ltac:(lia)) as (Hw1 & Hw2 & _).
  unfold Display.window, Display._PRETTY_HANDLES_PER_PAGE in Hw1, Hw2.
  assert (Hrun : ∃ msg,
            Display.pretty_window rows author_idx (Some page_no)
            = inr (msg, take 10 (drop (Z.to_nat (page * 10)) rows))
            ∧ (msg = None ↔ (0 ≤ page_no ≤ max_page)%Z)).
  { unfold Display.pretty_window. destruct rows as [|row rows']; [done|].
    fold max_page.
    change (Z.of_nat Display._PRETTY_HANDLES_PER_PAGE) with 10%Z.
    unfold Display.window, Display._PRETTY_HANDLES_PER_PAGE.
    destruct (Z.ltb_spec page_no 0) as [Hneg|Hpos]; simpl.
    - assert (page = 0%Z) as -> by (unfold page; lia).
      destruct author_idx; eexists; (split; [reflexivity|]); split; try done; lia.
    - destruct (Z.ltb_spec max_page page_no) as [Hbig|Hok]; simpl.
      + assert (page = max_page) as -> by (unfold page; lia).
        destruct author_idx; eexists; (split; [reflexivity|]); split; try done; lia.
      + assert (page = page_no) as -> by (unfold page; lia).
        destruct author_idx; eexists; (split; [reflexivity|]); split; try done; lia. }
  destruct Hrun as (msg & Hrun & Hmsg). exists msg. done.
Qed.

(** X18 on 25 rows and the page number 7, beyond the last page, 2. *)
Lemma pretty_page_clamped_witness :
  let rows := seq 0 25 in
  let max_page := Display.max_page_of (length rows) in
  let page := Z.max 0 (Z.min 7 max_page) in
  (0 ≤ max_page)%Z
  ∧ (max_page * 10 < Z.of_nat (length rows) ≤ (max_page + 1) * 10)%Z
  ∧ ∃ msg,
      Display.pretty_window rows None (Some 7%Z)
      = inr (msg, take 10 (drop (Z.to_nat (page * 10)) rows))
      ∧ (msg = None ↔ (0 ≤ 7 ≤ max_page)%Z)
      ∧ take 10 (drop (Z.to_nat (page * 10)) rows) ≠ []
      ∧ (length (take 10 (drop (Z.to_nat (page * 10)) rows)) ≤ 10)%nat.
Proof. apply (pretty_page_clamped (seq 0 25) None 7). discriminate. Defined.

Lemma pretty_rows_run w display_name author pairs :
  let out := Display.pretty_rows w display_name author pairs in
  (∀ i row, out.1 !! i = Some row → Display.pretty_idx row = i)
  ∧ (is_Some out.2
     ↔ ∃ user, (author, user) ∈ pairs ∧ is_Some (member_roles w !! author))
  ∧ ∀ a, out.2 = Some a →
      ∃ row, out.1 !! a = Some row
             ∧ Display.pretty_name row = display_name author.
Proof.
  unfold Display.pretty_rows.
  set (step := λ (acc : list Display.PrettyRow * option nat) (p : nat * cf.User), _).
  assert (Hgen : ∀ pairs acc,
    (∀ i row, acc.1 !! i = Some row → Display.pretty_idx row = i) →
    (∀ a, acc.2 = Some a →
       ∃ row, acc.1 !! a = Some row ∧ Display.pretty_name row = display_name author) →
    let out := foldl step acc pairs in
    (∀ i row, out.1 !! i = Some row → Display.pretty_idx row = i)
    ∧ (is_Some out.2
       ↔ is_Some acc.2
         ∨ ∃ user, (author, user) ∈ pairs ∧ is_Some (member_roles w !! author))
    ∧ ∀ a, out.2 = Some a →
        ∃ row, out.1 !! a = Some row
               ∧ Display.pretty_name row = display_name author).
  { clear pairs. induction pairs as [|[uid user] pairs IH]; intros acc Hidx Hauth.
    { simpl. split; [done|]. split; [|done].
      split; [by left|]. intros [?|(user & Hin & _)]; [done|].
      by apply elem_of_nil in Hin. }
    simpl.
    destruct (member_roles w !! uid) as [held|] eqn:Hmem.
    - set (row0 := {| Display.pretty_idx := length acc.1;
                      Display.pretty_name := display_name uid;
                      Display.pretty_handle := cf.handle user;
                      Display.pretty_rating := cf.rating user |}).
      set (acc1 := (acc.1 ++ [row0], if Nat.eqb uid author then Some (length acc.1) else acc.2)).
      assert (Hstep : step acc (uid, user) = acc1).
      { unfold step, acc1, row0. simpl. by rewrite Hmem. }
      rewrite Hstep.
      destruct (IH acc1) as (H1 & H2 & H3).
      + intros i row. unfold acc1. simpl.
        intros [Hi|[Hi Hrow]]%lookup_app_Some; [by apply Hidx|].
        apply list_lookup_singleton_Some in Hrow as [Hz <-]. simpl. lia.
      + intros a. unfold acc1. simpl. destruct (Nat.eqb_spec uid author) as [->|Hne].
        * intros [= <-]. exists row0. split; [|done].
          rewrite lookup_app_r by lia. by rewrite Nat.sub_diag.
        * intros Ha. destruct (Hauth a Ha) as (row & Hrow & Hname).
          exists row. split; [|done]. apply lookup_app_l_Some. done.
      + split; [done|]. split; [|done]. rewrite H2. unfold acc1. simpl.
        destruct (Nat.eqb_spec uid author) as [->|Hne].
        * split; [|by left; eauto]. intros _. right. exists user.
          split; [apply elem_of_cons; by left|]. rewrite Hmem. eauto.
        * split.
          -- intros [?|(user' & Hin & Hm)]; [by left|right].
             exists user'. split; [|done]. apply elem_of_cons. by right.
          -- intros [?|(user' & Hin & Hm)]; [by left|right].
             apply elem_of_cons in Hin as [[= -> ->]|Hin]; [done|]. eauto.
    - assert (Hstep : step acc (uid, user) = acc).
      { unfold step. simpl. by rewrite Hmem. }
      rewrite Hstep.
      destruct (IH acc Hidx Hauth) as (H1 & H2 & H3).
      split; [done|]. split; [|done]. rewrite H2. split.
      + intros [?|(user' & Hin & Hm)]; [by left|right].
        exists user'. split; [|done]. apply elem_of_cons. by right.
      + intros [?|(user' & Hin & Hm)]; [by left|right].
        apply elem_of_cons in Hin as [[= -> ->]|Hin].
        * rewrite Hmem in Hm. by destruct Hm.
        * eauto. }
  destruct (Hgen pairs ([], None)) as (H1 & H2 & H3); [done|done|].
  cbv zeta. split; [exact H1|]. split; [|exact H3].
  etrans; [exact H2|]. simpl. split; [intros [[? ?]|?]; done|by right].
Qed.

(** X19.  The rows that [pretty] builds are numbered by their position.
    An author is found exactly when one of the pairs is the author's and
    the author is in the guild; then, without a page number, [pretty]
    raises nothing and shows at most ten rows, among them the row of the
    author, with at most four rows before it. *)
Theorem pretty_shows_author (w : World) (display_name : nat → list Z)
    (author : nat) (pairs : list (nat * cf.User)) :
  let rows := (Display.pretty_rows w display_name author pairs).1 in
  let author_idx := (Display.pretty_rows w display_name author pairs).2 in
  (∀ i row, rows !! i = Some row → Display.pretty_idx row = i)
  ∧ (is_Some author_idx
     ↔ ∃ user, (author, user) ∈ pairs ∧ is_Some (member_roles w !! author))
  ∧ ∀ a, author_idx = Some a →
      ∃ row shown,
        rows !! a = Some row
        ∧ Display.pretty_name row = display_name author
        ∧ Display.pretty_window rows author_idx None
          = inr (Some Display.Neighbourhood, shown)
        ∧ (length shown ≤ 10)%nat
        ∧ ∃ i, shown !! i = Some row ∧ (i ≤ 4)%nat.
Proof.
  intros rows author_idx.
  destruct (pretty_rows_run w display_name author pairs) as (H1 & H2 & H3).
  fold rows in H1, H3. fold author_idx in H2, H3.
  split; [done|]. split; [done|].
  intros a Ha. destruct (H3 a Ha) as (row & Hrow & Hname).
  assert (Hlt : (a < length rows)%nat) by (by eapply lookup_lt_Some).
  set (start_idx := Z.max 0 (Z.of_nat a - 4)).
  exists row, (Display.window rows start_idx).
  split; [done|]. split; [done|].
  destruct (window_spec rows start_idx ltac:(unfold start_idx; lia)) as (_ & Hw & _).
  split; [|split; [done|]].
  - rewrite Ha. unfold Display.pretty_window.
    clearbody rows. destruct rows as [|row0 rows']; [simpl in Hlt; lia|]. done.
  - exists (a - Z.to_nat start_idx)%nat. split; [|unfold start_idx; lia].
    unfold Display.window, Display._PRETTY_HANDLES_PER_PAGE.
    rewrite lookup_take_lt by (unfold start_idx; lia).
    rewrite lookup_drop. rewrite <-Hrow. f_equal. unfold start_idx. lia.
Qed.

(** ** Linking a handle *)

Lemma set_role_run e g user w :
  Linking.set_role e g user w
  = (match resolved_tier e user with
     | cf.UNRATED_RANK => Ok None
     | cf.Rated k =>
         match Linking.roles_named g (cf.title k) with
         | [] => Raise (HandleCogError (RolesNotPresent [cf.title k]))
         | role :: _ => Ok (Some role)
         end
     end, w, []).
Proof.
  unfold Linking.set_role, resolved_tier.
  destruct (resolved_rating user) as [r|]; [|done].
  destruct (cf.rating2rank (RATED_RANKS e) (Some r)) as [|k]; [done|].
  by destruct (Linking.roles_named g (cf.title k)).
Qed.


Lemma roles_named_nil g name :
  Linking.roles_named g name = []
  ↔ ∀ role, role ∈ guild_roles g → role_name role ≠ name.
Proof.
  unfold Linking.roles_named. split.
  - intros Hnil role Hin Hname.
    assert (H : role ∈ filter (λ role, role_name role = name) (guild_roles g)).
    { by apply list_elem_of_filter. }
    rewrite Hnil in H. by apply elem_of_nil in H.
  - intros Hnone. induction (guild_roles g) as [|r l IH]; [done|].
    rewrite filter_cons_False.
    + apply IH. intros role Hin. apply Hnone, elem_of_cons. by right.
    + apply Hnone, elem_of_cons. by left.
Qed.

(** [_set] step by step: the fetch, the write of the record when both
    of its parts are truthy, the choice of the role, the role update. *)
Lemma set_run e g user_rank uid user w :
  let record := Linking.set_record e user_rank user in
  let handle := cf.handle user in
  let guard := Py.truthy record.1 && Builtins.truthy_str record.2 in
  let ev := UpdateAchievement uid (guild_id g) handle record.1 (default "" record.2) in
  let w1 :=
    if guard
    then {| member_roles := member_roles w;
            ledger := <[(uid, guild_id g) := (Some record.1, Some (default "" record.2))]>
                        (ledger w) |}
    else w in
  let t1 := FetchRating handle :: (if guard then [ev] else []) in
  Linking._set e g user_rank uid user w
  = if guard && fails e ev then (Raise DataBaseError, w, t1)
    else
      match (Linking.set_role e g user w1).1.1 with
      | Raise x => (Raise x, w1, t1)
      | Ok role =>
          let m := update_member_rank_role e g uid role "New handle set for user"
                     (roles_of w1 uid) in
          (m.1.1, set_roles uid m.1.2 w1, t1 ++ m.2)
      end.
Proof.
  intros record handle guard ev w1 t1.
  unfold Linking._set. fold handle. cbv zeta. fold record. fold guard.
  rewrite bind_run. unfold emit at 1. cbn [fst snd].
  rewrite bind_run.
  subst w1 t1. destruct guard; simpl.
  - unfold update_user_achievement, call. fold ev.
    destruct (fails e ev); simpl; [done|].
    rewrite bind_run, set_role_run. cbn [fst snd].
    destruct (resolved_tier e user) as [|k]; simpl.
    + by rewrite on_member_run.
    + destruct (Linking.roles_named g (cf.title k)); simpl; [done|].
      by rewrite on_member_run.
  - unfold mret, M_ret. simpl.
    rewrite bind_run, set_role_run. cbn [fst snd].
    destruct (resolved_tier e user) as [|k]; simpl.
    + by rewrite on_member_run.
    + destruct (Linking.roles_named g (cf.title k)); simpl; [done|].
      by rewrite on_member_run.
Qed.

Lemma truthy_ne z : Py.truthy z = true → z ≠ 0%Z.
Proof. unfold Py.truthy. by intros H%negb_true_iff%Z.eqb_neq. Qed.

Lemma truthy_str_Some o :
  Builtins.truthy_str o = true → ∃ t, o = Some t ∧ t ≠ "".
Proof.
  destruct o as [t|]; [|done]. simpl. intros H%negb_true_iff%String.eqb_neq. eauto.
Qed.

(** X20.  Of the ledger, [_set] touches at most the record of the member
    in the guild.  It writes that record only when the greatest rating it
    found is not zero and comes with a rank title that is not empty, and
    then stores exactly that pair.  Such a write keeps the invariant of the
    ledger, whatever the outcome of the rest of the run. *)
Theorem set_ledger_write (e : Env) (g : Guild) (user_rank : cf.User → cf.Tier)
    (uid : nat) (user : cf.User) (w : World) :
  let out := Linking._set e g user_rank uid user w in
  let record := Linking.set_record e user_rank user in
  (∀ k, k ≠ (uid, guild_id g) → ledger out.1.2 !! k = ledger w !! k)
  ∧ (ledger out.1.2 !! (uid, guild_id g) = ledger w !! (uid, guild_id g)
     ∨ (record.1 ≠ 0%Z
        ∧ ∃ t, record.2 = Some t ∧ t ≠ ""
               ∧ ledger out.1.2 !! (uid, guild_id g) = Some (Some record.1, Some t)))
  ∧ ((∀ k R, ledger w !! k = Some R → Ledger.ledger_inv (RATED_RANKS e) R) →
     ∀ k R, ledger out.1.2 !! k = Some R → Ledger.ledger_inv (RATED_RANKS e) R).
Proof.
  intros out record. subst out. rewrite set_run. cbv zeta. fold record.
  set (guard := Py.truthy record.1 && Builtins.truthy_str record.2).
  set (ev := UpdateAchievement _ _ _ _ _).
  set (w1 := if guard then _ else w).
  assert (Hw1 : (∀ k, k ≠ (uid, guild_id g) → ledger w1 !! k = ledger w !! k)
           ∧ (ledger w1 !! (uid, guild_id g) = ledger w !! (uid, guild_id g)
              ∨ (record.1 ≠ 0%Z
                 ∧ ∃ t, record.2 = Some t ∧ t ≠ ""
                        ∧ ledger w1 !! (uid, guild_id g)
                          = Some (Some record.1, Some t)))).
  { subst w1. destruct guard eqn:Hg; [|split; [done|by left]].
    apply andb_true_iff in Hg as [H1%truthy_ne (t & Ht & Hne)%truthy_str_Some].
    split.
    - intros k Hk. simpl. by rewrite lookup_insert_ne.
    - right. split; [done|]. exists t. split; [done|]. split; [done|].
      simpl. rewrite lookup_insert_eq, Ht. done. }
  assert (Hinv : (∀ k R, ledger w !! k = Some R → Ledger.ledger_inv (RATED_RANKS e) R) →
                 ∀ k R, ledger w1 !! k = Some R → Ledger.ledger_inv (RATED_RANKS e) R).
  { intros Hw k R. destruct Hw1 as [Hf Hk].
    destruct (decide (k = (uid, guild_id g))) as [->|Hne].
    - intros HR. unfold Ledger.Entry in *.
      destruct Hk as [Hk|(Hz & t & _ & _ & Hk)].
      + apply (Hw (uid, guild_id g)). congruence.
      + assert (R = (Some record.1, Some t)) as -> by congruence. by left.
    - rewrite Hf by done. apply Hw. }
  destruct Hw1 as [Hf Hk].
  assert (Hend : ∀ out : Res unit * World * list Event,
            ledger out.1.2 = ledger w ∨ ledger out.1.2 = ledger w1 →
            (∀ k, k ≠ (uid, guild_id g) → ledger out.1.2 !! k = ledger w !! k)
            ∧ (ledger out.1.2 !! (uid, guild_id g) = ledger w !! (uid, guild_id g)
               ∨ (record.1 ≠ 0%Z
                  ∧ ∃ t, record.2 = Some t ∧ t ≠ ""
                         ∧ ledger out.1.2 !! (uid, guild_id g)
                           = Some (Some record.1, Some t)))
            ∧ ((∀ k R, ledger w !! k = Some R → Ledger.ledger_inv (RATED_RANKS e) R) →
               ∀ k R, ledger out.1.2 !! k = Some R →
                      Ledger.ledger_inv (RATED_RANKS e) R)).
  { intros out [->| ->]; [|done]. split; [done|]. split; [by left|done]. }
  destruct (guard && fails e ev); [apply Hend; by left|].
  destruct ((Linking.set_role e g user w1).1.1) as [role|x]; apply Hend; right; done.
Qed.

(** X21.  When the guild has no role named after the rank of the user's
    best rating, [_set] changes no role and stops with an error: the
    [HandleCogError] that names the rank, or the error of the data base
    when the write of the record was rejected.  The record is written
    before the role is looked up: when the error is the [HandleCogError]
    and the record was due, the data base holds it. *)
Theorem set_missing_role (e : Env) (g : Guild) (user_rank : cf.User → cf.Tier)
    (uid : nat) (user : cf.User) (w : World) (k : cf.Rank) :
  resolved_tier e user = cf.Rated k →
  (∀ role, role ∈ guild_roles g → role_name role ≠ cf.title k) →
  let out := Linking._set e g user_rank uid user w in
  let record := Linking.set_record e user_rank user in
  member_roles out.1.2 = member_roles w
  ∧ Forall (λ ev, is_role_mutation ev = false ∧ is_trusted_check ev = false) out.2
  ∧ (out.1.1 = Raise DataBaseError
     ∨ (out.1.1 = Raise (HandleCogError (RolesNotPresent [cf.title k]))
        ∧ (Py.truthy record.1 && Builtins.truthy_str record.2 = true →
           get_user_achievement out.1.2 uid (guild_id g)
           = (Some record.1, Some (default "" record.2))))).
Proof.
  intros Htier Hnone out record. subst out. rewrite set_run. cbv zeta. fold record.
  rewrite set_role_run, Htier. cbn [fst snd].
  apply roles_named_nil in Hnone. rewrite Hnone.
  set (guard := Py.truthy record.1 && Builtins.truthy_str record.2).
  destruct guard; simpl.
  - destruct (fails e _); simpl.
    + split; [done|]. split; [by repeat constructor|]. by left.
    + split; [done|]. split; [by repeat constructor|]. right. split; [done|].
      intros _. unfold get_user_achievement. simpl. by rewrite lookup_insert_eq.
  - split; [done|]. split; [by repeat constructor|]. right. done.
Qed.

(** X21 on the sample guild without the role Specialist, for alice. *)
Lemma set_missing_role_witness :
  let user_rank := λ user, cf.rating2rank cf.sample_ranks (cf.rating user) in
  let out := Linking._set Sample.env Sample.guild_without_specialist user_rank 1
               (Sample.info "alice") Sample.world in
  let record := Linking.set_record Sample.env user_rank (Sample.info "alice") in
  member_roles out.1.2 = member_roles Sample.world
  ∧ Forall (λ ev, is_role_mutation ev = false ∧ is_trusted_check ev = false) out.2
  ∧ (out.1.1 = Raise DataBaseError
     ∨ (out.1.1 = Raise (HandleCogError (RolesNotPresent ["Specialist"]))
        ∧ (Py.truthy record.1 && Builtins.truthy_str record.2 = true →
           get_user_achievement out.1.2 1 7
           = (Some record.1, Some (default "" record.2))))).
Proof.
  apply (set_missing_role Sample.env Sample.guild_without_specialist
           (λ user, cf.rating2rank cf.sample_ranks (cf.rating user)) 1
           (Sample.info "alice") Sample.world
           {| cf.low := 1400; cf.title := "Specialist" |}).
  - vm_compute. reflexivity.
  - apply Forall_forall. apply (bool_decide_unpack _). vm_compute. reflexivity.
Defined.



(** ** Syncing the achievements *)

(** The write of [sync_achievements] for one user: a record, or a user
    counted as skipped. *)
Lemma sync_record_run e g c uid h user changes w :
  ∃ written : option (Z * string),
    Linking.sync_record e g c uid h user changes w
    = match written with
      | Some (m, t) =>
          if fails e (UpdateAchievement uid (guild_id g) h m t)
          then (Raise DataBaseError, w, [UpdateAchievement uid (guild_id g) h m t])
          else (Ok (Linking.count_synced c),
                {| member_roles := member_roles w;
                   ledger := <[(uid, guild_id g) := (Some m, Some t)]> (ledger w) |},
                [UpdateAchievement uid (guild_id g) h m t])
      | None => (Ok (Linking.count_skipped c), w, [])
      end
    ∧ match changes with
      | first :: rest =>
          written = Some ((Linking.history_record (RATED_RANKS e) first rest).1,
                          cf.tier_title
                            (Linking.history_record (RATED_RANKS e) first rest).2)
      | [] =>
          ∀ m t, written = Some (m, t) →
            cf.maxRating user = Some m ∧ (0 < m)%Z
            ∧ t = cf.tier_title (cf.rating2rank (RATED_RANKS e) (Some m))
      end.
Proof.
  unfold Linking.sync_record. destruct changes as [|first rest].
  - destruct (cf.maxRating user) as [m|]; [|by (exists None; split)].
    destruct (Py.truthy m && (0 <? m)%Z) eqn:Hpos; [|by (exists None; split)].
    apply andb_true_iff in Hpos as [_ Hpos%Z.ltb_lt].
    destruct (cf.rating2rank (RATED_RANKS e) (Some m)) as [|k] eqn:Hk;
      [by (exists None; split)|].
    exists (Some (m, cf.title k)). split.
    + unfold update_user_achievement, call, mbind, M_bind, mret, M_ret.
      by destruct (fails e _).
    + intros m' t' [= <- <-]. split; [done|]. split; [done|]. by rewrite Hk.
  - eexists (Some (_, _)). split; [|reflexivity].
    unfold update_user_achievement, call, mbind, M_bind, mret, M_ret.
    by destruct (fails e _).
Qed.



(** One pass of the loop of [sync_achievements], step by step. *)
Lemma sync_one_run e g c uid h w :
  let user := user_info e h in
  Linking.sync_one e g c (uid, h) w
  = match user_rating e h with
    | cf.RatingChanges changes =>
        let r := Linking.sync_record e g c uid h user changes w in
        match r.1.1 with
        | Raise x => (Raise x, r.1.2, FetchRating h :: r.2)
        | Ok c1 =>
            match member_roles r.1.2 !! uid with
            | None => (Ok c1, r.1.2, FetchRating h :: r.2)
            | Some held =>
                if bool_decide (Linking.sync_role e g user ≠ None)
                   || Linking.holds_rank_role e held
                then
                  let m := update_member_rank_role e g uid (Linking.sync_role e g user)
                             "Achievement sync" (roles_of r.1.2 uid) in
                  (match m.1.1 with
                   | Ok _ => Ok (Linking.count_roles_updated c1)
                   | Raise x => Raise x
                   end, set_roles uid m.1.2 r.1.2, FetchRating h :: r.2 ++ m.2)
                else (Ok c1, r.1.2, FetchRating h :: r.2)
            end
        end
    | _ => (Ok (Linking.count_failed c), w, [FetchRating h])
    end.
Proof.
  intros user. unfold Linking.sync_one. cbn [fst snd]. fold user.
  unfold mbind at 1. unfold M_bind at 1. unfold emit at 1.
  destruct (user_rating e h) as [changes| |]; [|done..].
  unfold mbind at 1. unfold M_bind at 1.
  destruct (Linking.sync_record e g c uid h user changes w) as [[[c1|x] w1] t1];
    cbn [fst snd]; [|done].
  unfold mbind at 1. unfold M_bind at 1. unfold get_state at 1.
  destruct (member_roles w1 !! uid) as [held|]; [|simpl; by rewrite ?app_nil_r].
  destruct (_ || _); [|simpl; by rewrite ?app_nil_r].
  unfold mbind, M_bind. rewrite on_member_run. cbn [fst snd].
  destruct (_.1.1) as [[]|x]; simpl; [|done]. by rewrite app_nil_r.
Qed.







Ltac sync_count H :=
  first [ apply (H _ (or_introl eq_refl) _ (or_introl eq_refl))
        | apply (H _ (or_introl eq_refl) _ (or_intror eq_refl))
        | apply (H _ (or_intror eq_refl) _ (or_introl eq_refl))
        | apply (H _ (or_intror eq_refl) _ (or_intror eq_refl)) ].

(** The counters after one pass of the loop. *)
Lemma sync_one_counts e g c uid h w :
  let out := Linking.sync_one e g c (uid, h) w in
  ∀ c', out.1.1 = Ok c' →
    (Linking.synced c' + Linking.failed c' + Linking.skipped c'
     = S (Linking.synced c + Linking.failed c + Linking.skipped c))%nat
    ∧ (Linking.synced c ≤ Linking.synced c')%nat
    ∧ (Linking.failed c ≤ Linking.failed c')%nat
    ∧ (Linking.skipped c ≤ Linking.skipped c')%nat
    ∧ (Linking.roles_updated c ≤ Linking.roles_updated c')%nat
    ∧ (Linking.roles_updated c' + Linking.failed c'
       ≤ S (Linking.roles_updated c + Linking.failed c))%nat
    ∧ (Linking.failed c' = S (Linking.failed c)
       ↔ ∀ changes, user_rating e h ≠ cf.RatingChanges changes).
Proof.
  intros out c'. subst out. rewrite sync_one_run. cbv zeta.
  destruct (user_rating e h) as [changes| |] eqn:Hrating.
  2,3: intros [= <-]; simpl; repeat split; try lia; try done.
  destruct (sync_record_run e g c uid h (user_info e h) changes w)
    as (written & Hrun & _).
  rewrite Hrun.
  assert (Hc1 : ∀ c1, c1 = Linking.count_synced c ∨ c1 = Linking.count_skipped c →
     ∀ c2, c2 = c1 ∨ c2 = Linking.count_roles_updated c1 →
     (Linking.synced c2 + Linking.failed c2 + Linking.skipped c2
      = S (Linking.synced c + Linking.failed c + Linking.skipped c))%nat
     ∧ (Linking.synced c ≤ Linking.synced c2)%nat
     ∧ (Linking.failed c ≤ Linking.failed c2)%nat
     ∧ (Linking.skipped c ≤ Linking.skipped c2)%nat
     ∧ (Linking.roles_updated c ≤ Linking.roles_updated c2)%nat
     ∧ (Linking.roles_updated c2 + Linking.failed c2
        ≤ S (Linking.roles_updated c + Linking.failed c))%nat
     ∧ (Linking.failed c2 = S (Linking.failed c)
        ↔ ∀ changes0, cf.RatingChanges changes ≠ cf.RatingChanges changes0)).
  { intros c1 [-> | ->] c2 [-> | ->]; simpl; repeat split; try lia;
      try (intros Hall; exfalso; by apply (Hall changes)). }
  destruct written as [[m t0]|].
  - destruct (fails e _); [done|]. cbn [fst snd].
    destruct (_ !! uid) as [held|]; [|cbn [fst snd]; intros [= <-]; sync_count Hc1].
    destruct (_ || _); [|cbn [fst snd]; intros [= <-]; sync_count Hc1].
    cbv zeta. cbn [fst snd].
    destruct (_.1.1) as [[]|x]; [|done]. intros [= <-]. sync_count Hc1.
  - cbn [fst snd].
    destruct (_ !! uid) as [held|]; [|cbn [fst snd]; intros [= <-]; sync_count Hc1].
    destruct (_ || _); [|cbn [fst snd]; intros [= <-]; sync_count Hc1].
    cbv zeta. cbn [fst snd].
    destruct (_.1.1) as [[]|x]; [|done]. intros [= <-]. sync_count Hc1.
Qed.

Lemma sync_loop_cons e g p pairs c w :
  Linking.sync_loop e g (p :: pairs) c w
  = match (Linking.sync_one e g c p w).1.1 with
    | Ok c1 =>
        let out := Linking.sync_loop e g pairs c1 (Linking.sync_one e g c p w).1.2 in
        (out.1.1, out.1.2, (Linking.sync_one e g c p w).2 ++ out.2)
    | Raise x => (Raise x, (Linking.sync_one e g c p w).1.2, (Linking.sync_one e g c p w).2)
    end.
Proof.
  simpl. rewrite bind_run.
  by destruct (Linking.sync_one e g c p w) as [[[c1|x] w1] t1].
Qed.

(** X24.  The summary of [sync_achievements] adds up: when the loop
    returns, every pair has been counted exactly once as synced, skipped or
    failed, no counter has gone down, and a pair counted as failed has not
    been counted as a role update. *)
Theorem sync_counts_add_up (e : Env) (g : Guild) (pairs : list (nat * string))
    (c c' : Linking.SyncCounts) (w w' : World) (t : list Event) :
  Linking.sync_loop e g pairs c w = (Ok c', w', t) →
  (Linking.synced c' + Linking.failed c' + Linking.skipped c'
   = Linking.synced c + Linking.failed c + Linking.skipped c + length pairs)%nat
  ∧ (Linking.synced c ≤ Linking.synced c')%nat
  ∧ (Linking.failed c ≤ Linking.failed c')%nat
  ∧ (Linking.skipped c ≤ Linking.skipped c')%nat
  ∧ (Linking.roles_updated c ≤ Linking.roles_updated c')%nat
  ∧ (Linking.roles_updated c' + Linking.failed c'
     ≤ Linking.roles_updated c + Linking.failed c + length pairs)%nat.
Proof.
  revert c w c' w' t; induction pairs as [|[uid h] pairs IH]; intros c w c' w' t.
  { intros [= <- <- <-]. simpl. lia. }
  rewrite sync_loop_cons.
  pose proof (sync_one_counts e g c uid h w) as Hone. cbv zeta in Hone.
  destruct ((Linking.sync_one e g c (uid, h) w).1.1) as [c1|x]; [|done].
  specialize (Hone c1 eq_refl). cbv zeta.
  set (w1 := (Linking.sync_one e g c (uid, h) w).1.2).
  destruct (Linking.sync_loop e g pairs c1 w1) as [[r2 w2] t2] eqn:Hrest.
  simpl. intros [= -> <- <-].
  specialize (IH _ _ _ _ _ Hrest). simpl. lia.
Qed.

(** X24 on the sample guild. *)
Lemma sync_counts_add_up_witness :
  let zero := {| Linking.synced := 0; Linking.failed := 0; Linking.skipped := 0;
                 Linking.roles_updated := 0 |} in
  let c' := Calls.returned zero
              (Linking.sync_loop Sample.env Sample.guild Sample.handles zero
                 Sample.world).1.1 in
  (Linking.synced c' + Linking.failed c' + Linking.skipped c'
   = Linking.synced zero + Linking.failed zero + Linking.skipped zero
     + length Sample.handles)%nat
  ∧ (Linking.synced zero ≤ Linking.synced c')%nat
  ∧ (Linking.failed zero ≤ Linking.failed c')%nat
  ∧ (Linking.skipped zero ≤ Linking.skipped c')%nat
  ∧ (Linking.roles_updated zero ≤ Linking.roles_updated c')%nat
  ∧ (Linking.roles_updated c' + Linking.failed c'
     ≤ Linking.roles_updated zero + Linking.failed zero + length Sample.handles)%nat.
Proof.
  intros zero c'.
  set (out := Linking.sync_loop Sample.env Sample.guild Sample.handles zero
                Sample.world).
  apply (sync_counts_add_up Sample.env Sample.guild Sample.handles zero c'
           Sample.world out.1.2 out.2).
  vm_compute. reflexivity.
Defined.

Lemma sync_one_ledger e g c uid h w :
  let out := Linking.sync_one e g c (uid, h) w in
  (∀ k, k ≠ (uid, guild_id g) → ledger out.1.2 !! k = ledger w !! k)
  ∧ (ledger out.1.2 !! (uid, guild_id g) = ledger w !! (uid, guild_id g)
     ∨ ∃ m t0,
         ledger out.1.2 !! (uid, guild_id g) = Some (Some m, Some t0)
         ∧ match user_rating e h with
           | cf.RatingChanges (first :: rest) =>
               m = (Linking.history_record (RATED_RANKS e) first rest).1
               ∧ t0 = cf.tier_title (Linking.history_record (RATED_RANKS e) first rest).2
           | cf.RatingChanges [] =>
               cf.maxRating (user_info e h) = Some m ∧ (0 < m)%Z
               ∧ t0 = cf.tier_title (cf.rating2rank (RATED_RANKS e) (Some m))
           | _ => False
           end)
  ∧ ∀ c' first rest,
      out.1.1 = Ok c' → user_rating e h = cf.RatingChanges (first :: rest) →
      ledger out.1.2 !! (uid, guild_id g)
      = Some (Some (Linking.history_record (RATED_RANKS e) first rest).1,
              Some (cf.tier_title (Linking.history_record (RATED_RANKS e) first rest).2))
      ∧ Linking.synced c' = S (Linking.synced c).
Proof.
  intros out. subst out. rewrite sync_one_run. cbv zeta.
  destruct (user_rating e h) as [changes| |] eqn:Hrating.
  2,3: split; [done|]; split; [by left|done].
  destruct (sync_record_run e g c uid h (user_info e h) changes w)
    as (written & Hrun & Hwritten).
  rewrite Hrun.
  destruct written as [[m t0]|].
  - destruct (fails e _).
    { cbn [fst snd]. split; [done|]. split; [by left|]. done. }
    cbn [fst snd].
    set (w1 := {| member_roles := member_roles w; ledger := _ |}).
    assert (Hend : ∀ out : Res Linking.SyncCounts * World * list Event,
              ledger out.1.2 = ledger w1 →
              (∀ c', out.1.1 = Ok c' → Linking.synced c' = S (Linking.synced c)) →
              (∀ k, k ≠ (uid, guild_id g) → ledger out.1.2 !! k = ledger w !! k)
              ∧ (ledger out.1.2 !! (uid, guild_id g) = ledger w !! (uid, guild_id g)
                 ∨ ∃ m t1,
                     ledger out.1.2 !! (uid, guild_id g) = Some (Some m, Some t1)
                     ∧ match changes with
                       | first :: rest =>
                           m = (Linking.history_record (RATED_RANKS e) first rest).1
                           ∧ t1 = cf.tier_title
                                    (Linking.history_record (RATED_RANKS e) first rest).2
                       | [] =>
                           cf.maxRating (user_info e h) = Some m ∧ (0 < m)%Z
                           ∧ t1 = cf.tier_title
                                    (cf.rating2rank (RATED_RANKS e) (Some m))
                       end)
              ∧ ∀ c' first rest,
                  out.1.1 = Ok c' →
                  cf.RatingChanges changes = cf.RatingChanges (first :: rest) →
                  ledger out.1.2 !! (uid, guild_id g)
                  = Some (Some (Linking.history_record (RATED_RANKS e) first rest).1,
                          Some (cf.tier_title
                                  (Linking.history_record (RATED_RANKS e) first rest).2))
                  ∧ Linking.synced c' = S (Linking.synced c)).
    { intros out Hl Hc. rewrite Hl. unfold w1. simpl. split; [|split].
      - intros k Hk. by rewrite lookup_insert_ne.
      - right. exists m, t0. rewrite lookup_insert_eq. split; [done|].
        destruct changes as [|first rest]; [by apply Hwritten|]. by simplify_eq.
      - intros c' first rest Hok [= ->]. simplify_eq.
        rewrite lookup_insert_eq. split; [done|]. by apply Hc. }
    destruct (_ !! uid) as [held|]; [|apply Hend; [done|by intros ? [= <-]]].
    destruct (_ || _); [|apply Hend; [done|by intros ? [= <-]]].
    cbv zeta. apply Hend; [done|].
    intros c'. cbn [fst snd]. destruct (_.1.1) as [[]|x]; [|done]. by intros [= <-].
  - cbn [fst snd].
    assert (Hnil : changes = []) by (destruct changes; [done|discriminate Hwritten]).
    subst changes.
    assert (Hend : ∀ out : Res Linking.SyncCounts * World * list Event,
              ledger out.1.2 = ledger w →
              (∀ k, k ≠ (uid, guild_id g) → ledger out.1.2 !! k = ledger w !! k)
              ∧ (ledger out.1.2 !! (uid, guild_id g) = ledger w !! (uid, guild_id g)
                 ∨ ∃ m t1,
                     ledger out.1.2 !! (uid, guild_id g) = Some (Some m, Some t1)
                     ∧ (cf.maxRating (user_info e h) = Some m ∧ (0 < m)%Z
                        ∧ t1 = cf.tier_title
                                 (cf.rating2rank (RATED_RANKS e) (Some m))))
              ∧ ∀ c' first rest,
                  out.1.1 = Ok c' →
                  cf.RatingChanges [] = cf.RatingChanges (first :: rest) →
                  ledger out.1.2 !! (uid, guild_id g)
                  = Some (Some (Linking.history_record (RATED_RANKS e) first rest).1,
                          Some (cf.tier_title
                                  (Linking.history_record (RATED_RANKS e) first rest).2))
                  ∧ Linking.synced c' = S (Linking.synced c)).
    { intros out ->. split; [done|]. split; [by left|]. done. }
    destruct (_ !! uid) as [held|]; [|by apply Hend].
    destruct (_ || _); [|by apply Hend].
    cbv zeta. by apply Hend.
Qed.

Lemma peak_record_inv ranks m :
  Ledger.ledger_inv ranks
    (Some m, Some (cf.tier_title (cf.rating2rank ranks (Some m)))).
Proof.
  right. intros i j Hi Hj. rewrite Hi in Hj. injection Hj as ->. done.
Qed.

(** X25.  A pass of the loop of [sync_achievements] over a user with a
    rating history replaces the record of the user, whatever it held, by
    the greatest rating of the history and the rank of that rating, and
    counts the user as synced. *)
Theorem sync_stores_peak (e : Env) (g : Guild) (c c' : Linking.SyncCounts)
    (uid : nat) (h : string) (w w' : World) (t : list Event)
    (first : cf.RatingChange) (rest : list cf.RatingChange) :
  cf.table_wf (RATED_RANKS e) →
  user_rating e h = cf.RatingChanges (first :: rest) →
  Linking.sync_one e g c (uid, h) w = (Ok c', w', t) →
  ∃ peak,
    (∃ change, change ∈ first :: rest ∧ cf.newRating change = peak)
    ∧ (∀ change, change ∈ first :: rest → (cf.newRating change ≤ peak)%Z)
    ∧ get_user_achievement w' uid (guild_id g)
      = (Some peak, Some (cf.tier_title (cf.rating2rank (RATED_RANKS e) (Some peak))))
    ∧ Linking.synced c' = S (Linking.synced c).
Proof.
  intros Hwf Hrating Hrun.
  destruct (sync_one_ledger e g c uid h w) as (_ & _ & Hpeak).
  rewrite Hrun in Hpeak. destruct (Hpeak c' first rest eq_refl Hrating) as [Hl Hc].
  destruct (history_record_run (RATED_RANKS e) first rest Hwf) as (H1 & H2 & H3).
  exists (Linking.history_record (RATED_RANKS e) first rest).1.
  split; [done|]. split; [done|]. split; [|done].
  unfold get_user_achievement. cbn [fst snd] in Hl. rewrite Hl.
  cbn [default]. by rewrite H3.
Qed.

(** X25 on the sample guild, for carol, whose history holds the one
    rating 1950. *)
Lemma sync_stores_peak_witness :
  let zero := {| Linking.synced := 0; Linking.failed := 0; Linking.skipped := 0;
                 Linking.roles_updated := 0 |} in
  let out := Linking.sync_one Sample.env Sample.guild zero (3%nat, "carol")
               Sample.world in
  ∃ peak,
    (∃ change,
       change ∈ [ {| cf.change_handle := "carol"; cf.newRating := 1950;
                     cf.ratingUpdateTimeSeconds := 1600000000 |} ]
       ∧ cf.newRating change = peak)
    ∧ (∀ change,
         change ∈ [ {| cf.change_handle := "carol"; cf.newRating := 1950;
                       cf.ratingUpdateTimeSeconds := 1600000000 |} ] →
         (cf.newRating change ≤ peak)%Z)
    ∧ get_user_achievement out.1.2 3 7
      = (Some peak, Some (cf.tier_title (cf.rating2rank cf.sample_ranks (Some peak))))
    ∧ Linking.synced (Calls.returned zero out.1.1) = 1%nat.
Proof.
  intros zero out.
  apply (sync_stores_peak Sample.env Sample.guild zero (Calls.returned zero out.1.1)
           3 "carol" Sample.world out.1.2 out.2
           {| cf.change_handle := "carol"; cf.newRating := 1950;
              cf.ratingUpdateTimeSeconds := 1600000000 |} []).
  - exact sample_ranks_wf.
  - reflexivity.
  - vm_compute. reflexivity.
Defined.

Lemma sync_one_inv e g c uid h w :
  cf.table_wf (RATED_RANKS e) →
  (∀ k R, ledger w !! k = Some R → Ledger.ledger_inv (RATED_RANKS e) R) →
  ∀ k R, ledger (Linking.sync_one e g c (uid, h) w).1.2 !! k = Some R →
         Ledger.ledger_inv (RATED_RANKS e) R.
Proof.
  intros Hwf Hinv k R.
  destruct (sync_one_ledger e g c uid h w) as (Hframe & Hkey & _).
  unfold Ledger.Entry in *.
  destruct (decide (k = (uid, guild_id g))) as [->|Hne].
  2:{ rewrite Hframe by done. apply Hinv. }
  destruct Hkey as [Hkey|(m & t0 & Hkey & Hwhat)]; rewrite Hkey; [apply Hinv|].
  intros [= <-].
  destruct (user_rating e h) as [[|first rest]| |]; [| |done..].
  - destruct Hwhat as (_ & Hpos & ->). left. lia.
  - destruct Hwhat as [-> ->].
    destruct (history_record_run (RATED_RANKS e) first rest Hwf) as (_ & _ & ->).
    apply peak_record_inv.
Qed.

(** X26.  Over a table with distinct titles, none of them Unrated, the
    loop of [sync_achievements] keeps the invariant of the ledger: when
    every record holds a rating other than zero, or a rank that covers its
    rating, so does every record after the loop, whatever its outcome. *)
Theorem sync_keeps_ledger_inv (e : Env) (g : Guild) (pairs : list (nat * string))
    (c : Linking.SyncCounts) (w : World) :
  cf.table_wf (RATED_RANKS e) →
  (∀ k R, ledger w !! k = Some R → Ledger.ledger_inv (RATED_RANKS e) R) →
  ∀ k R, ledger (Linking.sync_loop e g pairs c w).1.2 !! k = Some R →
         Ledger.ledger_inv (RATED_RANKS e) R.
Proof.
  intros Hwf. revert c w; induction pairs as [|[uid h] pairs IH]; intros c w Hinv.
  { done. }
  rewrite sync_loop_cons.
  pose proof (sync_one_inv e g c uid h w Hwf Hinv) as Hone.
  destruct ((Linking.sync_one e g c (uid, h) w).1.1) as [c1|x]; [|done].
  cbv zeta. cbn [fst snd]. by apply IH.
Qed.

(** X26 on the sample guild: bob's record after the loop. *)
Lemma sync_keeps_ledger_inv_witness :
  Ledger.ledger_inv cf.sample_ranks (Some 1300%Z, Some "Pupil").
Proof.
  apply (sync_keeps_ledger_inv Sample.env Sample.guild Sample.handles
           {| Linking.synced := 0; Linking.failed := 0; Linking.skipped := 0;
              Linking.roles_updated := 0 |} Sample.world
           sample_ranks_wf
           ltac:(intros k R H; vm_compute in H; discriminate H)
           (2%nat, 7%nat)).
  vm_compute. reflexivity.
Defined.

Lemma list_to_map_reverse_last (l : list (string * Role)) (name : string) :
  (list_to_map (reverse l) : gmap string Role) !! name
  = last (filter (λ p, p.1 = name) l).*2.
Proof.
  induction l as [|[k v] l IH]; [done|].
  rewrite reverse_cons, list_to_map_app, lookup_union, IH.
  rewrite filter_cons. cbn [fst]. destruct (decide (k = name)) as [->|Hne].
  - rewrite fmap_cons, last_cons. cbn [snd list_to_map foldr uncurry].
    rewrite lookup_insert_eq. by destruct (last _).
  - cbn [list_to_map foldr uncurry fst snd].
    rewrite lookup_insert_ne, lookup_empty by done.
    by destruct (last _).
Qed.

Lemma named_pairs (required : gset string) (name : string) (l : list Role) :
  name ∈ required →
  (filter (λ p : string * Role, p.1 = name)
     ((λ role, (role_name role, role))
        <$> filter (λ role, role_name role ∈ required) l)).*2
  = filter (λ role, role_name role = name) l.
Proof.
  intros Hreq. induction l as [|r l IH]; [done|].
  rewrite (filter_cons (λ role, role_name role = name)).
  rewrite (filter_cons (λ role, role_name role ∈ required)).
  destruct (decide (role_name r = name)) as [Hn|Hn].
  - rewrite decide_True by (by rewrite Hn).
    rewrite fmap_cons, filter_cons, decide_True by done.
    by rewrite fmap_cons, IH.
  - destruct (decide (role_name r ∈ required)); [|done].
    by rewrite fmap_cons, filter_cons, decide_False by done.
Qed.

(** X27.  [_update_ranks] and [_set] do not pick the same role when a
    guild has several roles of one name: the dictionary [rank2role] of
    [_update_ranks] holds, for a required title, the last role of the guild
    with that name, where [_set] and [sync_achievements] take the first.
    In a guild with one role of that name the two agree. *)
Theorem rank2role_takes_last (g : Guild) (required : gset string) (name : string) :
  name ∈ required →
  rank2role g required !! name = last (Linking.roles_named g name)
  ∧ (∀ role, Linking.roles_named g name = [role] →
       rank2role g required !! name = head (Linking.roles_named g name)).
Proof.
  intros Hreq.
  assert (Hlast : rank2role g required !! name = last (Linking.roles_named g name)).
  { unfold rank2role, Linking.roles_named.
    by rewrite list_to_map_reverse_last, named_pairs. }
  split; [done|]. intros role Hone. by rewrite Hlast, Hone.
Qed.

(** X27 on a guild with two roles named Expert. *)
Lemma rank2role_takes_last_witness :
  let g := {| guild_id := 7;
              guild_roles := [Sample.expert;
                              {| role_id := 40; role_name := "Expert" |}] |} in
  rank2role g {["Expert"]} !! "Expert" = last (Linking.roles_named g "Expert")
  ∧ (∀ role, Linking.roles_named g "Expert" = [role] →
       rank2role g {["Expert"]} !! "Expert" = head (Linking.roles_named g "Expert")).
Proof.
  apply (rank2role_takes_last
           {| guild_id := 7;
              guild_roles := [Sample.expert;
                              {| role_id := 40; role_name := "Expert" |}] |}
           {["Expert"]} "Expert").
  apply (bool_decide_unpack _). vm_compute. reflexivity.
Defined.
